(** * PhotoZipper: a shallow embedding of the organiser and its properties

    The development follows the Python sources module by module:
    - [pattern_matcher.py]: [validate_pattern], [extract_group], [scan_and_group];
    - [models.py]: [SourceFile], [FileGroup];
    - [file_organizer.py]: [create_folder], [copy_file_with_metadata],
      [verify_copy], [handle_merge], [delete_original];
    - [zip_creator.py]: [create_zip], [add_folder_to_zip];
    - [logger.py]: [setup_logging];
    - [cli.py]: [validate_arguments], [main].

    The program is file-system orchestration, so the state is an explicit
    file system threaded through every operation, and Python exceptions are
    values of an error type. *)

From Stdlib Require Import String Ascii List Arith Bool Lia DecimalString.
From stdpp Require Import base tactics decidable option list strings.

Import ListNotations.
Local Open Scope string_scope.
Local Open Scope list_scope.
Local Open Scope nat_scope.



(* ===================================================================== *)
(** ** Regular expressions (the part of Python's [re] the program uses)   *)
(* ===================================================================== *)

(** The program calls [re.search(pattern, filename)] and reads
    [match.group(0)].  A compiled pattern is a value of [regex]; searching is
    a backtracking matcher with Python's priorities (left alternative first,
    greedy repetition iterates first, lazy repetition stops first). *)

Module Re.

(** A character stands for a code point below 256; text with other
    characters is outside the model.  Character sets: what a
    single-character atom accepts. *)
Inductive cset : Type :=
| CAny                          (* [.]  : any character but newline *)
| CLit (c : ascii)              (* a literal character *)
| CRange (lo hi : ascii)        (* [a-z] *)
| CDigit                        (* [\d] *)
| CWord                         (* [\w] *)
| CSpace                        (* [\s] *)
| CUnion (a b : cset)
| CNot (a : cset).

Definition newline : ascii := "010"%char.

Definition code (c : ascii) : nat := nat_of_ascii c.

Definition in_range (lo hi c : ascii) : bool :=
  (code lo <=? code c) && (code c <=? code hi).

Definition is_digit (c : ascii) : bool := in_range "0" "9" c.

Definition between (lo hi : nat) (c : ascii) : bool :=
  (lo <=? code c) && (code c <=? hi).

(** The letters and numbers from 128 up ([str.isalnum]). *)
Definition is_alnum_high (c : ascii) : bool :=
  between 170 170 c || between 178 179 c || between 181 181 c ||
  between 185 186 c || between 188 190 c || between 192 214 c ||
  between 216 246 c || between 248 255 c.

(** [\w] in a [str] pattern. *)
Definition is_word (c : ascii) : bool :=
  in_range "a" "z" c || in_range "A" "Z" c || is_digit c || Ascii.eqb c "_"
  || is_alnum_high c.

(** White space as [\s] and [str.strip] see it ([str.isspace]): the ASCII
    white space, the next-line control 133 and the no-break space 160. *)
Definition is_space (c : ascii) : bool :=
  between 9 13 c || between 28 32 c || between 133 133 c || between 160 160 c.

Fixpoint cset_mem (cs : cset) (c : ascii) : bool :=
  match cs with
  | CAny => negb (Ascii.eqb c newline)
  | CLit a => Ascii.eqb a c
  | CRange lo hi => in_range lo hi c
  | CDigit => is_digit c
  | CWord => is_word c
  | CSpace => is_space c
  | CUnion a b => cset_mem a c || cset_mem b c
  | CNot a => negb (cset_mem a c)
  end.

Inductive regex : Type :=
| Eps
| Chr (cs : cset)
| Bol                           (* [^] *)
| Eol                           (* [$] *)
| Cat (r1 r2 : regex)
| Alt (r1 r2 : regex)
| Star (greedy : bool) (r : regex).

Definition orelse {A} (x y : option A) : option A :=
  match x with Some _ => x | None => y end.

Section Matcher.

(** The subject string, fixed during one search. *)
Variable s : list ascii.

(** [$] without MULTILINE: at the end, or just before a final newline. *)
Definition at_eol (i : nat) : bool :=
  (i =? length s) ||
  ((S i =? length s) &&
   match nth_error s i with Some c => Ascii.eqb c newline | None => false end).

(** A repetition, given how to match its body once: [n] more rounds are
    allowed from position [i].  After a round that consumes nothing the
    repetition ends and the rest of the pattern follows, so [length s - i]
    rounds are enough from position [i]. *)
Fixpoint star_loop (body : nat -> (nat -> option nat) -> option nat)
  (greedy : bool) (k : nat -> option nat) (n i : nat) {struct n} : option nat :=
  match n with
  | 0 => k i
  | S n' =>
      let iter :=
        body i (fun j => if i <? j then star_loop body greedy k n' j else k j) in
      if greedy then orelse iter (k i) else orelse (k i) iter
  end.

(** [match_at r i k]: match [r] from position [i], then run the continuation
    [k] on the end position; backtrack into [r] when [k] fails. *)
Fixpoint match_at (r : regex) (i : nat) (k : nat -> option nat) {struct r}
  : option nat :=
  match r with
  | Eps => k i
  | Chr cs =>
      match nth_error s i with
      | Some c => if cset_mem cs c then k (S i) else None
      | None => None
      end
  | Bol => if i =? 0 then k i else None
  | Eol => if at_eol i then k i else None
  | Cat r1 r2 => match_at r1 i (fun j => match_at r2 j k)
  | Alt r1 r2 => orelse (match_at r1 i k) (match_at r2 i k)
  | Star g r1 => star_loop (match_at r1) g k (length s - i) i
  end.

(** [re.search]: the first start position, left to right, at which the
    pattern matches; the result is the span [(start, end)]. *)
Fixpoint search_from (r : regex) (n i : nat) : option (nat * nat) :=
  match match_at r i Some with
  | Some j => Some (i, j)
  | None =>
      match n with
      | 0 => None
      | S n' => search_from r n' (S i)
      end
  end.

Definition search (r : regex) : option (nat * nat) :=
  search_from r (length s) 0.

(** The declarative meaning of a pattern: [span r i j] says that [r]
    matches the characters of [s] from position [i] up to [j]. *)
Inductive span : regex -> nat -> nat -> Prop :=
| span_eps i : i <= length s -> span Eps i i
| span_chr cs i c :
    nth_error s i = Some c -> cset_mem cs c = true -> span (Chr cs) i (S i)
| span_bol : span Bol 0 0
| span_eol i : i <= length s -> at_eol i = true -> span Eol i i
| span_cat r1 r2 i j l :
    span r1 i j -> span r2 j l -> span (Cat r1 r2) i l
| span_alt_l r1 r2 i j : span r1 i j -> span (Alt r1 r2) i j
| span_alt_r r1 r2 i j : span r2 i j -> span (Alt r1 r2) i j
| span_star_nil g r i : i <= length s -> span (Star g r) i i
| span_star_cons g r i j l :
    span r i j -> span (Star g r) j l -> span (Star g r) i l.

End Matcher.

End Re.

(* ===================================================================== *)
(** ** Paths, exceptions and the file system                              *)
(* ===================================================================== *)

(** A [pathlib.Path] is the list of its components.  Components [".."] are
    kept by pathlib and resolved by the operating system ([resolve]). *)
Definition path : Type := list string.

(** [p / name] for one component: pathlib drops empty and ["."] parts. *)
Definition join (p : path) (name : string) : path :=
  if decide (name = "" \/ name = ".") then p else p ++ [name].

(** [Path.parent] is lexical. *)
Definition parent (p : path) : path := removelast p.

(** [Path.name]. *)
Definition basename (p : path) : string := List.last p "".

Fixpoint concat_sep (sep : string) (l : list string) : string :=
  match l with
  | [] => ""
  | [x] => x
  | x :: l' => x ++ sep ++ concat_sep sep l'
  end.

(** [str(path)]. *)
Definition path_str (p : path) : string :=
  match p with [] => "." | _ => concat_sep "/" p end.

(** The Python exceptions the program can meet, each with its message
    ([str(e)]).  All but [ValueError], [ReError] and [OverflowError] are
    subclasses of [OSError]; [re.compile] raises [OverflowError] for a
    repetition number that is too large. *)
Inductive exn : Type :=
| FileNotFoundError (msg : string)
| FileExistsError (msg : string)
| NotADirectoryError (msg : string)
| IsADirectoryError (msg : string)
| PermissionError (msg : string)
| SameFileError (msg : string)
| OSError (msg : string)
| ValueError (msg : string)
| ReError (msg : string)
| OverflowError (msg : string).

Definition is_OSError (e : exn) : bool :=
  match e with
  | ValueError _ | ReError _ | OverflowError _ => false
  | _ => true
  end.

(** [str(e)]. *)
Definition exn_str (e : exn) : string :=
  match e with
  | FileNotFoundError msg | FileExistsError msg | NotADirectoryError msg
  | IsADirectoryError msg | PermissionError msg | SameFileError msg
  | OSError msg | ValueError msg | ReError msg | OverflowError msg => msg
  end.

(** The name of the class, as a traceback shows it. *)
Definition exn_name (e : exn) : string :=
  match e with
  | FileNotFoundError _ => "FileNotFoundError"
  | FileExistsError _ => "FileExistsError"
  | NotADirectoryError _ => "NotADirectoryError"
  | IsADirectoryError _ => "IsADirectoryError"
  | PermissionError _ => "PermissionError"
  | SameFileError _ => "shutil.SameFileError"
  | OSError _ => "OSError"
  | ValueError _ => "ValueError"
  | ReError _ => "re.error"
  | OverflowError _ => "OverflowError"
  end.

(** The errors of the operating system, with the text of [strerror]. *)
Definition quoted (p : path) : string := "'" ++ path_str p ++ "'".
Definition ENOENT (p : path) : exn :=
  FileNotFoundError ("[Errno 2] No such file or directory: " ++ quoted p).
Definition EEXIST (p : path) : exn :=
  FileExistsError ("[Errno 17] File exists: " ++ quoted p).
Definition ENOTDIR (p : path) : exn :=
  NotADirectoryError ("[Errno 20] Not a directory: " ++ quoted p).
Definition EISDIR (p : path) : exn :=
  IsADirectoryError ("[Errno 21] Is a directory: " ++ quoted p).
Definition EACCES (p : path) : exn :=
  PermissionError ("[Errno 13] Permission denied: " ++ quoted p).

Inductive res (A : Type) : Type :=
| Ok (a : A)
| Raise (e : exn).
Arguments Ok {A} a.
Arguments Raise {A} e.

(** Permission bits of the running user on a node. *)
Record mode : Type := Mode { can_read : bool; can_write : bool }.

Definition rw : mode := Mode true true.

(** A node is a regular file with its bytes, or a directory.  Time stamps
    are not part of the model. *)
Inductive node : Type :=
| File (data : string) (md : mode)
| Dir (md : mode).

(** The file system: canonical absolute paths (no empty, ["."] or [".."]
    component) bound to nodes.  The list order is the order in which the
    operating system enumerates entries; the root directory is implicit. *)
Definition fsys : Type := list (path * node).

Fixpoint find_node (fs : fsys) (k : path) : option node :=
  match fs with
  | [] => None
  | (q, n) :: fs' => if decide (q = k) then Some n else find_node fs' k
  end.

Definition node_at (fs : fsys) (k : path) : option node :=
  match k with
  | [] => Some (Dir rw)
  | _ => find_node fs k
  end.

(** Bind [k] to [n]: in place when [k] is bound, at the end otherwise. *)
Fixpoint set_node (fs : fsys) (k : path) (n : node) : fsys :=
  match fs with
  | [] => [(k, n)]
  | (q, x) :: fs' =>
      if decide (q = k) then (k, n) :: fs' else (q, x) :: set_node fs' k n
  end.

Definition remove_node (fs : fsys) (k : path) : fsys :=
  filter (fun kv => fst kv <> k) fs.

(** The entries directly inside directory [k], in enumeration order. *)
Fixpoint children (fs : fsys) (k : path) : list (string * node) :=
  match fs with
  | [] => []
  | (q, n) :: fs' =>
      match q with
      | [] => children fs' k
      | _ => if decide (removelast q = k) then (List.last q "", n) :: children fs' k
             else children fs' k
      end
  end.

(** One step of path resolution from directory [cur]. *)
Definition step (cur : path) (c : string) : path :=
  if decide (c = "..") then removelast cur
  else if decide (c = "" \/ c = ".") then cur
  else cur ++ [c].

(** Resolution walks the components; every directory traversed must exist
    and be a directory.  The result is the canonical path named, whether or
    not something is bound there. *)
Fixpoint walk (fs : fsys) (orig : path) (cur : path) (cs : list string)
  : res path :=
  match cs with
  | [] => Ok cur
  | c :: cs' =>
      match node_at fs cur with
      | Some (Dir _) => walk fs orig (step cur c) cs'
      | Some (File _ _) => Raise (ENOTDIR orig)
      | None => Raise (ENOENT orig)
      end
  end.

Definition resolve (fs : fsys) (p : path) : res path := walk fs p [] p.

(** [os.stat]. *)
Definition stat (fs : fsys) (p : path) : res node :=
  match resolve fs p with
  | Raise e => Raise e
  | Ok k =>
      match node_at fs k with
      | Some n => Ok n
      | None => Raise (ENOENT p)
      end
  end.

(** [st_size]: the number of bytes of a file; directories report one block. *)
Definition st_size (n : node) : nat :=
  match n with
  | File data _ => String.length data
  | Dir _ => 4096
  end.

(** [Path.exists], [Path.is_file], [Path.is_dir]: false on any failure. *)
Definition exists_ (fs : fsys) (p : path) : bool :=
  match stat fs p with Ok _ => true | Raise _ => false end.

Definition is_file (fs : fsys) (p : path) : bool :=
  match stat fs p with Ok (File _ _) => true | _ => false end.

Definition is_dir (fs : fsys) (p : path) : bool :=
  match stat fs p with Ok (Dir _) => true | _ => false end.

Definition dir_writable (fs : fsys) (k : path) : bool :=
  match node_at fs k with
  | Some (Dir md) => can_write md
  | _ => false
  end.

(** [Path.iterdir]: the names inside a readable directory. *)
Definition iterdir (fs : fsys) (p : path) : res (list string) :=
  match resolve fs p with
  | Raise e => Raise e
  | Ok k =>
      match node_at fs k with
      | None => Raise (ENOENT p)
      | Some (File _ _) => Raise (ENOTDIR p)
      | Some (Dir md) =>
          if can_read md then Ok (map fst (children fs k))
          else Raise (EACCES p)
      end
  end.

(** [os.mkdir]. *)
Definition os_mkdir (fs : fsys) (p : path) : res fsys :=
  match resolve fs p with
  | Raise e => Raise e
  | Ok k =>
      match node_at fs k with
      | Some _ => Raise (EEXIST p)
      | None =>
          if dir_writable fs (removelast k) then Ok (set_node fs k (Dir rw))
          else Raise (EACCES p)
      end
  end.

(** [Path.mkdir(parents=False, exist_ok=True)]. *)
Definition mkdir_exist_ok (fs : fsys) (p : path) : res fsys :=
  match os_mkdir fs p with
  | Ok fs' => Ok fs'
  | Raise (FileNotFoundError q) => Raise (FileNotFoundError q)
  | Raise e => if is_dir fs p then Ok fs else Raise e
  end.

(** [Path.mkdir(parents=True, exist_ok=True)], by recursion on the reversed
    path: on [FileNotFoundError] the parent is made first. *)
Fixpoint mkdir_parents_rev (fs : fsys) (rp : list string) : res fsys :=
  match os_mkdir fs (rev rp) with
  | Ok fs' => Ok fs'
  | Raise (FileNotFoundError q) =>
      match rp with
      | [] => Raise (FileNotFoundError q)
      | _ :: rp' =>
          match mkdir_parents_rev fs rp' with
          | Ok fs1 => mkdir_exist_ok fs1 (rev rp)
          | Raise e => Raise e
          end
      end
  | Raise e => if is_dir fs (rev rp) then Ok fs else Raise e
  end.

Definition mkdir_parents (fs : fsys) (p : path) : res fsys :=
  mkdir_parents_rev fs (rev p).

(** Open a regular file for reading: its bytes and mode. *)
Definition read_file (fs : fsys) (p : path) : res (string * mode) :=
  match stat fs p with
  | Raise e => Raise e
  | Ok (Dir _) => Raise (EISDIR p)
  | Ok (File data md) =>
      if can_read md then Ok (data, md) else Raise (EACCES p)
  end.

(** [open(p, 'w')] and [open(p, 'a')]: the file is created when missing;
    [truncate] empties an existing one.  The canonical path opened is
    returned with the new file system. *)
Definition open_write (truncate : bool) (fs : fsys) (p : path)
  : res (path * fsys) :=
  match resolve fs p with
  | Raise e => Raise e
  | Ok k =>
      match node_at fs k with
      | Some (Dir _) => Raise (EISDIR p)
      | Some (File data md) =>
          if can_write md
          then Ok (k, if truncate then set_node fs k (File "" md) else fs)
          else Raise (EACCES p)
      | None =>
          if dir_writable fs (removelast k)
          then Ok (k, set_node fs k (File "" rw))
          else Raise (EACCES p)
      end
  end.

(** Replace the bytes of the regular file bound at [k], if any. *)
Definition write_data (fs : fsys) (k : path) (f : string -> string) : fsys :=
  match find_node fs k with
  | Some (File data md) => set_node fs k (File (f data) md)
  | _ => fs
  end.

Definition chmod (fs : fsys) (k : path) (md : mode) : fsys :=
  match find_node fs k with
  | Some (File data _) => set_node fs k (File data md)
  | _ => fs
  end.

Definition same_file (fs : fsys) (p q : path) : bool :=
  match resolve fs p, resolve fs q with
  | Ok k1, Ok k2 =>
      match node_at fs k1 with
      | Some _ => bool_decide (k1 = k2)
      | None => false
      end
  | _, _ => false
  end.

(** How [shutil.copy2] can still fail once source and target are open.
    It is [copyfile], then [copystat]: the transfer of the bytes can stop
    after some of them were written (no space left, a size limit, a read
    error), and the transfer of the metadata can fail when all bytes are
    there, before or after the permission bits were set.  Each failure is
    an [OSError] with its message. *)
Inductive fault : Type :=
| WriteFails (written : nat) (msg : string)
| StatFails (mode_copied : bool) (msg : string).

(** [shutil.copy2(src, dst)]: bytes, then permission bits.  [faults] tells
    what goes wrong, if anything, after the target was opened; what was
    written until then stays. *)
Definition copy2 (faults : option fault) (fs : fsys) (src dst : path)
  : res unit * fsys :=
  let dst := if is_dir fs dst then dst ++ [basename src] else dst in
  if same_file fs src dst then
    (Raise (SameFileError (quoted src ++ " and " ++ quoted dst ++ " are the same file")), fs)
  else
    match read_file fs src with
    | Raise e => (Raise e, fs)
    | Ok (data, md) =>
        match open_write true fs dst with
        | Raise e => (Raise e, fs)
        | Ok (k, fs1) =>
            match faults with
            | Some (WriteFails written msg) =>
                (Raise (OSError msg),
                 write_data fs1 k (fun _ => substring 0 written data))
            | Some (StatFails mode_copied msg) =>
                let fs2 := write_data fs1 k (fun _ => data) in
                (Raise (OSError msg), if mode_copied then chmod fs2 k md else fs2)
            | None => (Ok tt, chmod (write_data fs1 k (fun _ => data)) k md)
            end
        end
    end.

(** [Path.unlink]. *)
Definition unlink (fs : fsys) (p : path) : res fsys :=
  match resolve fs p with
  | Raise e => Raise e
  | Ok k =>
      match node_at fs k with
      | None => Raise (ENOENT p)
      | Some (Dir _) => Raise (EISDIR p)
      | Some (File _ _) =>
          if dir_writable fs (removelast k) then Ok (remove_node fs k)
          else Raise (EACCES p)
      end
  end.

(** [shutil.rmtree] below the directory bound at [k]: entries are removed in
    enumeration order, sub-directories first emptied then removed, and the
    first failure stops the traversal with what was removed so far gone.
    The fuel bounds the nesting depth; [rmtree] starts with more than the
    number of bound paths. *)
Fixpoint rmtree_at (fuel : nat) (fs : fsys) (p k : path) : res unit * fsys :=
  match fuel with
  | 0 => (Raise (OSError "rmtree: directory nesting too deep"), fs)
  | S fuel' =>
      match node_at fs k with
      | Some (Dir md) =>
          if can_read md then
            let emptied :=
              (fix go (cs : list (string * node)) (fs : fsys) : res unit * fsys :=
                 match cs with
                 | [] => (Ok tt, fs)
                 | (name, File _ _) :: cs' =>
                     if can_write md then go cs' (remove_node fs (k ++ [name]))
                     else (Raise (EACCES (p ++ [name])), fs)
                 | (name, Dir _) :: cs' =>
                     match rmtree_at fuel' fs (p ++ [name]) (k ++ [name]) with
                     | (Ok _, fs') => go cs' fs'
                     | (Raise e, fs') => (Raise e, fs')
                     end
                 end) (children fs k) fs in
            match emptied with
            | (Ok _, fs') =>
                match k with
                | [] => (Raise (OSError ("[Errno 16] Device or resource busy: " ++ quoted p)), fs')
                | _ =>
                    if dir_writable fs' (removelast k) then (Ok tt, remove_node fs' k)
                    else (Raise (EACCES p), fs')
                end
            | (Raise e, fs') => (Raise e, fs')
            end
          else (Raise (EACCES p), fs)
      | Some (File _ _) => (Raise (ENOTDIR p), fs)
      | None => (Raise (ENOENT p), fs)
      end
  end.

Definition rmtree (fs : fsys) (p : path) : res unit * fsys :=
  match resolve fs p with
  | Raise e => (Raise e, fs)
  | Ok k => rmtree_at (S (length fs)) fs p k
  end.

(* ===================================================================== *)
(** ** models.py                                                          *)
(* ===================================================================== *)

(** [SourceFile]; the modification time is left out with the time stamps. *)
Record SourceFile : Type := mkSourceFile {
  sf_path : path;
  sf_name : string;
  sf_size : nat;
  sf_group : string
}.

Record FileGroup : Type := mkFileGroup {
  fg_name : string;
  fg_files : list SourceFile
}.

Definition from_path (fs : fsys) (file_path : path) (group : string)
  : res SourceFile :=
  match stat fs file_path with
  | Raise e => Raise e
  | Ok n => Ok (mkSourceFile file_path (basename file_path) (st_size n) group)
  end.

Definition add_file (g : FileGroup) (file : SourceFile) : FileGroup :=
  mkFileGroup (fg_name g) (fg_files g ++ [file]).

Definition file_count (g : FileGroup) : nat := length (fg_files g).

(** A Python [dict] from group names to groups keeps insertion order: an
    association list, updated in place. *)
Definition dict : Type := list (string * FileGroup).

Fixpoint dict_get (d : dict) (key : string) : option FileGroup :=
  match d with
  | [] => None
  | (k, v) :: d' => if decide (k = key) then Some v else dict_get d' key
  end.

Definition dict_mem (d : dict) (key : string) : bool :=
  match dict_get d key with Some _ => true | None => false end.

(** [d[key] = v]. *)
Fixpoint dict_set (d : dict) (key : string) (v : FileGroup) : dict :=
  match d with
  | [] => [(key, v)]
  | (k, v0) :: d' =>
      if decide (k = key) then (k, v) :: d' else (k, v0) :: dict_set d' key v
  end.

Definition dict_values (d : dict) : list FileGroup := map snd d.

Definition str_nat (n : nat) : string := NilEmpty.string_of_uint (Nat.to_uint n).

(* ===================================================================== *)
(** ** Concrete library instances, used to run the program on examples    *)
(* ===================================================================== *)

(** A reader for the common part of Python's pattern syntax: literals,
    [.], [^], [$], escapes ([\d \w \s \D \W \S] and escaped punctuation),
    classes [[...]], groups [(...)] and [(?:...)], alternation, and the
    quantifiers [* + ? {n} {n,} {,m} {n,m}] with their lazy forms.  A
    repetition number from [MAXREPEAT] up is an [OverflowError]; anything
    else is refused as [re.error]. *)
Module ReSyntax.
Import Re.

Definition cat (a b : regex) : regex :=
  match a with Eps => b | _ => Cat a b end.

Fixpoint rep (n : nat) (r : regex) : regex :=
  match n with 0 => Eps | S n' => cat r (rep n' r) end.

(** Up to [n] more copies of [r]: [(r(r...)?)?], lazy or greedy. *)
Fixpoint upto (greedy : bool) (n : nat) (r : regex) : regex :=
  match n with
  | 0 => Eps
  | S n' =>
      let more := cat r (upto greedy n' r) in
      if greedy then Alt more Eps else Alt Eps more
  end.

Definition bad {A} (msg : string) : res A := Raise (ReError msg).

(** The digits at the head of [s], as a number; [None] without a digit. *)
Fixpoint number (acc : option N) (s : list ascii) : option N * list ascii :=
  match s with
  | c :: s' =>
      if is_digit c
      then number (Some (10 * default 0%N acc + N.of_nat (code c - 48))%N) s'
      else (acc, s)
  | [] => (acc, s)
  end.

Definition MAXREPEAT : N := 4294967295.

Definition too_large (n : option N) : bool :=
  match n with Some n => (MAXREPEAT <=? n)%N | None => false end.

(** A quantifier at the head of [s], applied to [r]; [Ok None] when [s]
    does not start with one (a brace that opens no repetition stands for
    itself). *)
Definition quantifier (r : regex) (s : list ascii)
  : res (option (regex * list ascii)) :=
  let lazy (s : list ascii) : bool * list ascii :=
    match s with "?"%char :: s' => (false, s') | _ => (true, s) end in
  match s with
  | "*"%char :: s1 => let '(g, s2) := lazy s1 in Ok (Some (Star g r, s2))
  | "+"%char :: s1 => let '(g, s2) := lazy s1 in Ok (Some (Cat r (Star g r), s2))
  | "?"%char :: s1 => let '(g, s2) := lazy s1 in Ok (Some (upto g 1 r, s2))
  | "{"%char :: "}"%char :: _ => Ok None
  | "{"%char :: s1 =>
      let '(lo, s2) := number None s1 in
      let '(range, hi, s3) :=
        match s2 with
        | ","%char :: s2' => let '(hi, s3) := number None s2' in (true, hi, s3)
        | _ => (false, lo, s2)
        end in
      match s3 with
      | "}"%char :: s4 =>
          if too_large lo || too_large hi then
            Raise (OverflowError "the repetition number is too large")
          else
            let least := default 0%N lo in
            let '(g, s5) := lazy s4 in
            match hi with
            | Some most =>
                if (most <? least)%N
                then bad "min repeat greater than max repeat"
                else if range
                then Ok (Some (cat (rep (N.to_nat least) r)
                                   (upto g (N.to_nat (most - least)) r), s5))
                else Ok (Some (rep (N.to_nat least) r, s5))
            | None => Ok (Some (cat (rep (N.to_nat least) r) (Star g r), s5))
            end
      | _ => Ok None
      end
  | _ => Ok None
  end.

(** The character set of an escape [\c]. *)
Definition escape (c : ascii) : res cset :=
  if Ascii.eqb c "d" then Ok CDigit
  else if Ascii.eqb c "D" then Ok (CNot CDigit)
  else if Ascii.eqb c "w" then Ok CWord
  else if Ascii.eqb c "W" then Ok (CNot CWord)
  else if Ascii.eqb c "s" then Ok CSpace
  else if Ascii.eqb c "S" then Ok (CNot CSpace)
  else if Ascii.eqb c "n" then Ok (CLit newline)
  else if Ascii.eqb c "t" then Ok (CLit "009")
  else if Ascii.eqb c "r" then Ok (CLit "013")
  else if Ascii.eqb c "f" then Ok (CLit "012")
  else if Ascii.eqb c "v" then Ok (CLit "011")
  else if is_word c then bad "unsupported escape"
  else Ok (CLit c).

(** The items of a class, up to the closing bracket. *)
Fixpoint class_items (n : nat) (first : bool) (acc : cset) (s : list ascii)
  : res (cset * list ascii) :=
  match n with
  | 0 => bad "unterminated character set"
  | S n' =>
      match s with
      | [] => bad "unterminated character set"
      | c :: s1 =>
          if Ascii.eqb c "]" && negb first then Ok (acc, s1)
          else
            let item : res (cset * list ascii) :=
              if Ascii.eqb c "\" then
                match s1 with
                | e :: s2 =>
                    match escape e with
                    | Ok cs => Ok (cs, s2)
                    | Raise x => Raise x
                    end
                | [] => bad "bad escape (end of pattern)"
                end
              else
                match s1 with
                | "-"%char :: hi :: s3 =>
                    if Ascii.eqb hi "]" then Ok (CLit c, s1)
                    else if Ascii.eqb hi "\" then bad "unsupported range"
                    else if code c <=? code hi then Ok (CRange c hi, s3)
                    else bad "bad character range"
                | _ => Ok (CLit c, s1)
                end in
            match item with
            | Ok (cs, rest) => class_items n' false (CUnion acc cs) rest
            | Raise x => Raise x
            end
      end
  end.

Definition nothing : cset := CNot (CUnion CAny (CLit newline)).

Definition class (s : list ascii) : res (cset * list ascii) :=
  match s with
  | "^"%char :: s1 =>
      match class_items (S (length s1)) true nothing s1 with
      | Ok (cs, rest) => Ok (CNot cs, rest)
      | Raise x => Raise x
      end
  | _ => class_items (S (length s)) true nothing s
  end.

(** An alternation, up to the end or to an unmatched closing parenthesis. *)
Fixpoint alternation (fuel : nat) (s : list ascii) : res (regex * list ascii) :=
  match fuel with
  | 0 => bad "pattern too deep"
  | S fuel' =>
      let atom (s : list ascii) : res (regex * bool * list ascii) :=
        match s with
        | [] => bad "unexpected end of pattern"
        | c :: s1 =>
            if Ascii.eqb c "(" then
              let inner :=
                match s1 with
                | "?"%char :: ":"%char :: s2 => Ok s2
                | "?"%char :: _ => bad "unsupported group extension"
                | _ => Ok s1
                end in
              match inner with
              | Raise x => Raise x
              | Ok s2 =>
                  match alternation fuel' s2 with
                  | Ok (r, ")"%char :: s3) => Ok (r, true, s3)
                  | Ok _ => bad "missing ), unterminated subpattern"
                  | Raise x => Raise x
                  end
              end
            else if Ascii.eqb c "[" then
              match class s1 with
              | Ok (cs, s2) => Ok (Chr cs, true, s2)
              | Raise x => Raise x
              end
            else if Ascii.eqb c "\" then
              match s1 with
              | e :: s2 =>
                  match escape e with
                  | Ok cs => Ok (Chr cs, true, s2)
                  | Raise x => Raise x
                  end
              | [] => bad "bad escape (end of pattern)"
              end
            else if Ascii.eqb c "." then Ok (Chr CAny, true, s1)
            else if Ascii.eqb c "^" then Ok (Bol, false, s1)
            else if Ascii.eqb c "$" then Ok (Eol, false, s1)
            else
              match quantifier Eps s with
              | Raise x => Raise x
              | Ok (Some _) => bad "nothing to repeat"
              | Ok None => Ok (Chr (CLit c), true, s1)
              end
        end in
      let branch :=
        (fix branch (n : nat) (acc : regex) (s : list ascii)
           : res (regex * list ascii) :=
           match n with
           | 0 => bad "pattern too long"
           | S n' =>
               match s with
               | [] => Ok (acc, s)
               | c :: _ =>
                   if Ascii.eqb c "|" || Ascii.eqb c ")" then Ok (acc, s)
                   else
                     match atom s with
                     | Raise x => Raise x
                     | Ok (r, repeatable, s1) =>
                         match quantifier r s1 with
                         | Raise x => Raise x
                         | Ok (Some (r', s2)) =>
                             if negb repeatable then bad "nothing to repeat"
                             else
                               match quantifier Eps s2 with
                               | Raise x => Raise x
                               | Ok (Some _) => bad "multiple repeat"
                               | Ok None => branch n' (cat acc r') s2
                               end
                         | Ok None => branch n' (cat acc r) s1
                         end
                     end
               end
           end) in
      match branch (S (length s)) Eps s with
      | Ok (r1, "|"%char :: s1) =>
          match alternation fuel' s1 with
          | Ok (r2, s2) => Ok (Alt r1 r2, s2)
          | Raise x => Raise x
          end
      | other => other
      end
  end.

Definition compile (pattern : string) : res regex :=
  let s := list_ascii_of_string pattern in
  match alternation (S (length s)) s with
  | Ok (r, []) => Ok r
  | Ok (_, _ :: _) => bad "unbalanced parenthesis"
  | Raise x => Raise x
  end.

End ReSyntax.

(** A byte format for archives: every member as its name and its bytes,
    each preceded by its length. *)
Definition zip_store (members : list (string * string)) : string :=
  "PK" ++ String.concat ""
            (map (fun m : string * string =>
                    (str_nat (String.length (fst m)) ++ ":" ++ fst m
                       ++ str_nat (String.length (snd m)) ++ ":" ++ snd m)%string)
                 members).

(** Runs in which the environment lets every copy through and [zipfile]
    takes every file. *)
Definition no_fault : fsys -> path -> path -> option fault := fun _ _ _ => None.
Definition takes_all : path -> option exn := fun _ => None.

Section Program.

(** Two library functions are taken as given: [re.compile], from pattern
    text to a compiled pattern or the exception it raises, and the byte
    format of [zipfile], from the members (name, bytes) of an archive to
    its bytes. *)
Variable re_compile : string -> res Re.regex.
Variable zip_encode : list (string * string) -> string.

(** So is what the model does not hold of the environment and of a file:
    [copy_fault fs src dst] is the failure, if any, of a copy once its
    target is open, and [zip_refuses item] is the exception, if any, that
    [ZipFile.write] raises for a file it can read ([ValueError] for a time
    stamp before 1980). *)
Variable copy_fault : fsys -> path -> path -> option fault.
Variable zip_refuses : path -> option exn.

(* ===================================================================== *)
(** ** pattern_matcher.py                                                 *)
(* ===================================================================== *)

(** [not pattern or not pattern.strip()]. *)
Definition blank (pattern : string) : bool :=
  forallb Re.is_space (list_ascii_of_string pattern).

(** Only [re.error] is caught and turned into [ValueError]. *)
Definition validate_pattern (pattern : string) : res bool :=
  if blank pattern then Raise (ValueError "Pattern cannot be empty")
  else
    match re_compile pattern with
    | Ok _ => Ok true
    | Raise (ReError msg) => Raise (ValueError ("Invalid regex pattern: " ++ msg))
    | Raise e => Raise e
    end.

(** [re.search(pattern, filename)] then [match.group(0)]: the characters of
    the file name between the start and the end of the match. *)
Definition extract_group (filename pattern : string) : res (option string) :=
  match re_compile pattern with
  | Raise e => Raise e
  | Ok r =>
      match Re.search (list_ascii_of_string filename) r with
      | Some (i, j) => Ok (Some (substring i (j - i) filename))
      | None => Ok None
      end
  end.

(** The body of the loop of [scan_and_group], over the names that
    [iterdir] produced. *)
Fixpoint scan_items (fs : fsys) (source_dir : path) (pattern : string)
  (items : list string) (groups_dict : dict) : res dict :=
  match items with
  | [] => Ok groups_dict
  | name :: rest =>
      let item := source_dir ++ [name] in
      if negb (is_file fs item) then
        scan_items fs source_dir pattern rest groups_dict
      else
        match extract_group name pattern with
        | Raise e => Raise e
        | Ok None => scan_items fs source_dir pattern rest groups_dict
        | Ok (Some group_name) =>
            let d1 :=
              if dict_mem groups_dict group_name then groups_dict
              else dict_set groups_dict group_name (mkFileGroup group_name []) in
            match from_path fs item group_name with
            | Raise e => Raise e
            | Ok source_file =>
                let d2 :=
                  match dict_get d1 group_name with
                  | Some g => dict_set d1 group_name (add_file g source_file)
                  | None => d1
                  end in
                scan_items fs source_dir pattern rest d2
            end
        end
  end.

Definition scan_and_group (fs : fsys) (source_dir : path) (pattern : string)
  : res (list FileGroup) :=
  match iterdir fs source_dir with
  | Raise e => Raise e
  | Ok items =>
      match scan_items fs source_dir pattern items [] with
      | Raise e => Raise e
      | Ok d => Ok (dict_values d)
      end
  end.

(* ===================================================================== *)
(** ** file_organizer.py                                                  *)
(* ===================================================================== *)

Definition create_folder (fs : fsys) (folder_path : path) : res fsys :=
  mkdir_parents fs folder_path.

(** [True] when the copy succeeds; an [OSError] is swallowed and reported
    as [False], with the target as the failed copy left it. *)
Definition copy_file_with_metadata (fs : fsys) (source target : path)
  : res bool * fsys :=
  match copy2 (copy_fault fs source target) fs source target with
  | (Ok _, fs') => (Ok true, fs')
  | (Raise e, fs') => if is_OSError e then (Ok false, fs') else (Raise e, fs')
  end.

Definition verify_copy (fs : fsys) (source target : path) : res bool :=
  if negb (exists_ fs target) then Ok false
  else
    match stat fs source with
    | Raise e => Raise e
    | Ok ns =>
        match stat fs target with
        | Raise e => Raise e
        | Ok nt => Ok (st_size ns =? st_size nt)
        end
    end.

Definition handle_merge (fs : fsys) (target : path) : bool * string :=
  if exists_ fs target then (false, "skip") else (true, "copy").

Definition delete_original (fs : fsys) (file_path : path) : res bool * fsys :=
  match unlink fs file_path with
  | Ok fs' => (Ok true, fs')
  | Raise (PermissionError _) => (Ok false, fs)
  | Raise (FileNotFoundError _) => (Ok false, fs)
  | Raise e => (Raise e, fs)
  end.

(* ===================================================================== *)
(** ** zip_creator.py                                                     *)
(* ===================================================================== *)

(** The open [ZipFile] is the list of members written so far. *)
Definition zipfile : Type := list (string * string).

(** [zip_file.write(item, arcname)]: the file is examined, which is where
    [zipfile] refuses it, then read and added. *)
Definition zip_write (fs : fsys) (zip_file : zipfile) (item : path)
  (arcname : string) : res unit * zipfile :=
  match zip_refuses item with
  | Some e => (Raise e, zip_file)
  | None =>
      match read_file fs item with
      | Ok (data, _) => (Ok tt, zip_file ++ [(arcname, data)])
      | Raise e => (Raise e, zip_file)
      end
  end.

(** The loop of [add_folder_to_zip]: [zip_file.write(item, arcname=item.name)]
    for every regular file. *)
Fixpoint add_items (fs : fsys) (folder_path : path) (items : list string)
  (zip_file : zipfile) : res unit * zipfile :=
  match items with
  | [] => (Ok tt, zip_file)
  | name :: rest =>
      let item := folder_path ++ [name] in
      if is_file fs item then
        match zip_write fs zip_file item (basename item) with
        | (Ok _, zip_file') => add_items fs folder_path rest zip_file'
        | (Raise e, zip_file') => (Raise e, zip_file')
        end
      else add_items fs folder_path rest zip_file
  end.

Definition add_folder_to_zip (fs : fsys) (zip_file : zipfile)
  (folder_path : path) : res unit * zipfile :=
  match iterdir fs folder_path with
  | Raise e => (Raise e, zip_file)
  | Ok items => add_items fs folder_path items zip_file
  end.

(** [create_zip]: the archive file is opened (created or emptied) first;
    leaving the [with] block writes the members collected, also when the
    block is left by an exception. *)
Definition create_zip (fs : fsys) (folder_path zip_path : path)
  : res unit * fsys :=
  if negb (exists_ fs folder_path) then
    (Raise (FileNotFoundError ("Folder not found: " ++ path_str folder_path)), fs)
  else
    match open_write true fs zip_path with
    | Raise e => (Raise e, fs)
    | Ok (k, fs1) =>
        let '(r, zf) := add_folder_to_zip fs1 [] folder_path in
        (r, write_data fs1 k (fun _ => zip_encode zf))
    end.

(* ===================================================================== *)
(** ** logger.py                                                          *)
(* ===================================================================== *)

Inductive level : Type := DEBUG | INFO | WARNING | ERROR.

Definition levelno (l : level) : nat :=
  match l with DEBUG => 10 | INFO => 20 | WARNING => 30 | ERROR => 40 end.

Definition levelname (l : level) : string :=
  match l with
  | DEBUG => "DEBUG" | INFO => "INFO" | WARNING => "WARNING" | ERROR => "ERROR"
  end.

(** What the process shows and owns: the file system and the two output
    streams, as lists of lines. *)
Record world : Type := mkWorld {
  w_fs : fsys;
  w_stdout : list string;
  w_stderr : list string
}.

Definition with_fs (w : world) (fs : fsys) : world :=
  mkWorld fs (w_stdout w) (w_stderr w).

Definition print_stdout (w : world) (line : string) : world :=
  mkWorld (w_fs w) (w_stdout w ++ [line]) (w_stderr w).

Definition print_stderr (w : world) (line : string) : world :=
  mkWorld (w_fs w) (w_stdout w) (w_stderr w ++ [line]).

(** The configured logger: the level of the console handler and, when the
    file handler could be created, the canonical path of the open log file. *)
Record logger : Type := mkLogger {
  console_level : level;
  file_handler : option path
}.

(** A record formatted without its time stamp. *)
Definition format_record (l : level) (msg : string) : string :=
  "photozipper - " ++ levelname l ++ " - " ++ msg.

(** One logging call: the console handler writes to the error stream from
    its level up, the file handler appends every record to the log file. *)
Definition log (lg : logger) (l : level) (msg : string) (w : world) : world :=
  let w1 :=
    if levelno (console_level lg) <=? levelno l
    then print_stderr w (format_record l msg) else w in
  match file_handler lg with
  | Some k =>
      with_fs w1 (write_data (w_fs w1) k
                    (fun data => (data ++ format_record l msg ++ String Re.newline "")%string))
  | None => w1
  end.

(** After entries were removed: a log file that was unlinked is no longer
    reachable through the handler. *)
Definition refresh (lg : logger) (fs : fsys) : logger :=
  match file_handler lg with
  | Some k =>
      match find_node fs k with
      | Some (File _ _) => lg
      | _ => mkLogger (console_level lg) None
      end
  | None => lg
  end.

Definition setup_logging (output_dir : path) (log_level : level) (w : world)
  : logger * world :=
  let console := mkLogger log_level None in
  let failed (e : exn) (w : world) :=
    (console, log console WARNING ("Could not create log file: " ++ exn_str e) w) in
  match mkdir_parents (w_fs w) output_dir with
  | Raise e => failed e w
  | Ok fs1 =>
      let log_file := join output_dir "photozipper.log" in
      match open_write false fs1 log_file with
      | Raise e => failed e (with_fs w fs1)
      | Ok (k, fs2) => (mkLogger log_level (Some k), with_fs w fs2)
      end
  end.

(* ===================================================================== *)
(** ** cli.py                                                             *)
(* ===================================================================== *)

(** The parsed command line ([argparse.Namespace]). *)
Record args : Type := mkArgs {
  source : path;
  pattern : string;
  output : path;
  dry_run : bool;
  delete_originals : bool;
  zip_only : bool;
  log_level : level
}.

Definition validate_arguments (a : args) : option string :=
  if dry_run a && delete_originals a then
    Some "Error: --dry-run and --delete-originals cannot be used together"
  else if dry_run a && zip_only a then
    Some "Error: --dry-run and --zip-only cannot be used together"
  else None.

(** The variables of [main] that change while the groups are processed. *)
Record state : Type := mkState {
  st_world : world;
  st_logger : logger;
  files_copied : nat;
  files_skipped : nat;
  files_deleted : nat
}.

(** How a piece of the body of [main] ends: it falls through, it executes
    [return code], or an exception leaves it. *)
Inductive ctl : Type :=
| Next
| Return (code : nat)
| Raised (e : exn).

Definition st_fs (st : state) : fsys := w_fs (st_world st).

Definition set_fs (st : state) (fs : fsys) : state :=
  mkState (with_fs (st_world st) fs) (st_logger st)
          (files_copied st) (files_skipped st) (files_deleted st).

(** The file system after an operation that removes entries. *)
Definition set_fs_removed (st : state) (fs : fsys) : state :=
  mkState (with_fs (st_world st) fs) (refresh (st_logger st) fs)
          (files_copied st) (files_skipped st) (files_deleted st).

Definition logs (l : level) (msg : string) (st : state) : state :=
  mkState (log (st_logger st) l msg (st_world st)) (st_logger st)
          (files_copied st) (files_skipped st) (files_deleted st).

Definition count_copied (st : state) : state :=
  mkState (st_world st) (st_logger st)
          (files_copied st + 1) (files_skipped st) (files_deleted st).

Definition count_skipped (st : state) : state :=
  mkState (st_world st) (st_logger st)
          (files_copied st) (files_skipped st + 1) (files_deleted st).

Definition count_deleted (st : state) : state :=
  mkState (st_world st) (st_logger st)
          (files_copied st) (files_skipped st) (files_deleted st + 1).

(** The body of [for source_file in group.files]. *)
Definition process_file (a : args) (group_folder : path)
  (source_file : SourceFile) (st : state) : ctl * state :=
  let name := sf_name source_file in
  let target_path := join group_folder name in
  let '(should_copy, action) := handle_merge (st_fs st) target_path in
  if negb should_copy then
    (Next, count_skipped (logs INFO ("Skipping duplicate: " ++ name) st))
  else if dry_run a then
    (Next, logs INFO ("[DRY RUN] Would copy: " ++ name ++ " -> "
                        ++ path_str target_path) st)
  else
    let copy_error (e : exn) (st : state) :=
      (Return 1, logs ERROR ("Error copying " ++ name ++ ": " ++ exn_str e) st) in
    match copy_file_with_metadata (st_fs st) (sf_path source_file) target_path with
    | (Raise e, fs1) => copy_error e (set_fs st fs1)
    | (Ok _, fs1) =>
        let st1 := set_fs st fs1 in
        match verify_copy fs1 (sf_path source_file) target_path with
        | Raise e => copy_error e st1
        | Ok false =>
            (Return 1, logs ERROR ("Copy verification failed: " ++ name) st1)
        | Ok true =>
            let st2 := count_copied (logs DEBUG ("Copied: " ++ name) st1) in
            if delete_originals a then
              match delete_original (st_fs st2) (sf_path source_file) with
              | (Raise e, fs3) => copy_error e (set_fs st2 fs3)
              | (Ok _, fs3) =>
                  (Next, count_deleted
                           (logs DEBUG ("Deleted original: " ++ name)
                                 (set_fs_removed st2 fs3)))
              end
            else (Next, st2)
        end
    end.

Fixpoint process_files (a : args) (group_folder : path)
  (files : list SourceFile) (st : state) : ctl * state :=
  match files with
  | [] => (Next, st)
  | source_file :: rest =>
      match process_file a group_folder source_file st with
      | (Next, st') => process_files a group_folder rest st'
      | stop => stop
      end
  end.

(** The body of [for group in groups]. *)
Definition process_group (a : args) (output_dir : path) (group : FileGroup)
  (st : state) : ctl * state :=
  let group_name := fg_name group in
  let st0 :=
    logs INFO ("Processing group '" ++ group_name ++ "' ("
                 ++ str_nat (file_count group) ++ " file(s))") st in
  let group_folder := join output_dir group_name in
  let created :=
    if negb (dry_run a) then
      match create_folder (st_fs st0) group_folder with
      | Raise e => (Raised e, st0)
      | Ok fs1 =>
          (Next, logs DEBUG ("Created folder: " ++ path_str group_folder)
                      (set_fs st0 fs1))
      end
    else
      (Next, logs INFO ("[DRY RUN] Would create folder: "
                          ++ path_str group_folder) st0) in
  match created with
  | (Next, st1) =>
      match process_files a group_folder (fg_files group) st1 with
      | (Next, st2) =>
          let zip_path := join output_dir (group_name ++ ".zip") in
          if negb (dry_run a) then
            let zip_error (e : exn) (st : state) :=
              (Return 1, logs ERROR ("Error creating ZIP for " ++ group_name
                                       ++ ": " ++ exn_str e) st) in
            match create_zip (st_fs st2) group_folder zip_path with
            | (Raise e, fs3) => zip_error e (set_fs st2 fs3)
            | (Ok _, fs3) =>
                let st3 :=
                  logs INFO ("Created ZIP: " ++ basename zip_path)
                       (set_fs st2 fs3) in
                if zip_only a then
                  match rmtree (st_fs st3) group_folder with
                  | (Raise e, fs4) => zip_error e (set_fs_removed st3 fs4)
                  | (Ok _, fs4) =>
                      (Next, logs INFO ("Removed folder: " ++ basename group_folder)
                                  (set_fs_removed st3 fs4))
                  end
                else (Next, st3)
            end
          else
            let st3 :=
              logs INFO ("[DRY RUN] Would create ZIP: " ++ basename zip_path) st2 in
            (Next, if zip_only a
                   then logs INFO ("[DRY RUN] Would remove folder: " ++ group_name) st3
                   else st3)
      | stop => stop
      end
  | stop => stop
  end.

Fixpoint process_groups (a : args) (output_dir : path)
  (groups : list FileGroup) (st : state) : ctl * state :=
  match groups with
  | [] => (Next, st)
  | group :: rest =>
      match process_group a output_dir group st with
      | (Next, st') => process_groups a output_dir rest st'
      | stop => stop
      end
  end.

Definition total_files (groups : list FileGroup) : nat :=
  list_sum (map file_count groups).

Definition summary (a : args) (groups : list FileGroup) (st : state) : string :=
  if dry_run a then
    "[DRY RUN] Would process " ++ str_nat (total_files groups) ++ " files in "
      ++ str_nat (length groups) ++ " groups"
  else
    "Successfully organized " ++ str_nat (files_copied st) ++ " files into "
      ++ str_nat (length groups) ++ " groups"
      ++ (if 0 <? files_skipped st
          then " (" ++ str_nat (files_skipped st) ++ " skipped)" else "")
      ++ (if 0 <? files_deleted st
          then " (" ++ str_nat (files_deleted st) ++ " deleted)" else "").

Definition print_state (line : string) (st : state) : state :=
  mkState (print_stdout (st_world st) line) (st_logger st)
          (files_copied st) (files_skipped st) (files_deleted st).

(** The [try] block of [main], up to the scan. *)
Definition started (a : args) (lg : logger) (w : world) : state :=
  let st := mkState w lg 0 0 0 in
  let st :=
    logs INFO (if dry_run a
               then "[DRY RUN] Starting organization (no changes will be made)"
               else "Starting organization") st in
  let st := logs INFO ("Source: " ++ path_str (source a)) st in
  let st := logs INFO ("Pattern: " ++ pattern a) st in
  let st := logs INFO ("Output: " ++ path_str (output a)) st in
  logs INFO "Scanning source directory..." st.

(** The [try] block of [main]. *)
Definition organize (a : args) (lg : logger) (w : world) : ctl * state :=
  let st := started a lg w in
  match scan_and_group (st_fs st) (source a) (pattern a) with
  | Raise e => (Raised e, st)
  | Ok [] =>
      (Return 0,
       print_state "No files matched the pattern"
                   (logs WARNING "No files matched the pattern" st))
  | Ok groups =>
      let st := logs INFO ("Found " ++ str_nat (length groups) ++ " group(s)") st in
      match process_groups a (output a) groups st with
      | (Next, st) =>
          let text := summary a groups st in
          let group_names := concat_sep ", " (map fg_name groups) in
          (Return 0,
           logs INFO text
                (print_state (text ++ String Re.newline "" ++ "Groups: "
                                ++ group_names) st))
      | stop => stop
      end
  end.

(** What the interpreter writes for an exception that nothing catches,
    without the lines that name the frames; the process then exits with 1. *)
Definition traceback (e : exn) : string :=
  "Traceback (most recent call last):" ++ String Re.newline ""
    ++ exn_name e ++ ": " ++ exn_str e.

Definition usage : string :=
  "usage: photozipper [-h] --source SOURCE --pattern PATTERN --output OUTPUT".

(** [main]: the exit code of the process and the world it leaves.  [None]
    stands for a command line without arguments; otherwise the arguments
    are those that [argparse] accepted.  The pattern is validated outside
    the [try] block and only [ValueError] is caught there. *)
Definition main (argv : option args) (w : world) : nat * world :=
  match argv with
  | None => (2, print_stdout w usage)
  | Some a =>
      match validate_arguments a with
      | Some error_msg => (1, print_stderr w error_msg)
      | None =>
          if negb (exists_ (w_fs w) (source a)) then
            (1, print_stderr w ("Error: Source directory does not exist: "
                                  ++ path_str (source a)))
          else if negb (is_dir (w_fs w) (source a)) then
            (1, print_stderr w ("Error: Source path is not a directory: "
                                  ++ path_str (source a)))
          else
            match validate_pattern (pattern a) with
            | Raise (ValueError msg) => (1, print_stderr w ("Error: " ++ msg))
            | Raise e => (1, print_stderr w (traceback e))
            | Ok _ =>
                let '(lg, w1) := setup_logging (output a) (log_level a) w in
                match organize a lg w1 with
                | (Return code, st) => (code, st_world st)
                | (Next, st) => (0, st_world st)
                | (Raised e, st) =>
                    (1, print_stderr
                          (st_world (logs ERROR ("Unexpected error: " ++ exn_str e) st))
                          ("Error: " ++ exn_str e))
                end
            end
      end
  end.

(* ===================================================================== *)
(** ** Vocabulary of the statements                                       *)
(* ===================================================================== *)

(** The file system after [text] was appended through the file handler. *)
Definition append_log (lg : logger) (text : string) (fs : fsys) : fsys :=
  match file_handler lg with
  | Some k => write_data fs k (fun data => (data ++ text)%string)
  | None => fs
  end.

(** The text of one record in the log file. *)
Definition record_line (l : level) (msg : string) : string :=
  format_record l msg ++ String Re.newline "".

(** The path at which a source file of a group is stored. *)
Definition target_of (group_folder : path) (source_file : SourceFile) : path :=
  join group_folder (sf_name source_file).

(** The state after a file was skipped as a duplicate. *)
Definition skipped (source_file : SourceFile) (st : state) : state :=
  count_skipped (logs INFO ("Skipping duplicate: " ++ sf_name source_file) st).

(** [st'] comes from [st] by logging only: same logger, and the file
    system differs by text appended to the log file. *)
Definition logged (st st' : state) : Prop :=
  st_logger st' = st_logger st /\
  exists text, st_fs st' = append_log (st_logger st) text (st_fs st).

(** The three ways in which [main] refuses its arguments before it starts. *)
Definition invalid_input (a : args) (fs : fsys) : Prop :=
  validate_arguments a <> None \/
  exists_ fs (source a) = false \/
  is_dir fs (source a) = false \/
  (exists e, validate_pattern (pattern a) = Raise e).

(** [fs'] has everything [fs] has, and at most new writable directories. *)
Definition adds_dirs (fs fs' : fsys) : Prop :=
  (forall k n, find_node fs k = Some n -> find_node fs' k = Some n) /\
  (forall k n, find_node fs k = None -> find_node fs' k = Some n -> n = Dir rw).

(** *** What the specification says [scan_and_group] returns *)

(** The source files of a scan: the regular files among the entries whose
    name matches, each with the identifier matched, in scan order. *)
Fixpoint matched (fs : fsys) (source_dir : path) (pattern : string)
  (items : list string) : list SourceFile :=
  match items with
  | [] => []
  | name :: rest =>
      let tail := matched fs source_dir pattern rest in
      if is_file fs (source_dir ++ [name]) then
        match extract_group name pattern with
        | Ok (Some group_name) =>
            match from_path fs (source_dir ++ [name]) group_name with
            | Ok source_file => source_file :: tail
            | Raise _ => tail
            end
        | _ => tail
        end
      else tail
  end.

(** The identifiers of a sequence, each at its first appearance. *)
Fixpoint first_seen (ids : list string) : list string :=
  match ids with
  | [] => []
  | x :: ids' => x :: filter (fun y => y <> x) (first_seen ids')
  end.

(** One group per identifier in order of first appearance, holding the
    files with that identifier in scan order. *)
Definition grouped (files : list SourceFile) : list FileGroup :=
  map (fun g => mkFileGroup g (filter (fun sf => sf_group sf = g) files))
      (first_seen (map sf_group files)).

(** An ordinary name: not empty and not one of the two dot entries. *)
Definition plain (c : string) : Prop := c <> "" /\ c <> "." /\ c <> "..".

(** [fs'] comes from [fs] by creating nodes at unbound paths of [F] and by
    rewriting the bytes of regular files at paths of [U]; nothing is
    removed, no directory is replaced and no mode is changed. *)
Inductive evolve (F U : path -> Prop) : fsys -> fsys -> Prop :=
| evolve_refl fs : evolve F U fs fs
| evolve_create fs fs' k n :
    evolve F U fs fs' -> F k -> k <> [] -> find_node fs' k = None ->
    evolve F U fs (set_node fs' k n)
| evolve_update fs fs' k d d' md :
    evolve F U fs fs' -> U k -> k <> [] -> find_node fs' k = Some (File d md) ->
    evolve F U fs (set_node fs' k (File d' md)).

(** The regular files directly inside a folder, as (base name, bytes), in
    enumeration order: what the specification wants in the archive. *)
Definition direct_files (fs : fsys) (folder_path : path) : list (string * string) :=
  match iterdir fs folder_path with
  | Ok names =>
      flat_map (fun name =>
                  match stat fs (folder_path ++ [name]) with
                  | Ok (File data _) => [(name, data)]
                  | _ => []
                  end) names
  | Raise _ => []
  end.

(** Every regular file directly inside the folder can be read. *)
Definition all_readable (fs : fsys) (folder_path : path) : Prop :=
  forall names name data md,
    iterdir fs folder_path = Ok names -> In name names ->
    stat fs (folder_path ++ [name]) = Ok (File data md) -> can_read md = true.

(** [zipfile] refuses none of the entries of the folder. *)
Definition none_refused (folder_path : path) (names : list string) : Prop :=
  forall name, In name names -> zip_refuses (folder_path ++ [name]) = None.

(** *** Vocabulary for two runs in a row

    [ko] is the canonical path of the output directory. *)

Definition log_key (ko : path) : path := ko ++ ["photozipper.log"].
Definition folder_key (ko : path) (g : string) : path := ko ++ [g].
Definition zip_key (ko : path) (g : string) : path := ko ++ [(g ++ ".zip")%string].
Definition target_key (ko : path) (g name : string) : path := ko ++ [g; name].

(** The output directory is there and the log file in it is a writable
    regular file. *)
Definition base (output_dir ko : path) (fs : fsys) : Prop :=
  resolve fs output_dir = Ok ko /\
  (exists md, node_at fs ko = Some (Dir md)) /\
  (exists d md, find_node fs (log_key ko) = Some (File d md) /\ can_write md = true).

(** The paths that processing the groups [gs] may create, and those whose
    bytes it may rewrite. *)
Definition creates (ko : path) (gs : list string) (k : path) : Prop :=
  exists g, In g gs /\
            (k = folder_key ko g \/ removelast k = folder_key ko g \/ k = zip_key ko g).

Definition updates (ko : path) (gs : list string) (k : path) : Prop :=
  k = log_key ko \/ exists g, In g gs /\ k = zip_key ko g.

(** What processing a group leaves behind: its folder, a file at the target
    of each of its source files, and a writable archive that holds the
    members that archiving the folder yields now. *)
Definition done_group (output_dir ko : path) (fs : fsys) (g : FileGroup) : Prop :=
  (exists md, node_at fs (folder_key ko (fg_name g)) = Some (Dir md)) /\
  (forall sf, In sf (fg_files g) ->
     exists n, node_at fs (target_key ko (fg_name g) (sf_name sf)) = Some n) /\
  (exists zf md,
     find_node fs (zip_key ko (fg_name g)) = Some (File (zip_encode zf) md) /\
     can_write md = true /\
     add_folder_to_zip fs [] (output_dir ++ [fg_name g]) = (Ok tt, zf)).

(** The names of a scan are ordinary names. *)
Definition plain_names (groups : list FileGroup) : Prop :=
  forall g, In g groups ->
    plain (fg_name g) /\ forall sf, In sf (fg_files g) -> plain (sf_name sf).

(** During the second run: the logger is the same, and the file system is
    the one the first run left, [fs1], plus text appended to the log. *)
Definition only_logged (lg : logger) (fs1 : fsys) (st : state) : Prop :=
  st_logger st = lg /\ exists text, st_fs st = append_log lg text fs1.

(** The groups that a run started in world [w] finds. *)
Definition scan_of_run (a : args) (w : world) : res (list FileGroup) :=
  scan_and_group
    (st_fs (started a (fst (setup_logging (output a) (log_level a) w))
                      (snd (setup_logging (output a) (log_level a) w))))
    (source a) (pattern a).

(** *** Vocabulary for the proofs *)

(** The dictionary of the loop, seen as the list of its groups. *)
Definition to_dict (gs : list FileGroup) : dict :=
  map (fun g => (fg_name g, g)) gs.

(** Adding a source file to the groups: to its group where it stands, or
    to a new group at the end. *)
Fixpoint add_source_file (gs : list FileGroup) (sf : SourceFile) : list FileGroup :=
  match gs with
  | [] => [mkFileGroup (sf_group sf) [sf]]
  | g :: gs' =>
      if decide (fg_name g = sf_group sf) then add_file g sf :: gs'
      else g :: add_source_file gs' sf
  end.

(** Completeness of the matcher on the subject [s]: whenever the pattern
    spans [i..j] and the continuation accepts [j], the matcher finds some
    result. *)
Definition complete (s : list ascii) (r : Re.regex) (i j : nat) : Prop :=
  forall k e, k j = Some e -> exists e', Re.match_at s r i k = Some e'.

Definition complete_star (s : list ascii) (r : Re.regex) (i j : nat) : Prop :=
  forall g r1, r = Re.Star g r1 ->
  forall n k e, length s - i <= n -> k j = Some e ->
    exists e', Re.star_loop (Re.match_at s r1) g k n i = Some e'.

(** Every directory passed on the way to a resolved path is a directory:
    so is the parent of the path found. *)
Definition below_dirs (fs : fsys) (k : path) : Prop :=
  forall q rest, k = q ++ rest -> rest <> [] ->
                 exists md, node_at fs q = Some (Dir md).

(* ===================================================================== *)
(** ** Sample runs                                                        *)
(* ===================================================================== *)

(** The text of a log file, given its records. *)
Definition log_text (records : list (level * string)) : string :=
  String.concat "" (map (fun r => record_line (fst r) (snd r)) records).

(** A source directory with two holiday pictures, another picture and a
    subdirectory; no output directory yet. *)
Definition fs_vacation : fsys :=
  [ (["src"], Dir rw);
    (["src"; "vacation_beach.jpg"], File "beach" rw);
    (["src"; "vacation_sunset.jpg"], File "sunset!" rw);
    (["src"; "work_meeting.jpg"], File "work" rw);
    (["src"; "sub"], Dir rw) ].

Definition world_vacation : world := mkWorld fs_vacation [] [].

(** [photozipper --source src --pattern vacation --output out
    --log-level WARNING] *)
Definition args_vacation : args :=
  mkArgs ["src"] "vacation" ["out"] false false false WARNING.

(** The same with [--dry-run]. *)
Definition args_dry : args :=
  mkArgs ["src"] "vacation" ["out"] true false false WARNING.

(** The same with a pattern that does not compile. *)
Definition args_bad : args :=
  mkArgs ["src"] "trip[" ["out"] false false false WARNING.

Definition groups_vacation : list FileGroup :=
  [ mkFileGroup "vacation"
      [ mkSourceFile ["src"; "vacation_beach.jpg"] "vacation_beach.jpg" 5 "vacation";
        mkSourceFile ["src"; "vacation_sunset.jpg"] "vacation_sunset.jpg" 7 "vacation" ] ].

Definition log_first_run : string :=
  log_text
    [ (INFO, "Starting organization");
      (INFO, "Source: src");
      (INFO, "Pattern: vacation");
      (INFO, "Output: out");
      (INFO, "Scanning source directory...");
      (INFO, "Found 1 group(s)");
      (INFO, "Processing group 'vacation' (2 file(s))");
      (DEBUG, "Created folder: out/vacation");
      (DEBUG, "Copied: vacation_beach.jpg");
      (DEBUG, "Copied: vacation_sunset.jpg");
      (INFO, "Created ZIP: vacation.zip");
      (INFO, "Successfully organized 2 files into 1 groups") ].

Definition log_second_run : string :=
  log_text
    [ (INFO, "Starting organization");
      (INFO, "Source: src");
      (INFO, "Pattern: vacation");
      (INFO, "Output: out");
      (INFO, "Scanning source directory...");
      (INFO, "Found 1 group(s)");
      (INFO, "Processing group 'vacation' (2 file(s))");
      (DEBUG, "Created folder: out/vacation");
      (INFO, "Skipping duplicate: vacation_beach.jpg");
      (INFO, "Skipping duplicate: vacation_sunset.jpg");
      (INFO, "Created ZIP: vacation.zip");
      (INFO, "Successfully organized 0 files into 1 groups (2 skipped)") ].

Definition log_dry_run : string :=
  log_text
    [ (INFO, "[DRY RUN] Starting organization (no changes will be made)");
      (INFO, "Source: src");
      (INFO, "Pattern: vacation");
      (INFO, "Output: out");
      (INFO, "Scanning source directory...");
      (INFO, "Found 1 group(s)");
      (INFO, "Processing group 'vacation' (2 file(s))");
      (INFO, "[DRY RUN] Would create folder: out/vacation");
      (INFO, "[DRY RUN] Would copy: vacation_beach.jpg -> out/vacation/vacation_beach.jpg");
      (INFO, "[DRY RUN] Would copy: vacation_sunset.jpg -> out/vacation/vacation_sunset.jpg");
      (INFO, "[DRY RUN] Would create ZIP: vacation.zip");
      (INFO, "[DRY RUN] Would process 2 files in 1 groups") ].

(** What the first run on [world_vacation] leaves, given the log written. *)
Definition fs_vacation_done (log : string) : fsys :=
  fs_vacation ++
  [ (["out"], Dir rw);
    (["out"; "photozipper.log"], File log rw);
    (["out"; "vacation"], Dir rw);
    (["out"; "vacation"; "vacation_beach.jpg"], File "beach" rw);
    (["out"; "vacation"; "vacation_sunset.jpg"], File "sunset!" rw);
    (["out"; "vacation.zip"],
     File "PK18:vacation_beach.jpg5:beach19:vacation_sunset.jpg7:sunset!" rw) ].

Definition world_vacation_done : world :=
  mkWorld (fs_vacation_done log_first_run)
          [("Successfully organized 2 files into 1 groups" ++ String Re.newline ""
              ++ "Groups: vacation")%string]
          [].

(** A source directory whose first picture cannot be read. *)
Definition fs_locked : fsys :=
  [ (["src"], Dir rw);
    (["src"; "a_1.jpg"], File "one" (Mode false true));
    (["src"; "a_2.jpg"], File "two" rw) ].

Definition world_locked : world := mkWorld fs_locked [] [].

Definition args_locked : args :=
  mkArgs ["src"] "a" ["out"] false false false WARNING.

Definition locked_1 : SourceFile := mkSourceFile ["src"; "a_1.jpg"] "a_1.jpg" 3 "a".
Definition locked_2 : SourceFile := mkSourceFile ["src"; "a_2.jpg"] "a_2.jpg" 3 "a".

(** The run on [world_locked] at the moment it starts to copy: the group
    folder is there, the log file is open. *)
Definition state_locked : state :=
  mkState
    (mkWorld (fs_locked ++ [ (["out"], Dir rw);
                             (["out"; "photozipper.log"], File "" rw);
                             (["out"; "a"], Dir rw) ]) [] [])
    (mkLogger WARNING (Some ["out"; "photozipper.log"])) 0 0 0.

(** Two environments that fail every copy once its target is open: a disk
    that is full after the first byte, and a file system on which the
    metadata of the target cannot be set. *)
Definition disk_full : fsys -> path -> path -> option fault :=
  fun _ _ _ => Some (WriteFails 1 "[Errno 28] No space left on device").

Definition no_utime : fsys -> path -> path -> option fault :=
  fun _ _ _ => Some (StatFails false "[Errno 1] Operation not permitted").

(** What these leave of the second picture in the group folder. *)
Definition fs_cut_short : fsys :=
  st_fs state_locked ++ [ (["out"; "a"; "a_2.jpg"], File "t" rw) ].

Definition fs_unstamped : fsys :=
  st_fs state_locked ++ [ (["out"; "a"; "a_2.jpg"], File "two" rw) ].

(** A source directory that holds a file named like the log file; the
    pattern [x*] matches the empty string at the start of every name, so
    the one group has the empty identifier and its folder is the output
    directory itself. *)
Definition fs_log : fsys :=
  [ (["src"], Dir rw);
    (["src"; "photozipper.log"], File "notes" rw);
    (["out"], Dir rw);
    (["out"; "photozipper.log"], File "old" rw) ].

Definition args_log : args :=
  mkArgs ["src"] "x*" ["out"] false false false WARNING.

Definition source_log : SourceFile :=
  mkSourceFile ["src"; "photozipper.log"] "photozipper.log" 5 "".

Definition state_log : state :=
  mkState (mkWorld fs_log [] [])
          (mkLogger WARNING (Some ["out"; "photozipper.log"])) 0 0 0.

(** A destination where [merge_a.jpg] is already stored. *)
Definition fs_merge : fsys :=
  [ (["src"], Dir rw);
    (["src"; "merge_a.jpg"], File "DIFFERENT" rw);
    (["out"], Dir rw);
    (["out"; "photozipper.log"], File "" rw);
    (["out"; "merge"], Dir rw);
    (["out"; "merge"; "merge_a.jpg"], File "1" rw) ].

Definition args_merge : args :=
  mkArgs ["src"] "merge" ["out"] false false false WARNING.

Definition source_merge : SourceFile :=
  mkSourceFile ["src"; "merge_a.jpg"] "merge_a.jpg" 9 "merge".

Definition state_merge : state :=
  mkState (mkWorld fs_merge [] [])
          (mkLogger WARNING (Some ["out"; "photozipper.log"])) 0 0 0.

(** Three trips, a text file and a directory, as the system lists them. *)
Definition fs_trips : fsys :=
  [ (["src"], Dir rw);
    (["src"; "trip2005_01.jpg"], File "c" rw);
    (["src"; "trip2004_01.jpg"], File "a" rw);
    (["src"; "notes.txt"], File "n" rw);
    (["src"; "trip2003"], Dir rw);
    (["src"; "trip2004_02.jpg"], File "bb" rw) ].

(** [trip\d{4}] compiled. *)
Definition re_trip : Re.regex :=
  Eval vm_compute in
    match ReSyntax.compile "trip\d{4}" with Ok r => r | Raise _ => Re.Eps end.

(** A copy cut short, and a complete one. *)
Definition fs_truncated : fsys :=
  [ (["src"], Dir rw);
    (["src"; "a.jpg"], File "abcdef" rw);
    (["out"], Dir rw);
    (["out"; "short.jpg"], File "abc" rw);
    (["out"; "whole.jpg"], File "ABCDEF" rw) ].

(* ===================================================================== *)
(** ** Vocabulary of the further properties                               *)
(* ===================================================================== *)

(** The entry [name] of the directory is a regular file whose name the
    pattern matches. *)
Definition matches (fs : fsys) (source_dir : path) (pattern name : string) : bool :=
  is_file fs (source_dir ++ [name]) &&
  match extract_group name pattern with Ok (Some _) => true | _ => false end.

(** Nothing is removed or replaced from [fs] to [fs']: a directory is still
    a directory with its mode, a regular file is still a regular file with
    its mode (its bytes may differ). *)
Definition kept (fs fs' : fsys) : Prop :=
  forall k,
    match node_at fs k with
    | Some (Dir md) => node_at fs' k = Some (Dir md)
    | Some (File _ md) => exists data, node_at fs' k = Some (File data md)
    | None => True
    end.

(** A source directory that cannot be written, with the output directory,
    the log file and the folder of group [a] in place. *)
Definition fs_readonly : fsys :=
  [ (["src"], Dir (Mode true false));
    (["src"; "a_1.jpg"], File "one" rw);
    (["out"], Dir rw);
    (["out"; "photozipper.log"], File "" rw);
    (["out"; "a"], Dir rw) ].

(** [--delete-originals] *)
Definition args_delete : args :=
  mkArgs ["src"] "a" ["out"] false true false WARNING.

Definition readonly_1 : SourceFile := mkSourceFile ["src"; "a_1.jpg"] "a_1.jpg" 3 "a".

Definition state_readonly : state :=
  mkState (mkWorld fs_readonly [] [])
          (mkLogger WARNING (Some ["out"; "photozipper.log"])) 0 0 0.

(** An output path that names a regular file. *)
Definition fs_output_file : fsys :=
  [ (["src"], Dir rw);
    (["src"; "a_1.jpg"], File "one" rw);
    (["out"], File "not a directory" rw) ].

Definition world_output_file : world := mkWorld fs_output_file [] [].

(** A pattern that no name of the holiday directory matches. *)
Definition args_no_match : args :=
  mkArgs ["src"] "zzz" ["out"] false false false WARNING.

(** [--zip-only], at the moment the first group is processed. *)
Definition args_zip_only : args :=
  mkArgs ["src"] "vacation" ["out"] false false true WARNING.

Definition group_vacation : FileGroup :=
  mkFileGroup "vacation"
    [ mkSourceFile ["src"; "vacation_beach.jpg"] "vacation_beach.jpg" 5 "vacation";
      mkSourceFile ["src"; "vacation_sunset.jpg"] "vacation_sunset.jpg" 7 "vacation" ].

Definition state_vacation : state :=
  mkState (mkWorld (fs_vacation ++ [ (["out"], Dir rw);
                                     (["out"; "photozipper.log"], File "" rw) ]) [] [])
          (mkLogger WARNING (Some ["out"; "photozipper.log"])) 0 0 0.


(* ===================================================================== *)
(** * Properties                                                          *)
(* ===================================================================== *)

(** ** The file system: binding and enumeration *)

Lemma find_node_set_node (fs : fsys) (k k' : path) (n : node) :
  find_node (set_node fs k n) k' =
  if decide (k = k') then Some n else find_node fs k'.
Proof.
  induction fs as [|[q x] fs IH]; simpl.
  - destruct (decide (k = k')); reflexivity.
  - destruct (decide (q = k)) as [->|Hq]; simpl.
    + destruct (decide (k = k')); reflexivity.
    + rewrite IH. destruct (decide (q = k')) as [->|]; [|reflexivity].
      destruct (decide (k = k')); [subst; contradiction|reflexivity].
Qed.

Lemma find_node_set_node_eq (fs : fsys) (k : path) (n : node) :
  find_node (set_node fs k n) k = Some n.
Proof. rewrite find_node_set_node. destruct (decide (k = k)); congruence. Qed.

Lemma find_node_set_node_ne (fs : fsys) (k k' : path) (n : node) :
  k <> k' -> find_node (set_node fs k n) k' = find_node fs k'.
Proof.
  intros H. rewrite find_node_set_node. destruct (decide (k = k')); congruence.
Qed.

Lemma set_node_same (fs : fsys) (k : path) (n : node) :
  find_node fs k = Some n -> set_node fs k n = fs.
Proof.
  induction fs as [|[q x] fs IH]; simpl; [discriminate|].
  destruct (decide (q = k)) as [->|Hq]; intros H.
  - congruence.
  - f_equal. auto.
Qed.

Lemma set_node_set_node (fs : fsys) (k : path) (n1 n2 : node) :
  set_node (set_node fs k n1) k n2 = set_node fs k n2.
Proof.
  induction fs as [|[q x] fs IH]; simpl.
  - destruct (decide (k = k)); congruence.
  - destruct (decide (q = k)) as [->|Hq]; simpl.
    + destruct (decide (k = k)); congruence.
    + destruct (decide (q = k)); [contradiction|]. f_equal. exact IH.
Qed.

Lemma set_node_fresh (fs : fsys) (k : path) (n : node) :
  find_node fs k = None -> set_node fs k n = fs ++ [(k, n)].
Proof.
  induction fs as [|[q x] fs IH]; simpl; [reflexivity|].
  destruct (decide (q = k)); [discriminate|]. intros H. f_equal. auto.
Qed.

Lemma node_at_set_node_ne (fs : fsys) (k k' : path) (n : node) :
  k <> k' -> node_at (set_node fs k n) k' = node_at fs k'.
Proof.
  intros H. destruct k'; simpl; [reflexivity|].
  apply find_node_set_node_ne; exact H.
Qed.

Lemma write_data_find (fs : fsys) (k k' : path) (f : string -> string) :
  k <> k' -> find_node (write_data fs k f) k' = find_node fs k'.
Proof.
  intros H. unfold write_data.
  destruct (find_node fs k) as [[d md|md]|]; try reflexivity.
  apply find_node_set_node_ne; exact H.
Qed.

Lemma write_data_compose (fs : fsys) (k : path) (f g : string -> string) :
  write_data (write_data fs k f) k g = write_data fs k (fun d => g (f d)).
Proof.
  unfold write_data. destruct (find_node fs k) as [[d md|md]|] eqn:H.
  - rewrite find_node_set_node_eq, set_node_set_node. reflexivity.
  - rewrite H. reflexivity.
  - rewrite H. reflexivity.
Qed.

Lemma walk_OSError (fs : fsys) (orig cur : path) (cs : list string) (e : exn) :
  walk fs orig cur cs = Raise e -> e = ENOTDIR orig \/ e = ENOENT orig.
Proof.
  revert cur. induction cs as [|c cs IH]; intros cur; simpl; [discriminate|].
  destruct (node_at fs cur) as [[d md|md]|]; intros H.
  - injection H as <-. left; reflexivity.
  - eauto.
  - injection H as <-. right; reflexivity.
Qed.

Lemma stat_OSError (fs : fsys) (p : path) (e : exn) :
  stat fs p = Raise e -> is_OSError e = true.
Proof.
  unfold stat, resolve. destruct (walk fs p [] p) as [k|e0] eqn:Hw.
  - destruct (node_at fs k); [discriminate|]. intros H; injection H as <-. reflexivity.
  - intros H; injection H as <-.
    destruct (walk_OSError _ _ _ _ _ Hw) as [-> | ->]; reflexivity.
Qed.

Lemma exists_stat (fs : fsys) (p : path) :
  exists_ fs p = true <-> exists n, stat fs p = Ok n.
Proof.
  unfold exists_. destruct (stat fs p) as [n|e]; split; intros H.
  - eauto.
  - reflexivity.
  - discriminate.
  - destruct H as [n H]; discriminate.
Qed.

Lemma not_exists_stat (fs : fsys) (p : path) :
  exists_ fs p = false <-> exists e, stat fs p = Raise e.
Proof.
  unfold exists_. destruct (stat fs p) as [n|e]; split; intros H.
  - discriminate.
  - destruct H as [e H]; discriminate.
  - eauto.
  - reflexivity.
Qed.

(** ** file_organizer.py: [verify_copy] *)

(** C9.  [verify_copy] returns true exactly when the target exists and has
    the size of the source; a target shorter than its source (a truncated
    write) makes it return false. *)
Theorem verify_copy_true_iff_same_size (fs : fsys) (source target : path) :
  (verify_copy fs source target = Ok true <->
   exists_ fs target = true /\
   exists ns nt, stat fs source = Ok ns /\ stat fs target = Ok nt /\
                 st_size ns = st_size nt) /\
  (forall ds ms dt mt,
      stat fs source = Ok (File ds ms) -> stat fs target = Ok (File dt mt) ->
      String.length dt < String.length ds ->
      verify_copy fs source target = Ok false).
Proof.
  split.
  - unfold verify_copy. split.
    + destruct (exists_ fs target) eqn:Ht; simpl; [|discriminate].
      destruct (stat fs source) as [ns|e]; [|discriminate].
      destruct (stat fs target) as [nt|e]; [|discriminate].
      intros H. injection H as H. apply Nat.eqb_eq in H.
      split; [reflexivity|]. exists ns, nt. auto.
    + intros [Ht (ns & nt & Hs & Hn & Hsz)].
      rewrite Ht, Hs, Hn. simpl. f_equal. apply Nat.eqb_eq. exact Hsz.
  - intros ds ms dt mt Hs Ht Hlt. unfold verify_copy.
    assert (He : exists_ fs target = true) by (apply exists_stat; eauto).
    rewrite He, Hs, Ht. simpl. f_equal. apply Nat.eqb_neq. lia.
Qed.

(** C10.  [verify_copy] does not always return a boolean: when the target
    exists and the source does not, the error of [source.stat()] leaves the
    function; when the target is absent it returns false whatever the
    source is. *)
Theorem verify_copy_raises_on_missing_source (fs : fsys) (source target : path) :
  (exists_ fs target = true -> exists_ fs source = false ->
   exists e, stat fs source = Raise e /\ is_OSError e = true /\
             verify_copy fs source target = Raise e) /\
  (exists_ fs target = false -> verify_copy fs source target = Ok false).
Proof.
  split.
  - intros Ht Hs. apply not_exists_stat in Hs as [e He].
    exists e. split; [exact He|]. split; [eapply stat_OSError; eauto|].
    unfold verify_copy. rewrite Ht, He. reflexivity.
  - intros Ht. unfold verify_copy. rewrite Ht. reflexivity.
Qed.

(** ** Strings *)

Lemma str_app_cons (x : ascii) (a b : string) :
  (String x a ++ b)%string = String x (a ++ b).
Proof. reflexivity. Qed.

Lemma str_app_assoc (a b c : string) : ((a ++ b) ++ c)%string = (a ++ b ++ c)%string.
Proof.
  induction a as [|x a IH]; [reflexivity|].
  rewrite !str_app_cons, IH. reflexivity.
Qed.

Lemma str_app_nil_r (a : string) : (a ++ "")%string = a.
Proof.
  induction a as [|x a IH]; [reflexivity|]. rewrite str_app_cons, IH. reflexivity.
Qed.

(** ** logger.py: what a logging call does to the file system *)

Lemma write_data_ext (fs : fsys) (k : path) (f g : string -> string) :
  (forall d, f d = g d) -> write_data fs k f = write_data fs k g.
Proof.
  intros H. unfold write_data.
  destruct (find_node fs k) as [[d md|md]|]; try reflexivity. rewrite H. reflexivity.
Qed.

Lemma write_data_id (fs : fsys) (k : path) (f : string -> string) :
  (forall d, f d = d) -> write_data fs k f = fs.
Proof.
  intros H. unfold write_data.
  destruct (find_node fs k) as [[d md|md]|] eqn:E; try reflexivity.
  rewrite H. apply set_node_same. exact E.
Qed.

Lemma append_log_nil (lg : logger) (fs : fsys) : append_log lg "" fs = fs.
Proof.
  unfold append_log. destruct (file_handler lg); [|reflexivity].
  apply write_data_id. intros d. apply str_app_nil_r.
Qed.

Lemma append_log_app (lg : logger) (t1 t2 : string) (fs : fsys) :
  append_log lg t2 (append_log lg t1 fs) = append_log lg (t1 ++ t2) fs.
Proof.
  unfold append_log. destruct (file_handler lg); [|reflexivity].
  rewrite write_data_compose. apply write_data_ext.
  intros d. apply str_app_assoc.
Qed.

Lemma append_log_find (lg : logger) (text : string) (fs : fsys) (k : path) :
  file_handler lg <> Some k ->
  find_node (append_log lg text fs) k = find_node fs k.
Proof.
  intros H. unfold append_log. destruct (file_handler lg) as [k0|]; [|reflexivity].
  apply write_data_find. congruence.
Qed.

Lemma log_fs (lg : logger) (l : level) (msg : string) (w : world) :
  w_fs (log lg l msg w) = append_log lg (record_line l msg) (w_fs w).
Proof.
  unfold log, append_log, record_line.
  destruct (levelno (console_level lg) <=? levelno l);
    destruct (file_handler lg); reflexivity.
Qed.

Lemma logs_fs (l : level) (msg : string) (st : state) :
  st_fs (logs l msg st) = append_log (st_logger st) (record_line l msg) (st_fs st).
Proof. unfold st_fs, logs; simpl. apply log_fs. Qed.

(** Writing the bytes of a file changes no directory, so every path
    resolves as before; and it changes no other file. *)
Lemma write_data_dir (fs : fsys) (k q : path) (f : string -> string) :
  match node_at fs q with
  | Some (Dir md) => node_at (write_data fs k f) q = Some (Dir md)
  | Some (File _ _) => exists d md, node_at (write_data fs k f) q = Some (File d md)
  | None => node_at (write_data fs k f) q = None
  end.
Proof.
  destruct q as [|c q]; [reflexivity|].
  change (node_at fs (c :: q)) with (find_node fs (c :: q)).
  change (node_at (write_data fs k f) (c :: q))
    with (find_node (write_data fs k f) (c :: q)).
  unfold write_data.
  destruct (find_node fs k) as [[d md|md]|] eqn:Hk.
  - rewrite find_node_set_node.
    destruct (decide (k = c :: q)) as [<-|Hne].
    + rewrite Hk. eauto.
    + destruct (find_node fs (c :: q)) as [[d0 md0|md0]|]; eauto.
  - destruct (find_node fs (c :: q)) as [[d0 md0|md0]|]; eauto.
  - destruct (find_node fs (c :: q)) as [[d0 md0|md0]|]; eauto.
Qed.

Lemma write_data_walk (fs : fsys) (k o cur : path) (cs : list string)
  (f : string -> string) :
  walk (write_data fs k f) o cur cs = walk fs o cur cs.
Proof.
  revert cur. induction cs as [|c cs IH]; intros cur; simpl; [reflexivity|].
  pose proof (write_data_dir fs k cur f) as H.
  destruct (node_at fs cur) as [[d md|md]|].
  - destruct H as (d' & md' & ->). reflexivity.
  - rewrite H. apply IH.
  - rewrite H. reflexivity.
Qed.

Lemma append_log_stat (lg : logger) (text : string) (fs : fsys) (p k : path) :
  resolve fs p = Ok k -> file_handler lg <> Some k ->
  stat (append_log lg text fs) p = stat fs p.
Proof.
  intros Hr Hk. unfold append_log.
  destruct (file_handler lg) as [kl|]; [|reflexivity].
  unfold stat, resolve. rewrite write_data_walk. fold (resolve fs p). rewrite Hr.
  destruct k as [|c k]; [reflexivity|].
  change (node_at ?x (c :: k)) with (find_node x (c :: k)).
  rewrite write_data_find by congruence. reflexivity.
Qed.

(** ** cli.py: one file *)

Lemma process_file_skip
  (a : args) (group_folder : path) (source_file : SourceFile) (st : state) :
  exists_ (st_fs st) (target_of group_folder source_file) = true ->
  process_file a group_folder source_file st = (Next, skipped source_file st).
Proof.
  intros He. unfold process_file. fold (target_of group_folder source_file).
  unfold handle_merge. rewrite He. reflexivity.
Qed.

(** C5, as the program has it.  When something exists at the target path,
    [handle_merge] says skip without reading either file, and the body of
    the loop does nothing but report: one log record, one more skipped
    file.  Every path other than the open log file keeps its node; so the
    file at the target path keeps its bytes and its mode, unless it is the
    open log file itself. *)
Theorem existing_target_is_skipped
  (a : args) (group_folder : path) (source_file : SourceFile) (st : state) :
  exists_ (st_fs st) (target_of group_folder source_file) = true ->
  handle_merge (st_fs st) (target_of group_folder source_file) = (false, "skip") /\
  process_file a group_folder source_file st = (Next, skipped source_file st) /\
  files_skipped (skipped source_file st) = files_skipped st + 1 /\
  files_copied (skipped source_file st) = files_copied st /\
  (forall k, file_handler (st_logger st) <> Some k ->
             find_node (st_fs (skipped source_file st)) k = find_node (st_fs st) k) /\
  (forall k, resolve (st_fs st) (target_of group_folder source_file) = Ok k ->
             file_handler (st_logger st) <> Some k ->
             stat (st_fs (skipped source_file st)) (target_of group_folder source_file)
             = stat (st_fs st) (target_of group_folder source_file)).
Proof.
  intros He.
  assert (Hm : handle_merge (st_fs st) (target_of group_folder source_file)
               = (false, "skip")).
  { unfold handle_merge. rewrite He. reflexivity. }
  split; [exact Hm|]. split.
  - unfold process_file. fold (target_of group_folder source_file).
    rewrite Hm. reflexivity.
  - split; [reflexivity|]. split; [reflexivity|].
    assert (Hfs : st_fs (skipped source_file st)
                  = append_log (st_logger st)
                      (record_line INFO ("Skipping duplicate: " ++ sf_name source_file))
                      (st_fs st)).
    { unfold skipped. change (st_fs (count_skipped ?s)) with (st_fs s).
      apply logs_fs. }
    rewrite Hfs. split.
    + intros k Hk. apply append_log_find. exact Hk.
    + intros k Hr Hk. eapply append_log_stat; eauto.
Qed.

Lemma process_files_stop (a : args) (group_folder : path)
  (source_file : SourceFile) (rest : list SourceFile) (st st' : state) (code : nat) :
  process_file a group_folder source_file st = (Return code, st') ->
  process_files a group_folder (source_file :: rest) st = (Return code, st').
Proof. intros H. simpl. rewrite H. reflexivity. Qed.


(** ** cli.py: how the pieces of [main] end *)

Lemma process_file_ctl (a : args) (group_folder : path) (source_file : SourceFile)
  (st st' : state) (c : ctl) :
  process_file a group_folder source_file st = (c, st') ->
  c = Next \/ c = Return 1.
Proof.
  unfold process_file. intros H.
  repeat case_match; simplify_eq; auto.
Qed.

Lemma process_files_ctl (a : args) (group_folder : path) (files : list SourceFile)
  (st st' : state) (c : ctl) :
  process_files a group_folder files st = (c, st') ->
  c = Next \/ c = Return 1.
Proof.
  revert st. induction files as [|f files IH]; simpl; intros st H.
  - injection H as <- _. auto.
  - destruct (process_file a group_folder f st) as [c1 st1] eqn:Hf.
    destruct c1; [eauto| |].
    + injection H as <- _. apply process_file_ctl in Hf. exact Hf.
    + apply process_file_ctl in Hf. destruct Hf; discriminate.
Qed.

Lemma process_group_ctl (a : args) (output_dir : path) (group : FileGroup)
  (st st' : state) (c : ctl) :
  process_group a output_dir group st = (c, st') ->
  c = Next \/ c = Return 1 \/ exists e, c = Raised e.
Proof.
  unfold process_group. intros H.
  repeat match type of H with
         | context [process_files ?a ?g ?f ?s] =>
             let Hf := fresh "Hf" in
             destruct (process_files a g f s) as [? ?] eqn:Hf;
             apply process_files_ctl in Hf
         | _ => case_match
         end; simplify_eq; eauto; intuition (try discriminate; eauto).
Qed.

Lemma process_groups_ctl (a : args) (output_dir : path) (groups : list FileGroup)
  (st st' : state) (c : ctl) :
  process_groups a output_dir groups st = (c, st') ->
  c = Next \/ c = Return 1 \/ exists e, c = Raised e.
Proof.
  revert st. induction groups as [|g groups IH]; simpl; intros st H.
  - injection H as <- _. auto.
  - destruct (process_group a output_dir g st) as [c1 st1] eqn:Hg.
    destruct c1; [eauto| |]; injection H as <- _;
      apply process_group_ctl in Hg; exact Hg.
Qed.

Lemma organize_ctl (a : args) (lg : logger) (w : world) (st : state) (c : ctl) :
  organize a lg w = (c, st) ->
  c = Return 0 \/ c = Return 1 \/ exists e, c = Raised e.
Proof.
  unfold organize. intros H.
  repeat match type of H with
         | context [process_groups ?a ?o ?g ?s] =>
             let Hg := fresh "Hg" in
             destruct (process_groups a o g s) as [? ?] eqn:Hg;
             apply process_groups_ctl in Hg
         | _ => case_match
         end; simplify_eq; eauto; intuition (try discriminate; eauto).
Qed.

(** C2, as the program has it.  The three validation errors are written to
    the error stream with nothing else touched, and they exit with 1.  So
    does every run that passed validation and did not end with success: an
    error return (as after a copy that cannot be verified or an archive
    that cannot be written) and an exception both exit with 1.  Every run
    on parsed arguments exits with 0 or 1; 2 is the exit code of a command
    line without arguments only. *)
Theorem validation_errors_exit_like_fatal_errors (a : args) (w : world) :
  (invalid_input a (w_fs w) ->
   exists msg, main (Some a) w = (1, print_stderr w msg)) /\
  (forall c st,
      ~ invalid_input a (w_fs w) ->
      organize a (fst (setup_logging (output a) (log_level a) w))
                 (snd (setup_logging (output a) (log_level a) w)) = (c, st) ->
      c <> Return 0 -> fst (main (Some a) w) = 1) /\
  (fst (main (Some a) w) = 0 \/ fst (main (Some a) w) = 1) /\
  fst (main None w) = 2.
Proof.
  split; [|split; [|split; [|reflexivity]]].
  - unfold invalid_input, main. intros H.
    destruct (validate_arguments a) as [m|]; [eauto|].
    destruct (exists_ (w_fs w) (source a)); simpl; [|eauto].
    destruct (is_dir (w_fs w) (source a)); simpl; [|eauto].
    destruct (validate_pattern (pattern a)) as [b|e]; [|destruct e; eauto].
    destruct H as [H|[H|[H|[e H]]]]; congruence.
  - intros c st Hv Ho Hc. unfold invalid_input in Hv. unfold main.
    destruct (validate_arguments a) as [m|]; [exfalso; apply Hv; left; discriminate|].
    destruct (exists_ (w_fs w) (source a)); simpl; [|exfalso; auto].
    destruct (is_dir (w_fs w) (source a)); simpl; [|exfalso; auto].
    destruct (validate_pattern (pattern a)) as [b|e]; [|exfalso; eauto 6].
    destruct (setup_logging (output a) (log_level a) w) as [lg w1].
    cbn [fst snd] in Ho. rewrite Ho.
    destruct (organize_ctl _ _ _ _ _ Ho) as [->|[->|[e ->]]];
      [contradiction|reflexivity|reflexivity].
  - unfold main.
    destruct (validate_arguments a) as [m|]; [auto|].
    destruct (exists_ (w_fs w) (source a)); simpl; [|auto].
    destruct (is_dir (w_fs w) (source a)); simpl; [|auto].
    destruct (validate_pattern (pattern a)) as [b|e]; [|destruct e; auto].
    destruct (setup_logging (output a) (log_level a) w) as [lg w1].
    destruct (organize a lg w1) as [c st] eqn:Ho.
    apply organize_ctl in Ho. destruct Ho as [->|[->|[e ->]]]; simpl; auto.
Qed.

(** ** Logging only *)

Lemma logged_refl (st : state) : logged st st.
Proof. split; [reflexivity|]. exists "". symmetry. apply append_log_nil. Qed.

Lemma logged_trans (st1 st2 st3 : state) :
  logged st1 st2 -> logged st2 st3 -> logged st1 st3.
Proof.
  intros [Hl1 [t1 H1]] [Hl2 [t2 H2]]. split; [congruence|].
  exists (t1 ++ t2)%string. rewrite H2, Hl1, H1. apply append_log_app.
Qed.

Lemma logged_logs (l : level) (msg : string) (st : state) : logged st (logs l msg st).
Proof. split; [reflexivity|]. exists (record_line l msg). apply logs_fs. Qed.

Lemma logged_same_fs (st st' : state) :
  st_logger st' = st_logger st -> st_fs st' = st_fs st -> logged st st'.
Proof.
  intros Hl Hf. split; [exact Hl|]. exists "". rewrite Hf. symmetry. apply append_log_nil.
Qed.

Lemma logged_find (st st' : state) (k : path) :
  logged st st' -> file_handler (st_logger st) <> Some k ->
  find_node (st_fs st') k = find_node (st_fs st) k.
Proof. intros [_ [t ->]] H. apply append_log_find. exact H. Qed.

(** ** Preview mode *)

Lemma process_file_dry (a : args) (group_folder : path) (source_file : SourceFile)
  (st : state) :
  dry_run a = true ->
  exists st', process_file a group_folder source_file st = (Next, st') /\ logged st st'.
Proof.
  intros Hdry. unfold process_file.
  destruct (handle_merge _ _) as [should_copy action].
  destruct should_copy; simpl.
  - rewrite Hdry. eexists; split; [reflexivity|]. apply logged_logs.
  - eexists; split; [reflexivity|].
    eapply logged_trans; [apply logged_logs|]. apply logged_same_fs; reflexivity.
Qed.

Lemma process_files_dry (a : args) (group_folder : path) (files : list SourceFile)
  (st : state) :
  dry_run a = true ->
  exists st', process_files a group_folder files st = (Next, st') /\ logged st st'.
Proof.
  intros Hdry. revert st. induction files as [|f files IH]; intros st; simpl.
  - eexists; split; [reflexivity|apply logged_refl].
  - destruct (process_file_dry a group_folder f st Hdry) as (st1 & -> & H1).
    destruct (IH st1) as (st2 & -> & H2).
    eexists; split; [reflexivity|]. eapply logged_trans; eauto.
Qed.

Lemma process_group_dry (a : args) (output_dir : path) (group : FileGroup)
  (st : state) :
  dry_run a = true ->
  exists st', process_group a output_dir group st = (Next, st') /\ logged st st'.
Proof.
  intros Hdry. unfold process_group. rewrite Hdry. simpl.
  match goal with
  | |- context [process_files a ?g ?f ?s] =>
      destruct (process_files_dry a g f s Hdry) as (st2 & -> & H2)
  end.
  eexists; split; [reflexivity|].
  assert (H0 : logged st st2).
  { eapply logged_trans; [|exact H2].
    eapply logged_trans; apply logged_logs. }
  destruct (zip_only a).
  - eapply logged_trans; [exact H0|]. eapply logged_trans; apply logged_logs.
  - eapply logged_trans; [exact H0|]. apply logged_logs.
Qed.

Lemma process_groups_dry (a : args) (output_dir : path) (groups : list FileGroup)
  (st : state) :
  dry_run a = true ->
  exists st', process_groups a output_dir groups st = (Next, st') /\ logged st st'.
Proof.
  intros Hdry. revert st. induction groups as [|g groups IH]; intros st; simpl.
  - eexists; split; [reflexivity|apply logged_refl].
  - destruct (process_group_dry a output_dir g st Hdry) as (st1 & -> & H1).
    destruct (IH st1) as (st2 & -> & H2).
    eexists; split; [reflexivity|]. eapply logged_trans; eauto.
Qed.

Lemma logged_print (line : string) (st : state) : logged st (print_state line st).
Proof. apply logged_same_fs; reflexivity. Qed.

Lemma logged_started (a : args) (lg : logger) (w : world) :
  logged (mkState w lg 0 0 0) (started a lg w).
Proof.
  unfold started. repeat (eapply logged_trans; [|apply logged_logs]). apply logged_refl.
Qed.

Lemma organize_dry (a : args) (lg : logger) (w : world) (c : ctl) (st : state) :
  dry_run a = true ->
  organize a lg w = (c, st) -> logged (mkState w lg 0 0 0) st.
Proof.
  intros Hdry. unfold organize.
  set (st0 := mkState w lg 0 0 0).
  assert (H5 : logged st0 (started a lg w)) by apply logged_started.
  set (st5 := started a lg w) in *. clearbody st5.
  destruct (scan_and_group (st_fs st5) (source a) (pattern a)) as [groups|e].
  - destruct groups as [|g groups].
    + intros H; injection H as _ <-.
      eapply logged_trans; [exact H5|].
      eapply logged_trans; [apply logged_logs|apply logged_print].
    + match goal with
      | |- context [process_groups a ?o ?gs ?s] =>
          destruct (process_groups_dry a o gs s Hdry) as (st6 & -> & H6)
      end.
      intros H; injection H as _ <-.
      eapply logged_trans; [exact H5|].
      eapply logged_trans; [apply logged_logs|].
      eapply logged_trans; [exact H6|].
      eapply logged_trans; [apply logged_print|apply logged_logs].
  - intros H; injection H as _ <-. exact H5.
Qed.

(** ** logger.py: what [setup_logging] does to the file system *)

Lemma adds_dirs_refl (fs : fsys) : adds_dirs fs fs.
Proof. split; intros k n H; [exact H|congruence]. Qed.

Lemma adds_dirs_trans (fs1 fs2 fs3 : fsys) :
  adds_dirs fs1 fs2 -> adds_dirs fs2 fs3 -> adds_dirs fs1 fs3.
Proof.
  intros [K1 N1] [K2 N2]. split; intros k n H.
  - auto.
  - intros H3. destruct (find_node fs2 k) as [n2|] eqn:E2.
    + assert (n2 = Dir rw) by eauto. subst n2.
      apply K2 in E2. congruence.
    + eauto.
Qed.

Lemma os_mkdir_ok (fs fs' : fsys) (p : path) :
  os_mkdir fs p = Ok fs' ->
  exists k, find_node fs k = None /\ fs' = set_node fs k (Dir rw).
Proof.
  unfold os_mkdir. destruct (resolve fs p) as [k|e]; [|discriminate].
  destruct (node_at fs k) as [n|] eqn:Hn; [discriminate|].
  destruct (dir_writable fs (removelast k)); [|discriminate].
  intros H; injection H as <-. exists k. split; [|reflexivity].
  destruct k; [discriminate|exact Hn].
Qed.

Lemma os_mkdir_adds (fs fs' : fsys) (p : path) :
  os_mkdir fs p = Ok fs' -> adds_dirs fs fs'.
Proof.
  intros H. apply os_mkdir_ok in H as (k & Hk & ->). split; intros k' n H.
  - rewrite find_node_set_node. destruct (decide (k = k')); congruence.
  - rewrite find_node_set_node. destruct (decide (k = k')); congruence.
Qed.

Lemma mkdir_exist_ok_adds (fs fs' : fsys) (p : path) :
  mkdir_exist_ok fs p = Ok fs' -> adds_dirs fs fs'.
Proof.
  unfold mkdir_exist_ok. destruct (os_mkdir fs p) as [fs1|e] eqn:Hm.
  - intros H; injection H as <-. eapply os_mkdir_adds; eauto.
  - destruct e; try discriminate;
      (destruct (is_dir fs p); [|discriminate]);
      intros H; injection H as <-; apply adds_dirs_refl.
Qed.

Lemma mkdir_parents_rev_adds (rp : list string) (fs fs' : fsys) :
  mkdir_parents_rev fs rp = Ok fs' -> adds_dirs fs fs'.
Proof.
  revert fs fs'.
  induction rp as [|c rp IH]; intros fs fs'; cbn [mkdir_parents_rev rev].
  - destruct (os_mkdir fs []) as [fs1|e] eqn:Hm.
    + intros H; injection H as <-. eapply os_mkdir_adds; eauto.
    + destruct e; try discriminate;
        (destruct (is_dir fs []); [|discriminate]);
        intros H; injection H as <-; apply adds_dirs_refl.
  - destruct (os_mkdir fs (rev rp ++ [c])) as [fs1|e] eqn:Hm.
    + intros H; injection H as <-. eapply os_mkdir_adds; eauto.
    + destruct e;
        try ((destruct (is_dir fs (rev rp ++ [c])); [|discriminate]);
             intros H; injection H as <-; apply adds_dirs_refl).
      destruct (mkdir_parents_rev fs rp) as [fs1|e1] eqn:Hp; [|discriminate].
      intros H. eapply adds_dirs_trans; [eapply IH; eauto|].
      eapply mkdir_exist_ok_adds; eauto.
Qed.

Lemma mkdir_parents_adds (fs fs' : fsys) (p : path) :
  mkdir_parents fs p = Ok fs' -> adds_dirs fs fs'.
Proof. apply mkdir_parents_rev_adds. Qed.

Lemma open_write_append (fs fs' : fsys) (p k : path) :
  open_write false fs p = Ok (k, fs') ->
  fs' = fs \/ (find_node fs k = None /\ fs' = set_node fs k (File "" rw)).
Proof.
  unfold open_write. destruct (resolve fs p) as [k0|e]; [|discriminate].
  destruct (node_at fs k0) as [[d md|md]|] eqn:Hn; [|discriminate|].
  - destruct (can_write md); [|discriminate]. intros H; injection H as <- <-. auto.
  - destruct (dir_writable fs (removelast k0)); [|discriminate].
    intros H; injection H as <- <-. right. split; [|reflexivity].
    destruct k0; [discriminate|exact Hn].
Qed.

(** Nothing that exists is changed by [setup_logging]; what it adds is
    directories and, at the path of the file handler, the empty log file. *)
Lemma setup_logging_frame (output_dir : path) (log_level : level) (w : world)
  (k : path) :
  file_handler (fst (setup_logging output_dir log_level w)) <> Some k ->
  find_node (w_fs (snd (setup_logging output_dir log_level w))) k = find_node (w_fs w) k \/
  (find_node (w_fs w) k = None /\
   find_node (w_fs (snd (setup_logging output_dir log_level w))) k = Some (Dir rw)).
Proof.
  assert (Hadds : forall fs1, adds_dirs (w_fs w) fs1 ->
            find_node fs1 k = find_node (w_fs w) k \/
            (find_node (w_fs w) k = None /\ find_node fs1 k = Some (Dir rw))).
  { intros fs1 [K N]. destruct (find_node (w_fs w) k) as [n|] eqn:E.
    - left. auto.
    - destruct (find_node fs1 k) as [n1|] eqn:E1; [|auto].
      right. split; [reflexivity|]. f_equal. eauto. }
  unfold setup_logging.
  destruct (mkdir_parents (w_fs w) output_dir) as [fs1|e] eqn:Hm; simpl.
  - apply mkdir_parents_adds in Hm.
    destruct (open_write false fs1 (join output_dir "photozipper.log"))
      as [[kl fs2]|e] eqn:Ho; simpl.
    + intros Hk. apply open_write_append in Ho as [->|[Hnone ->]]; [auto|].
      rewrite find_node_set_node_ne by congruence. auto.
    + intros _. rewrite log_fs. unfold append_log; simpl. auto.
  - intros _. rewrite log_fs. unfold append_log; simpl. left; reflexivity.
Qed.

(** C3, as the program has it.  A run in preview mode leaves the file
    system as [setup_logging] made it, but for the text appended to the log
    file; so every path other than the log file is as it was before the
    run, or is a directory that [setup_logging] created on the way to the
    output directory.  No group folder, copy, archive or deletion occurs. *)
Theorem dry_run_writes_only_the_log (a : args) (w : world) :
  dry_run a = true ->
  (w_fs (snd (main (Some a) w)) = w_fs w \/
   exists text,
     w_fs (snd (main (Some a) w)) =
     append_log (fst (setup_logging (output a) (log_level a) w)) text
                (w_fs (snd (setup_logging (output a) (log_level a) w)))) /\
  (forall k,
      file_handler (fst (setup_logging (output a) (log_level a) w)) <> Some k ->
      find_node (w_fs (snd (main (Some a) w))) k = find_node (w_fs w) k \/
      (find_node (w_fs w) k = None /\
       find_node (w_fs (snd (main (Some a) w))) k = Some (Dir rw))).
Proof.
  intros Hdry.
  assert (Hmain :
    w_fs (snd (main (Some a) w)) = w_fs w \/
    exists text,
      w_fs (snd (main (Some a) w)) =
      append_log (fst (setup_logging (output a) (log_level a) w)) text
                 (w_fs (snd (setup_logging (output a) (log_level a) w)))).
  { unfold main.
    destruct (validate_arguments a) as [m|]; [left; reflexivity|].
    destruct (exists_ (w_fs w) (source a)); simpl; [|left; reflexivity].
    destruct (is_dir (w_fs w) (source a)); simpl; [|left; reflexivity].
    destruct (validate_pattern (pattern a)) as [b|e]; [|destruct e; left; reflexivity].
    right.
    destruct (setup_logging (output a) (log_level a) w) as [lg w1]; cbn [fst snd].
    destruct (organize a lg w1) as [c st] eqn:Ho.
    apply organize_dry in Ho; [|exact Hdry].
    assert (Hst : exists text, st_fs st = append_log lg text (w_fs w1)).
    { destruct Ho as [_ Ho]. exact Ho. }
    destruct c; cbn [fst snd]; try exact Hst.
    destruct Ho as [Hlg [t Ht]]. cbn in Hlg.
    change (exists text,
      st_fs (logs ERROR ("Unexpected error: " ++ exn_str e) st)
      = append_log lg text (w_fs w1)).
    rewrite logs_fs, Ht, Hlg.
    eexists. apply append_log_app. }
  split; [exact Hmain|].
  intros k Hk. destruct Hmain as [->|[text ->]]; [left; reflexivity|].
  rewrite append_log_find by exact Hk.
  apply setup_logging_frame. exact Hk.
Qed.

(** ** pattern_matcher.py: [scan_and_group] *)

Lemma dict_values_to_dict (gs : list FileGroup) : dict_values (to_dict gs) = gs.
Proof.
  unfold dict_values, to_dict. rewrite map_map. simpl. apply map_id.
Qed.

Lemma dict_step (gs : list FileGroup) (sf : SourceFile) :
  let d := to_dict gs in
  let d1 := if dict_mem d (sf_group sf) then d
            else dict_set d (sf_group sf) (mkFileGroup (sf_group sf) []) in
  match dict_get d1 (sf_group sf) with
  | Some g => dict_set d1 (sf_group sf) (add_file g sf)
  | None => d1
  end = to_dict (add_source_file gs sf).
Proof.
  unfold dict_mem. induction gs as [|g gs IH]; simpl.
  - destruct (decide (sf_group sf = sf_group sf)); [|contradiction].
    simpl. destruct (decide (sf_group sf = sf_group sf)); [|contradiction].
    reflexivity.
  - destruct (decide (fg_name g = sf_group sf)) as [E|E]; simpl.
    + rewrite decide_True by exact E. simpl.
      rewrite decide_True by exact E. simpl. rewrite E. reflexivity.
    + simpl in IH.
      destruct (dict_get (to_dict gs) (sf_group sf)) as [g0|] eqn:Hg; simpl.
      * rewrite Hg in IH. rewrite decide_False by exact E. rewrite Hg.
        simpl. rewrite decide_False by exact E. f_equal. exact IH.
      * rewrite decide_False by exact E.
        destruct (dict_get (dict_set (to_dict gs) (sf_group sf)
                              (mkFileGroup (sf_group sf) []))
                           (sf_group sf)) as [g1|] eqn:Hg1.
        -- simpl. rewrite decide_False by exact E. f_equal. exact IH.
        -- f_equal. exact IH.
Qed.

Lemma scan_items_fold (fs : fsys) (source_dir : path) (pattern : string)
  (r : Re.regex) (items : list string) (gs : list FileGroup) :
  re_compile pattern = Ok r ->
  scan_items fs source_dir pattern items (to_dict gs) =
  Ok (to_dict (fold_left add_source_file (matched fs source_dir pattern items) gs)).
Proof.
  intros Hc. revert gs. induction items as [|name items IH]; intros gs; simpl.
  - reflexivity.
  - destruct (is_file fs (source_dir ++ [name])) eqn:Hf; simpl; [|apply IH].
    assert (Hx : exists o, extract_group name pattern = Ok o).
    { unfold extract_group. rewrite Hc.
      destruct (Re.search _ r) as [[i j]|]; eauto. }
    destruct Hx as [o Hx]. rewrite Hx.
    destruct o as [group_name|]; [|apply IH].
    unfold from_path. unfold is_file in Hf.
    destruct (stat fs (source_dir ++ [name])) as [n|e]; [|discriminate].
    simpl.
    set (sf := mkSourceFile (source_dir ++ [name]) (basename (source_dir ++ [name]))
                            (st_size n) group_name).
    rewrite <- IH. f_equal.
    exact (dict_step gs sf).
Qed.

Lemma first_seen_elem (ids : list string) (x : string) :
  x ∈ first_seen ids <-> x ∈ ids.
Proof.
  induction ids as [|y ids IH]; simpl; [reflexivity|].
  rewrite !elem_of_cons, list_elem_of_filter, IH.
  destruct (decide (x = y)) as [E|E]; split.
  - intros _. left. exact E.
  - intros _. left. exact E.
  - intros [H|[_ H]]; [contradiction|right; exact H].
  - intros [H|H]; [contradiction|right; split; assumption].
Qed.

Lemma first_seen_NoDup (ids : list string) : NoDup (first_seen ids).
Proof.
  induction ids as [|y ids IH]; simpl; constructor.
  - rewrite list_elem_of_filter. intros [H _]. congruence.
  - apply NoDup_filter. exact IH.
Qed.

Lemma filter_ne_absent (l : list string) (x : string) :
  x ∉ l -> filter (fun y => y <> x) l = l.
Proof.
  induction l as [|y l IH]; intros H; [reflexivity|].
  rewrite not_elem_of_cons in H. destruct H as [Hxy Hl].
  rewrite filter_cons_True by congruence. f_equal. auto.
Qed.

Lemma first_seen_snoc (ids : list string) (x : string) :
  first_seen (ids ++ [x]) =
  if decide (x ∈ ids) then first_seen ids else first_seen ids ++ [x].
Proof.
  induction ids as [|y ids IH]; simpl.
  - reflexivity.
  - rewrite IH.
    destruct (decide (x ∈ ids)) as [Hin|Hin];
      destruct (decide (x ∈ y :: ids)) as [Hin'|Hin'].
    + reflexivity.
    + exfalso. apply Hin'. right. exact Hin.
    + apply elem_of_cons in Hin' as [->|Hin']; [|contradiction].
      rewrite filter_app, filter_cons_False, filter_nil, app_nil_r
        by (intros H; apply H; reflexivity).
      reflexivity.
    + rewrite filter_app, filter_cons_True, filter_nil; [reflexivity|].
      intros ->. apply Hin'. left.
Qed.

Lemma add_source_file_map (F : string -> FileGroup) (ns : list string)
  (sf : SourceFile) :
  (forall g, fg_name (F g) = g) -> NoDup ns ->
  add_source_file (map F ns) sf =
  if decide (sf_group sf ∈ ns)
  then map (fun g => if decide (g = sf_group sf) then add_file (F g) sf else F g) ns
  else map F ns ++ [mkFileGroup (sf_group sf) [sf]].
Proof.
  intros HF. induction ns as [|n ns IH]; intros Hnd.
  - reflexivity.
  - apply NoDup_cons in Hnd as [Hn Hnd]. cbn [map add_source_file]. rewrite HF.
    rewrite IH by exact Hnd.
    destruct (decide (n = sf_group sf)) as [->|Hne].
    + destruct (decide (sf_group sf ∈ sf_group sf :: ns)) as [_|Hx];
        [|exfalso; apply Hx; left].
      f_equal. apply map_ext_in. intros g Hg.
      rewrite decide_False; [reflexivity|].
      intros ->. apply Hn. apply list_elem_of_In. exact Hg.
    + destruct (decide (sf_group sf ∈ ns)) as [Hin|Hin];
        destruct (decide (sf_group sf ∈ n :: ns)) as [Hin'|Hin'].
      * reflexivity.
      * exfalso. apply Hin'. right. exact Hin.
      * apply elem_of_cons in Hin' as [E|Hin']; [congruence|contradiction].
      * reflexivity.
Qed.

Lemma filter_none {A} (P : A -> Prop) `{forall x, Decision (P x)} (l : list A) :
  (forall x, x ∈ l -> ~ P x) -> filter P l = [].
Proof.
  induction l as [|y l IH]; intros Hl; [reflexivity|].
  rewrite filter_cons_False by (apply Hl; left).
  apply IH. intros x Hx. apply Hl. right. exact Hx.
Qed.

Lemma elem_of_map {A B} (f : A -> B) (l : list A) (x : A) :
  x ∈ l -> f x ∈ map f l.
Proof. rewrite !list_elem_of_In. apply in_map. Qed.

Lemma add_source_file_grouped (files : list SourceFile) (sf : SourceFile) :
  add_source_file (grouped files) sf = grouped (files ++ [sf]).
Proof.
  unfold grouped.
  rewrite add_source_file_map; [|reflexivity|apply first_seen_NoDup].
  rewrite map_app. simpl. rewrite first_seen_snoc.
  destruct (decide (sf_group sf ∈ first_seen (map sf_group files))) as [Hin|Hin].
  - rewrite decide_True by (apply first_seen_elem; exact Hin).
    apply map_ext. intros g. unfold add_file. simpl.
    rewrite filter_app. f_equal. f_equal.
    destruct (decide (g = sf_group sf)) as [->|Hg].
    + rewrite filter_cons_True by reflexivity. reflexivity.
    + rewrite filter_cons_False by congruence. rewrite app_nil_r. reflexivity.
  - rewrite decide_False by (rewrite <- first_seen_elem; exact Hin).
    rewrite map_app. simpl. f_equal.
    + apply map_ext_in. intros g Hg. f_equal.
      rewrite filter_app, filter_cons_False, filter_nil, app_nil_r; [reflexivity|].
      intros E. apply Hin. rewrite E. apply list_elem_of_In. exact Hg.
    + f_equal. f_equal. rewrite filter_app, filter_cons_True by reflexivity.
      replace (filter (fun sf0 => sf_group sf0 = sf_group sf) files) with (@nil SourceFile);
        [reflexivity|].
      symmetry. apply filter_none. intros f Hf E.
      apply Hin. apply first_seen_elem. rewrite <- E.
      apply elem_of_map. exact Hf.
Qed.

Lemma fold_add_grouped (more files : list SourceFile) :
  fold_left add_source_file more (grouped files) = grouped (files ++ more).
Proof.
  revert files. induction more as [|sf more IH]; intros files; simpl.
  - rewrite app_nil_r. reflexivity.
  - rewrite add_source_file_grouped, IH, <- app_assoc. reflexivity.
Qed.

Lemma scan_and_group_grouped (fs : fsys) (source_dir : path)
  (pattern : string) (r : Re.regex) (items : list string) :
  re_compile pattern = Ok r ->
  iterdir fs source_dir = Ok items ->
  scan_and_group fs source_dir pattern =
    Ok (grouped (matched fs source_dir pattern items)).
Proof.
  intros Hc Hi. unfold scan_and_group. rewrite Hi.
  change (@nil (string * FileGroup)) with (to_dict []).
  rewrite (scan_items_fold _ _ _ r) by exact Hc.
  rewrite dict_values_to_dict.
  change (@nil FileGroup) with (grouped []).
  rewrite fold_add_grouped. reflexivity.
Qed.

(** C7.  On a readable directory and with a valid pattern, [scan_and_group]
    returns one group per identifier in order of first appearance in the
    scan; a group holds, in scan order, the regular files whose name gave
    that identifier; entries that are not regular files and names that do
    not match are in no group. *)
Theorem scan_and_group_is_grouped (fs : fsys) (source_dir : path)
  (pattern : string) (r : Re.regex) (items : list string) :
  re_compile pattern = Ok r ->
  iterdir fs source_dir = Ok items ->
  scan_and_group fs source_dir pattern =
    Ok (grouped (matched fs source_dir pattern items)).
Proof. apply scan_and_group_grouped. Qed.

Lemma scan_and_group_NoDup (fs : fsys) (source_dir : path) (pattern : string)
  (r : Re.regex) (groups : list FileGroup) :
  re_compile pattern = Ok r ->
  scan_and_group fs source_dir pattern = Ok groups ->
  List.NoDup (map fg_name groups).
Proof.
  intros Hc Hs.
  destruct (iterdir fs source_dir) as [items|e] eqn:Hi.
  - rewrite (scan_and_group_grouped _ _ _ _ _ Hc Hi) in Hs. injection Hs as <-.
    unfold grouped. rewrite map_map. simpl. rewrite map_id.
    apply NoDup_ListNoDup, first_seen_NoDup.
  - unfold scan_and_group in Hs. rewrite Hi in Hs. discriminate.
Qed.

(** ** Searching: the matcher against the meaning of patterns *)

Section MatcherFacts.

Variable s : list ascii.

Lemma span_bounds (r : Re.regex) (i j : nat) :
  Re.span s r i j -> i <= j /\ j <= length s.
Proof.
  induction 1; try lia.
  assert (i < length s) by (apply nth_error_Some; congruence). lia.
Qed.

Lemma orelse_some {A} (x y : option A) (e : A) :
  Re.orelse x y = Some e -> x = Some e \/ (x = None /\ y = Some e).
Proof. destruct x; simpl; intros H; [left; exact H|right; auto]. Qed.

(** Soundness of a repetition, given the soundness of its body. *)
Lemma star_loop_sound (g : bool) (r : Re.regex) (k : nat -> option nat) :
  (forall i k e, i <= length s -> Re.match_at s r i k = Some e ->
                 exists j, Re.span s r i j /\ k j = Some e) ->
  forall n i e, i <= length s ->
    Re.star_loop (Re.match_at s r) g k n i = Some e ->
    exists j, Re.span s (Re.Star g r) i j /\ k j = Some e.
Proof.
  intros Hbody. induction n as [|n IH]; intros i e Hi; simpl.
  - intros H. exists i. split; [constructor; exact Hi|exact H].
  - assert (Hiter : forall e,
      Re.match_at s r i
        (fun j => if i <? j then Re.star_loop (Re.match_at s r) g k n j else k j)
      = Some e ->
      exists j, Re.span s (Re.Star g r) i j /\ k j = Some e).
    { intros e0 H. apply Hbody in H as (j & Hj & Hk); [|exact Hi].
      pose proof (span_bounds _ _ _ Hj) as [_ Hjs].
      destruct (i <? j).
      - apply IH in Hk as (l & Hl & Hk); [|exact Hjs].
        exists l. split; [econstructor; eauto|exact Hk].
      - exists j. split; [|exact Hk].
        eapply Re.span_star_cons; [exact Hj|]. constructor. exact Hjs. }
    assert (Hstop : forall e, k i = Some e ->
      exists j, Re.span s (Re.Star g r) i j /\ k j = Some e).
    { intros e0 H. exists i. split; [constructor; exact Hi|exact H]. }
    destruct g; intros H; apply orelse_some in H as [H|[_ H]]; auto.
Qed.

Lemma match_at_sound (r : Re.regex) :
  forall i k e, i <= length s -> Re.match_at s r i k = Some e ->
                exists j, Re.span s r i j /\ k j = Some e.
Proof.
  induction r as [|cs| | |r1 IH1 r2 IH2|r1 IH1 r2 IH2|g r IH]; intros i k e Hi; simpl.
  - intros H. exists i. split; [constructor; exact Hi|exact H].
  - destruct (nth_error s i) as [c|] eqn:Hc; [|discriminate].
    destruct (Re.cset_mem cs c) eqn:Hm; [|discriminate].
    intros H. exists (S i). split; [econstructor; eauto|exact H].
  - destruct (i =? 0) eqn:E; [|discriminate].
    apply Nat.eqb_eq in E. subst i.
    intros H. exists 0. split; [constructor|exact H].
  - destruct (Re.at_eol s i) eqn:E; [|discriminate].
    intros H. exists i. split; [constructor; auto|exact H].
  - intros H. apply IH1 in H as (j & Hj & H); [|exact Hi].
    apply IH2 in H as (l & Hl & H); [|apply span_bounds in Hj; lia].
    exists l. split; [econstructor; eauto|exact H].
  - intros H. apply orelse_some in H as [H|[_ H]].
    + apply IH1 in H as (j & Hj & H); [|exact Hi].
      exists j. split; [apply Re.span_alt_l; exact Hj|exact H].
    + apply IH2 in H as (j & Hj & H); [|exact Hi].
      exists j. split; [apply Re.span_alt_r; exact Hj|exact H].
  - apply star_loop_sound; assumption.
Qed.

Lemma orelse_left {A} (x y : option A) (e : A) :
  x = Some e -> exists e', Re.orelse x y = Some e'.
Proof. intros ->. simpl. eauto. Qed.

Lemma orelse_right {A} (x y : option A) (e : A) :
  y = Some e -> exists e', Re.orelse x y = Some e'.
Proof. intros ->. destruct x; simpl; eauto. Qed.

Lemma star_loop_stop (body : nat -> (nat -> option nat) -> option nat)
  (g : bool) (k : nat -> option nat) (n i e : nat) :
  k i = Some e -> exists e', Re.star_loop body g k n i = Some e'.
Proof.
  intros H. destruct n as [|n]; simpl; [eauto|].
  destruct g; [eapply orelse_right|eapply orelse_left]; eauto.
Qed.

Lemma span_complete (r : Re.regex) (i j : nat) :
  Re.span s r i j -> complete s r i j /\ complete_star s r i j.
Proof.
  induction 1 as [i Hi|cs i c Hc Hm| |i Hi He|r1 r2 i j l H1 [IH1 _] H2 [IH2 _]
                 |r1 r2 i j H1 [IH1 _]|r1 r2 i j H2 [IH2 _]
                 |g r i Hi|g r i j l H1 [IH1 _] H2 [IH2 IHs]].
  - split; [|intros g r1 E; discriminate]. intros k e H. simpl. eauto.
  - split; [|intros g r1 E; discriminate]. intros k e H. simpl.
    rewrite Hc, Hm. eauto.
  - split; [|intros g r1 E; discriminate]. intros k e H. simpl. eauto.
  - split; [|intros g r1 E; discriminate]. intros k e H. simpl.
    rewrite He. eauto.
  - split; [|intros g r E; discriminate]. intros k e H. simpl.
    destruct (IH2 k e H) as [e2 H2'].
    exact (IH1 (fun j => Re.match_at s r2 j k) e2 H2').
  - split; [|intros g r E; discriminate]. intros k e H. simpl.
    destruct (IH1 k e H) as [e1 H1']. eapply orelse_left; eauto.
  - split; [|intros g r E; discriminate]. intros k e H. simpl.
    destruct (IH2 k e H) as [e2 H2']. eapply orelse_right; eauto.
  - split.
    + intros k e H. simpl. eapply star_loop_stop; eauto.
    + intros g' r1 E n k e Hn H. eapply star_loop_stop; eauto.
  - assert (Hs : forall n k e, length s - i <= n -> k l = Some e ->
                 exists e', Re.star_loop (Re.match_at s r) g k n i = Some e').
    { intros n k e Hn Hk.
      pose proof (span_bounds _ _ _ H1) as [Hij Hj].
      destruct (decide (i = j)) as [->|Hne].
      - exact (IHs g r eq_refl n k e Hn Hk).
      - destruct n as [|n]; [lia|]. simpl.
        destruct (IHs g r eq_refl n k e ltac:(lia) Hk) as [e2 H2'].
        destruct (IH1 (fun j' => if i <? j'
                                 then Re.star_loop (Re.match_at s r) g k n j'
                                 else k j') e2) as [e1 H1'].
        { replace (i <? j) with true by (symmetry; apply Nat.ltb_lt; lia).
          exact H2'. }
        destruct g; [eapply orelse_left|eapply orelse_right]; eauto. }
    split.
    + intros k e Hk. simpl. eapply Hs; eauto.
    + intros g' r1 E. injection E as <- <-. exact Hs.
Qed.

Lemma match_at_complete (r : Re.regex) (i j : nat) :
  Re.span s r i j -> exists e, Re.match_at s r i Some = Some e.
Proof. intros H. apply span_complete in H as [H _]. eapply (H Some j). reflexivity. Qed.

(** [search_from r n i] examines the start positions [i .. i + n] in order. *)
Lemma search_from_some (r : Re.regex) (n i a b : nat) :
  i <= length s ->
  i + n <= length s ->
  Re.search_from s r n i = Some (a, b) ->
  Re.span s r a b /\ i <= a /\
  (forall a' b', Re.span s r a' b' -> i <= a' -> a <= a').
Proof.
  revert i. induction n as [|n IH]; intros i Hi Hn; simpl;
    destruct (Re.match_at s r i Some) as [j|] eqn:Hm.
  - intros H; injection H as <- <-.
    apply match_at_sound in Hm as (j' & Hj & E); [|exact Hi]. injection E as ->.
    split; [exact Hj|]. split; [lia|]. intros; lia.
  - discriminate.
  - intros H; injection H as <- <-.
    apply match_at_sound in Hm as (j' & Hj & E); [|exact Hi]. injection E as ->.
    split; [exact Hj|]. split; [lia|]. intros; lia.
  - intros H. apply IH in H as (Hs & Ha & Hleft); [|lia|lia].
    split; [exact Hs|]. split; [lia|].
    intros a' b' Hs' Hia'.
    destruct (decide (a' = i)) as [->|Hne].
    + apply match_at_complete in Hs' as [e He]. congruence.
    + apply (Hleft a' b' Hs'). lia.
Qed.

Lemma search_from_none (r : Re.regex) (n i : nat) :
  Re.search_from s r n i = None ->
  forall a b, i <= a -> a <= i + n -> ~ Re.span s r a b.
Proof.
  revert i. induction n as [|n IH]; intros i; simpl;
    destruct (Re.match_at s r i Some) as [j|] eqn:Hm; try discriminate.
  - intros _ a b Hia Han Hs. assert (a = i) by lia. subst a.
    apply match_at_complete in Hs as [e He]. congruence.
  - intros H a b Hia Han Hs.
    destruct (decide (a = i)) as [->|Hne].
    + apply match_at_complete in Hs as [e He]. congruence.
    + apply (IH _ H a b); [lia|lia|exact Hs].
Qed.

(** [re.search] returns a span of the pattern that starts at the leftmost
    position where the pattern matches at all, and nothing exactly when the
    pattern matches nowhere. *)
Lemma search_leftmost (r : Re.regex) :
  match Re.search s r with
  | Some (a, b) =>
      Re.span s r a b /\ forall a' b', Re.span s r a' b' -> a <= a'
  | None => forall a b, ~ Re.span s r a b
  end.
Proof.
  unfold Re.search. destruct (Re.search_from s r (length s) 0) as [[a b]|] eqn:H.
  - apply search_from_some in H as (Hs & _ & Hleft); [|lia|lia].
    split; [exact Hs|]. intros a' b' Hs'. apply (Hleft a' b' Hs'). lia.
  - intros a b Hs. pose proof (span_bounds _ _ _ Hs).
    eapply (search_from_none _ _ _ H a b); [lia|lia|exact Hs].
Qed.

End MatcherFacts.

(** ** pattern_matcher.py: [extract_group] *)

Lemma length_list_ascii (x : string) :
  length (list_ascii_of_string x) = String.length x.
Proof. induction x as [|c x IH]; simpl; [reflexivity|]. rewrite IH. reflexivity. Qed.

Lemma substring_prefix (m : nat) (x : string) :
  m <= String.length x ->
  exists post, x = (substring 0 m x ++ post)%string /\
               String.length (substring 0 m x) = m.
Proof.
  revert x. induction m as [|m IH]; intros x Hm.
  - exists x. destruct x; split; reflexivity.
  - destruct x as [|c x]; simpl in Hm; [lia|].
    destruct (IH x ltac:(lia)) as (post & E & L).
    exists post. simpl. rewrite str_app_cons, <- E, L. split; reflexivity.
Qed.

Lemma substring_inside (n m : nat) (x : string) :
  n + m <= String.length x ->
  exists pre post,
    x = (pre ++ substring n m x ++ post)%string /\
    String.length pre = n /\ String.length (substring n m x) = m.
Proof.
  revert x. induction n as [|n IH]; intros x Hn.
  - destruct (substring_prefix m x ltac:(lia)) as (post & E & L).
    exists "", post. split; [exact E|]. split; [reflexivity|exact L].
  - destruct x as [|c x]; simpl in Hn; [lia|].
    destruct (IH x ltac:(lia)) as (pre & post & E & Lp & L).
    exists (String c pre), post. simpl.
    rewrite str_app_cons, <- E, Lp, L. repeat split; reflexivity.
Qed.

(** C6.  With a valid pattern, [extract_group] always answers; an answer
    [g] is the piece of the file name between two positions [i] and [j]
    that the pattern spans, no span of the pattern starts before [i], and
    the file name is [pre ++ g ++ post] with [pre] of length [i]; the answer
    is none exactly when the pattern spans nothing in the file name. *)
Theorem extract_group_is_leftmost_match
  (filename pattern : string) (r : Re.regex) :
  re_compile pattern = Ok r ->
  (exists o, extract_group filename pattern = Ok o) /\
  (forall g, extract_group filename pattern = Ok (Some g) ->
     exists i j pre post,
       Re.span (list_ascii_of_string filename) r i j /\
       (forall i' j', Re.span (list_ascii_of_string filename) r i' j' -> i <= i') /\
       g = substring i (j - i) filename /\
       filename = (pre ++ g ++ post)%string /\
       String.length pre = i /\ String.length g = j - i) /\
  (extract_group filename pattern = Ok None <->
   forall i j, ~ Re.span (list_ascii_of_string filename) r i j).
Proof.
  intros Hc. unfold extract_group. rewrite Hc.
  pose proof (search_leftmost (list_ascii_of_string filename) r) as Hs.
  destruct (Re.search (list_ascii_of_string filename) r) as [[a b]|].
  - destruct Hs as [Hspan Hleft]. split; [eauto|]. split.
    + intros g H. injection H as <-.
      pose proof (span_bounds _ _ _ _ Hspan) as [Hab Hb].
      rewrite length_list_ascii in Hb.
      destruct (substring_inside a (b - a) filename ltac:(lia))
        as (pre & post & E & Lp & L).
      exists a, b, pre, post. auto 10.
    + split; [discriminate|]. intros H. exfalso. exact (H a b Hspan).
  - split; [eauto|]. split; [discriminate|]. split; auto.
Qed.

(** ** Path resolution *)

Lemma node_at_find (fs : fsys) (k : path) :
  k <> [] -> node_at fs k = find_node fs k.
Proof. destruct k; [contradiction|reflexivity]. Qed.

Lemma walk_snoc (fs : fsys) (o cur : path) (cs : list string) (c : string) :
  walk fs o cur (cs ++ [c]) =
  match walk fs o cur cs with
  | Ok k =>
      match node_at fs k with
      | Some (Dir _) => Ok (step k c)
      | Some (File _ _) => Raise (ENOTDIR o)
      | None => Raise (ENOENT o)
      end
  | Raise e => Raise e
  end.
Proof.
  revert cur. induction cs as [|x cs IH]; intros cur; simpl.
  - destruct (node_at fs cur) as [[d md|md]|]; reflexivity.
  - destruct (node_at fs cur) as [[d md|md]|]; try reflexivity. apply IH.
Qed.

Lemma walk_orig (fs : fsys) (o o' cur : path) (cs : list string) (k : path) :
  walk fs o cur cs = Ok k -> walk fs o' cur cs = Ok k.
Proof.
  revert cur. induction cs as [|x cs IH]; intros cur; simpl; [auto|].
  destruct (node_at fs cur) as [[d md|md]|]; try discriminate. apply IH.
Qed.

Lemma resolve_snoc (fs : fsys) (p : path) (c : string) (k : path) (md : mode) :
  resolve fs p = Ok k -> node_at fs k = Some (Dir md) ->
  resolve fs (p ++ [c]) = Ok (step k c).
Proof.
  unfold resolve. intros Hr Hk. rewrite walk_snoc.
  rewrite (walk_orig _ _ (p ++ [c]) _ _ _ Hr), Hk. reflexivity.
Qed.

Lemma resolve_snoc_inv (fs : fsys) (p : path) (c : string) (k' : path) :
  resolve fs (p ++ [c]) = Ok k' ->
  exists k md, resolve fs p = Ok k /\ node_at fs k = Some (Dir md) /\ k' = step k c.
Proof.
  unfold resolve. rewrite walk_snoc.
  destruct (walk fs (p ++ [c]) [] p) as [k|e] eqn:Hw; [|discriminate].
  destruct (node_at fs k) as [[d md|md]|] eqn:Hk; try discriminate.
  intros H; injection H as <-. exists k, md.
  split; [eapply walk_orig; eauto|]. auto.
Qed.

Lemma step_plain (k : path) (c : string) : plain c -> step k c = k ++ [c].
Proof.
  intros (H1 & H2 & H3). unfold step.
  rewrite decide_False by exact H3.
  rewrite decide_False by (intros [?|?]; contradiction). reflexivity.
Qed.

Lemma join_plain (p : path) (c : string) : plain c -> join p c = p ++ [c].
Proof.
  intros (H1 & H2 & H3). unfold join.
  rewrite decide_False by (intros [?|?]; contradiction). reflexivity.
Qed.

Lemma stat_resolve (fs : fsys) (p : path) (n : node) :
  stat fs p = Ok n <-> exists k, resolve fs p = Ok k /\ node_at fs k = Some n.
Proof.
  unfold stat. destruct (resolve fs p) as [k|e].
  - destruct (node_at fs k) as [n0|] eqn:Hk; split.
    + intros H; injection H as <-. eauto.
    + intros (k' & E & Hn). injection E as <-. congruence.
    + discriminate.
    + intros (k' & E & Hn). injection E as <-. congruence.
  - split; [discriminate|]. intros (k' & E & _). discriminate.
Qed.

Lemma is_dir_resolve (fs : fsys) (p : path) :
  is_dir fs p = true <->
  exists k md, resolve fs p = Ok k /\ node_at fs k = Some (Dir md).
Proof.
  unfold is_dir. destruct (stat fs p) as [[d md|md]|e] eqn:Hs; split;
    try discriminate.
  - intros (k & md' & Hr & Hk).
    assert (stat fs p = Ok (Dir md')) by (apply stat_resolve; eauto). congruence.
  - intros _. apply stat_resolve in Hs as (k & Hr & Hk). eauto.
  - reflexivity.
  - intros (k & md' & Hr & Hk).
    assert (stat fs p = Ok (Dir md')) by (apply stat_resolve; eauto). congruence.
Qed.

Lemma exists_resolve (fs : fsys) (p : path) :
  exists_ fs p = true <->
  exists k n, resolve fs p = Ok k /\ node_at fs k = Some n.
Proof.
  rewrite exists_stat. split.
  - intros (n & H). apply stat_resolve in H as (k & Hr & Hk). eauto.
  - intros (k & n & Hr & Hk). exists n. apply stat_resolve. eauto.
Qed.

Lemma below_dirs_step (fs : fsys) (cur : path) (c : string) (md : mode) :
  below_dirs fs cur -> node_at fs cur = Some (Dir md) ->
  below_dirs fs (step cur c).
Proof.
  intros Hb Hc. unfold step.
  destruct (decide (c = "..")).
  - intros q rest E Hrest.
    destruct cur as [|x cur]; [destruct q, rest; simpl in E; congruence|].
    apply (Hb q (rest ++ [List.last (x :: cur) ""])).
    + rewrite app_assoc, <- E. apply app_removelast_last. discriminate.
    + destruct rest; discriminate.
  - destruct (decide (c = "" \/ c = ".")); [exact Hb|].
    intros q rest E Hrest.
    destruct (exists_last Hrest) as (rest' & x & ->).
    rewrite app_assoc in E. apply app_inj_tail in E as [E _].
    destruct rest' as [|y rest'].
    + rewrite app_nil_r in E. subst q. eauto.
    + apply (Hb q (y :: rest') E). discriminate.
Qed.

Lemma walk_below_dirs (fs : fsys) (o cur : path) (cs : list string) (k : path) :
  below_dirs fs cur -> walk fs o cur cs = Ok k -> below_dirs fs k.
Proof.
  revert cur. induction cs as [|c cs IH]; intros cur Hb; simpl.
  - intros H; injection H as <-. exact Hb.
  - destruct (node_at fs cur) as [[d md|md]|] eqn:Hc; try discriminate.
    apply IH. eapply below_dirs_step; eauto.
Qed.

Lemma resolve_parent_dir (fs : fsys) (p k : path) :
  resolve fs p = Ok k -> exists md, node_at fs (removelast k) = Some (Dir md).
Proof.
  intros H. apply walk_below_dirs in H.
  - destruct k as [|x k]; [simpl; eauto|].
    apply (H (removelast (x :: k)) [List.last (x :: k) ""]); [|discriminate].
    apply app_removelast_last. discriminate.
  - intros q rest E Hrest. destruct q, rest; simpl in E; congruence.
Qed.

(** ** File systems that only grow *)

Lemma children_set_node_other (fs : fsys) (k d : path) (n : node) :
  removelast k <> d -> children (set_node fs k n) d = children fs d.
Proof.
  intros Hk. induction fs as [|[q x] fs IH]; simpl.
  - destruct k; [reflexivity|]. rewrite decide_False by exact Hk. reflexivity.
  - destruct (decide (q = k)) as [->|Hq]; simpl.
    + destruct k; [reflexivity|]. rewrite !decide_False by exact Hk. reflexivity.
    + rewrite IH. reflexivity.
Qed.

Section Evolve.

Variables F U : path -> Prop.

Lemma evolve_trans (fs1 fs2 fs3 : fsys) :
  evolve F U fs1 fs2 -> evolve F U fs2 fs3 -> evolve F U fs1 fs3.
Proof.
  intros H12 H23. induction H23.
  - exact H12.
  - eapply evolve_create; eauto.
  - eapply evolve_update; eauto.
Qed.

Lemma evolve_node_other (fs fs' : fsys) (k : path) :
  evolve F U fs fs' -> ~ F k -> ~ U k -> node_at fs' k = node_at fs k.
Proof.
  intros H HF HU. induction H as [|fs fs' k0 n H IH HF0 Hne Hk0|fs fs' k0 d d' md H IH HU0 Hne Hk0].
  - reflexivity.
  - rewrite node_at_set_node_ne; [exact IH|]. intros ->. contradiction.
  - rewrite node_at_set_node_ne; [exact IH|]. intros ->. contradiction.
Qed.

Lemma evolve_dir (fs fs' : fsys) (k : path) (md : mode) :
  evolve F U fs fs' -> node_at fs k = Some (Dir md) -> node_at fs' k = Some (Dir md).
Proof.
  intros H Hk. induction H as [|fs fs' k0 n H IH HF0 Hne Hk0|fs fs' k0 d d' md0 H IH HU0 Hne Hk0].
  - exact Hk.
  - specialize (IH Hk). rewrite node_at_set_node_ne; [exact IH|].
    intros ->. rewrite node_at_find in IH by exact Hne. congruence.
  - specialize (IH Hk). rewrite node_at_set_node_ne; [exact IH|].
    intros ->. rewrite node_at_find in IH by exact Hne. congruence.
Qed.

Lemma evolve_file (fs fs' : fsys) (k : path) (d : string) (md : mode) :
  evolve F U fs fs' -> node_at fs k = Some (File d md) ->
  exists d', node_at fs' k = Some (File d' md) /\ (~ U k -> d' = d).
Proof.
  intros H Hk. induction H as [|fs fs' k0 n H IH HF0 Hne Hk0|fs fs' k0 d0 d1 md0 H IH HU0 Hne Hk0].
  - eauto.
  - destruct (IH Hk) as (d' & Hd & Hu). exists d'. split; [|exact Hu].
    rewrite node_at_set_node_ne; [exact Hd|].
    intros ->. rewrite node_at_find in Hd by exact Hne. congruence.
  - destruct (IH Hk) as (d' & Hd & Hu).
    destruct (decide (k0 = k)) as [->|Hk0k].
    + rewrite node_at_find in Hd by exact Hne.
      assert (md0 = md) by congruence. subst md0.
      exists d1. rewrite node_at_find by exact Hne.
      rewrite find_node_set_node_eq. split; [reflexivity|]. intros HU. contradiction.
    + exists d'. rewrite node_at_set_node_ne by exact Hk0k. auto.
Qed.

Lemma evolve_bound (fs fs' : fsys) (k : path) (n : node) :
  evolve F U fs fs' -> node_at fs k = Some n -> exists n', node_at fs' k = Some n'.
Proof.
  intros H Hk. destruct n as [d md|md].
  - destruct (evolve_file _ _ _ _ _ H Hk) as (d' & Hd & _). eauto.
  - exists (Dir md). eapply evolve_dir; eauto.
Qed.

Lemma evolve_children (fs fs' : fsys) (d : path) :
  evolve F U fs fs' ->
  (forall k, F k \/ U k -> removelast k <> d) ->
  children fs' d = children fs d.
Proof.
  intros H Hd. induction H as [|fs fs' k0 n H IH HF0 Hne Hk0|fs fs' k0 d0 d1 md0 H IH HU0 Hne Hk0].
  - reflexivity.
  - rewrite children_set_node_other; auto.
  - rewrite children_set_node_other; auto.
Qed.

Lemma evolve_walk (fs fs' : fsys) (o cur : path) (cs : list string) (k : path) :
  evolve F U fs fs' -> walk fs o cur cs = Ok k -> walk fs' o cur cs = Ok k.
Proof.
  intros H. revert cur. induction cs as [|c cs IH]; intros cur; simpl; [auto|].
  destruct (node_at fs cur) as [[d md|md]|] eqn:Hc; try discriminate.
  rewrite (evolve_dir _ _ _ _ H Hc). apply IH.
Qed.

Lemma evolve_resolve (fs fs' : fsys) (p k : path) :
  evolve F U fs fs' -> resolve fs p = Ok k -> resolve fs' p = Ok k.
Proof. intros H. apply evolve_walk. exact H. Qed.

Lemma evolve_is_dir (fs fs' : fsys) (p : path) :
  evolve F U fs fs' -> is_dir fs p = true -> is_dir fs' p = true.
Proof.
  intros H Hd. apply is_dir_resolve in Hd as (k & md & Hr & Hk).
  apply is_dir_resolve. exists k, md. split.
  - eapply evolve_resolve; eauto.
  - eapply evolve_dir; eauto.
Qed.

Lemma evolve_exists (fs fs' : fsys) (p : path) :
  evolve F U fs fs' -> exists_ fs p = true -> exists_ fs' p = true.
Proof.
  intros H Hd. apply exists_resolve in Hd as (k & n & Hr & Hk).
  destruct (evolve_bound _ _ _ _ H Hk) as [n' Hn'].
  apply exists_resolve. exists k, n'. split; [|exact Hn'].
  eapply evolve_resolve; eauto.
Qed.

(** The entries of a directory that no write concerns read the same. *)
Lemma evolve_stat_child (fs fs' : fsys) (folder kf : path) (md : mode) (name : string) :
  evolve F U fs fs' ->
  resolve fs folder = Ok kf -> node_at fs kf = Some (Dir md) ->
  (forall k, F k \/ U k -> removelast k <> kf) ->
  stat fs' (folder ++ [name]) = stat fs (folder ++ [name]).
Proof.
  intros H Hr Hk Hd.
  assert (Hr' : resolve fs' folder = Ok kf) by (eapply evolve_resolve; eauto).
  assert (Hk' : node_at fs' kf = Some (Dir md)) by (eapply evolve_dir; eauto).
  unfold stat.
  rewrite (resolve_snoc _ _ name _ _ Hr Hk), (resolve_snoc _ _ name _ _ Hr' Hk').
  assert (E : node_at fs' (step kf name) = node_at fs (step kf name)).
  { unfold step. destruct (decide (name = "..")).
    - destruct (resolve_parent_dir _ _ _ Hr) as [mdp Hp].
      rewrite Hp. eapply evolve_dir; eauto.
    - destruct (decide (name = "" \/ name = ".")); [congruence|].
      apply evolve_node_other; [exact H| |].
      + intros HF. apply (Hd _ (or_introl HF)). apply removelast_last.
      + intros HU. apply (Hd _ (or_intror HU)). apply removelast_last. }
  rewrite E. destruct (node_at fs (step kf name)); reflexivity.
Qed.

Lemma evolve_add_items (fs fs' : fsys) (folder kf : path) (md : mode)
  (items : list string) (zf : zipfile) :
  evolve F U fs fs' ->
  resolve fs folder = Ok kf -> node_at fs kf = Some (Dir md) ->
  (forall k, F k \/ U k -> removelast k <> kf) ->
  add_items fs' folder items zf = add_items fs folder items zf.
Proof.
  intros H Hr Hk Hd. revert zf. induction items as [|name items IH]; intros zf; simpl.
  - reflexivity.
  - unfold zip_write, is_file, read_file.
    rewrite (evolve_stat_child _ _ _ _ _ name H Hr Hk Hd).
    destruct (stat fs (folder ++ [name])) as [[d m|m]|e]; auto.
    destruct (zip_refuses (folder ++ [name])); [reflexivity|].
    destruct (can_read m); auto.
Qed.

Lemma evolve_add_folder_to_zip (fs fs' : fsys) (folder kf : path) (md : mode)
  (zf : zipfile) :
  evolve F U fs fs' ->
  resolve fs folder = Ok kf -> node_at fs kf = Some (Dir md) ->
  (forall k, F k \/ U k -> removelast k <> kf) ->
  add_folder_to_zip fs' zf folder = add_folder_to_zip fs zf folder.
Proof.
  intros H Hr Hk Hd. unfold add_folder_to_zip, iterdir.
  rewrite Hr, (evolve_resolve _ _ _ _ H Hr), Hk, (evolve_dir _ _ _ _ H Hk).
  rewrite (evolve_children _ _ _ H Hd).
  destruct (can_read md); [|reflexivity].
  eapply evolve_add_items; eauto.
Qed.

End Evolve.

Lemma evolve_mono (F U F' U' : path -> Prop) (fs fs' : fsys) :
  (forall k, F k -> F' k) -> (forall k, U k -> U' k) ->
  evolve F U fs fs' -> evolve F' U' fs fs'.
Proof.
  intros HF HU H. induction H.
  - apply evolve_refl.
  - eapply evolve_create; eauto.
  - eapply evolve_update; eauto.
Qed.

(** ** zip_creator.py *)

Lemma add_items_ok (fs : fsys) (folder : path) (items : list string)
  (zf zf' : zipfile) :
  add_items fs folder items zf = (Ok tt, zf') ->
  zf' = zf ++ flat_map (fun name =>
                          match stat fs (folder ++ [name]) with
                          | Ok (File data _) => [(name, data)]
                          | _ => []
                          end) items.
Proof.
  revert zf. induction items as [|name items IH]; intros zf; simpl.
  - intros H; injection H as <-. rewrite app_nil_r. reflexivity.
  - unfold zip_write, is_file, read_file.
    destruct (stat fs (folder ++ [name])) as [[d m|m]|e]; simpl.
    + destruct (zip_refuses (folder ++ [name])); [discriminate|].
      destruct (can_read m); [|discriminate].
      intros H. apply IH in H. rewrite H, <- app_assoc.
      unfold basename. rewrite last_last. reflexivity.
    + intros H. apply IH in H. exact H.
    + intros H. apply IH in H. exact H.
Qed.

Lemma add_items_succeeds (fs : fsys) (folder : path) (items : list string)
  (zf : zipfile) :
  (forall name data md, In name items ->
     stat fs (folder ++ [name]) = Ok (File data md) -> can_read md = true) ->
  none_refused folder items ->
  exists zf', add_items fs folder items zf = (Ok tt, zf').
Proof.
  revert zf. induction items as [|name items IH]; intros zf Hr Hz; simpl.
  - eauto.
  - assert (Hz' : none_refused folder items)
      by (intros n Hn; apply Hz; right; exact Hn).
    unfold zip_write, is_file, read_file.
    destruct (stat fs (folder ++ [name])) as [[d m|m]|e] eqn:Hs; simpl.
    + rewrite (Hz name (or_introl eq_refl)).
      rewrite (Hr name d m (or_introl eq_refl) Hs).
      apply IH; [|exact Hz']. intros; eapply Hr; eauto. right; assumption.
    + apply IH; [|exact Hz']. intros; eapply Hr; eauto. right; assumption.
    + apply IH; [|exact Hz']. intros; eapply Hr; eauto. right; assumption.
Qed.

Lemma add_folder_to_zip_ok (fs : fsys) (folder : path) (zf : zipfile) :
  add_folder_to_zip fs [] folder = (Ok tt, zf) -> zf = direct_files fs folder.
Proof.
  unfold add_folder_to_zip, direct_files.
  destruct (iterdir fs folder) as [names|e]; [|discriminate].
  intros H. apply add_items_ok in H. exact H.
Qed.

Lemma open_write_shape (truncate : bool) (fs fs1 : fsys) (p kz : path) :
  open_write truncate fs p = Ok (kz, fs1) ->
  resolve fs p = Ok kz /\ kz <> [] /\
  ((find_node fs kz = None /\ dir_writable fs (removelast kz) = true /\
    fs1 = set_node fs kz (File "" rw)) \/
   (exists d md, find_node fs kz = Some (File d md) /\ can_write md = true /\
                 fs1 = if truncate then set_node fs kz (File "" md) else fs)).
Proof.
  unfold open_write. destruct (resolve fs p) as [k|e]; [|discriminate].
  destruct (node_at fs k) as [[d md|md]|] eqn:Hk; [|discriminate|].
  - destruct (can_write md) eqn:Hw; [|discriminate].
    intros H; injection H as <- <-.
    assert (k <> []) by (intros ->; discriminate).
    rewrite node_at_find in Hk by assumption.
    split; [reflexivity|]. split; [assumption|]. right. eauto 10.
  - destruct (dir_writable fs (removelast k)) eqn:Hw; [|discriminate].
    intros H; injection H as <- <-.
    assert (k <> []) by (intros ->; discriminate).
    rewrite node_at_find in Hk by assumption.
    split; [reflexivity|]. split; [assumption|]. left. auto.
Qed.

Lemma open_write_evolve (fs fs1 : fsys) (p kz : path) :
  open_write true fs p = Ok (kz, fs1) ->
  evolve (fun k => k = kz) (fun k => k = kz) fs fs1.
Proof.
  intros H. apply open_write_shape in H as (_ & Hne & [(Hn & _ & ->)|(d & md & Hf & _ & ->)]).
  - eapply evolve_create; [apply evolve_refl|reflexivity|exact Hne|exact Hn].
  - eapply evolve_update; [apply evolve_refl|reflexivity|exact Hne|exact Hf].
Qed.

Lemma evolve_direct_files (F U : path -> Prop) (fs fs' : fsys)
  (folder kf : path) (md : mode) :
  evolve F U fs fs' ->
  resolve fs folder = Ok kf -> node_at fs kf = Some (Dir md) ->
  (forall k, F k \/ U k -> removelast k <> kf) ->
  direct_files fs' folder = direct_files fs folder.
Proof.
  intros H Hr Hk Hd. unfold direct_files, iterdir.
  rewrite Hr, (evolve_resolve _ _ _ _ _ _ H Hr), Hk, (evolve_dir _ _ _ _ _ _ H Hk).
  rewrite (evolve_children _ _ _ _ _ H Hd).
  destruct (can_read md); [|reflexivity].
  induction (map fst (children fs kf)) as [|name names IH]; simpl; [reflexivity|].
  rewrite (evolve_stat_child _ _ _ _ _ _ _ name H Hr Hk Hd), IH. reflexivity.
Qed.

Lemma create_zip_result (fs fs' : fsys) (folder zp : path) :
  create_zip fs folder zp = (Ok tt, fs') ->
  exists kz fs1 md zf,
    open_write true fs zp = Ok (kz, fs1) /\
    find_node fs1 kz = Some (File "" md) /\
    add_folder_to_zip fs1 [] folder = (Ok tt, zf) /\
    fs' = set_node fs kz (File (zip_encode zf) md).
Proof.
  unfold create_zip. destruct (exists_ fs folder); simpl; [|discriminate].
  destruct (open_write true fs zp) as [[kz fs1]|e] eqn:Ho; [|discriminate].
  destruct (add_folder_to_zip fs1 [] folder) as [r zf] eqn:Ha.
  intros H. injection H as -> <-.
  pose proof (open_write_shape _ _ _ _ _ Ho) as (_ & Hne & [(Hn & _ & E)|(d & md & Hf & _ & E)]).
  - exists kz, fs1, rw, zf. subst fs1.
    split; [reflexivity|]. split; [apply find_node_set_node_eq|].
    split; [exact Ha|].
    unfold write_data. rewrite find_node_set_node_eq. apply set_node_set_node.
  - exists kz, fs1, md, zf. subst fs1.
    split; [reflexivity|]. split; [apply find_node_set_node_eq|].
    split; [exact Ha|].
    unfold write_data. rewrite find_node_set_node_eq. apply set_node_set_node.
Qed.

(** C8.  [create_zip] fails with [FileNotFoundError] when the folder does
    not exist.  When it returns, it has written one file, the archive, whose
    members are exactly the regular files directly inside the folder, each
    under its base name with its bytes (none for an empty folder); these
    are the files the folder had before the call unless the archive itself
    lies directly in the folder.  And it does return when the archive can
    be opened, the folder and its regular files can be read, and [zipfile]
    refuses none of them (it refuses a file whose time stamp is before
    1980). *)
Theorem create_zip_archives_direct_files (fs : fsys) (folder_path zip_path : path) :
  (exists_ fs folder_path = false ->
   create_zip fs folder_path zip_path =
     (Raise (FileNotFoundError ("Folder not found: " ++ path_str folder_path)), fs)) /\
  (forall fs', create_zip fs folder_path zip_path = (Ok tt, fs') ->
     exists kz fs1 md,
       open_write true fs zip_path = Ok (kz, fs1) /\
       fs' = set_node fs kz (File (zip_encode (direct_files fs1 folder_path)) md) /\
       (iterdir fs1 folder_path = Ok [] ->
        fs' = set_node fs kz (File (zip_encode []) md))) /\
  (forall kz fs1 kf,
     open_write true fs zip_path = Ok (kz, fs1) ->
     is_dir fs folder_path = true ->
     resolve fs folder_path = Ok kf -> removelast kz <> kf ->
     direct_files fs1 folder_path = direct_files fs folder_path) /\
  (forall kz fs1 names,
     exists_ fs folder_path = true ->
     open_write true fs zip_path = Ok (kz, fs1) ->
     iterdir fs1 folder_path = Ok names ->
     all_readable fs1 folder_path ->
     none_refused folder_path names ->
     exists fs', create_zip fs folder_path zip_path = (Ok tt, fs')).
Proof.
  split; [|split; [|split]].
  - intros He. unfold create_zip. rewrite He. reflexivity.
  - intros fs' H. apply create_zip_result in H as (kz & fs1 & md & zf & Ho & Hf & Ha & ->).
    apply add_folder_to_zip_ok in Ha. subst zf.
    exists kz, fs1, md. split; [exact Ho|]. split; [reflexivity|].
    intros Hi. unfold direct_files. rewrite Hi. reflexivity.
  - intros kz fs1 kf Ho Hd Hr Hk.
    apply is_dir_resolve in Hd as (kf' & md & Hr' & Hkf).
    assert (kf' = kf) by congruence. subst kf'.
    eapply evolve_direct_files;
      [apply (open_write_evolve _ _ _ _ Ho)|exact Hr|exact Hkf|].
    intros k [->| ->]; exact Hk.
  - intros kz fs1 names He Ho Hi Hread Hz.
    unfold create_zip. rewrite He, Ho. simpl.
    unfold add_folder_to_zip. rewrite Hi.
    destruct (add_items_succeeds fs1 folder_path names []) as [zf Hzf].
    { intros name data md Hin Hs. eapply Hread; eauto. }
    { exact Hz. }
    rewrite Hzf. eauto.
Qed.

(** ** Names of folders, archives and the log file *)

Lemma str_length_app (x y : string) :
  String.length (x ++ y)%string = String.length x + String.length y.
Proof.
  induction x as [|c x IH]; [reflexivity|].
  rewrite str_app_cons. simpl. rewrite IH. reflexivity.
Qed.

Lemma plain_zip (g : string) : plain (g ++ ".zip")%string.
Proof.
  assert (L : String.length (g ++ ".zip")%string = String.length g + 4)
    by (apply str_length_app).
  repeat split; intros E; rewrite E in L; simpl in L; lia.
Qed.

Lemma plain_log : plain "photozipper.log".
Proof. repeat split; discriminate. Qed.

Lemma str_app_inv_tail (x y t : string) :
  (x ++ t)%string = (y ++ t)%string -> x = y.
Proof.
  revert y. induction x as [|c x IH]; intros y E.
  - destruct y as [|d y]; [reflexivity|].
    apply (f_equal String.length) in E.
    rewrite !str_length_app in E. simpl in E. lia.
  - destruct y as [|d y].
    + apply (f_equal String.length) in E.
      rewrite !str_length_app in E. simpl in E. lia.
    + rewrite !str_app_cons in E. injection E as -> E. f_equal. auto.
Qed.

Lemma zip_name_not_log (g : string) : (g ++ ".zip")%string <> "photozipper.log".
Proof.
  intros E.
  assert (L : String.length g = 11).
  { apply (f_equal String.length) in E. rewrite str_length_app in E.
    simpl in E. lia. }
  do 11 (destruct g as [|? g]; [discriminate L|]; simpl in L).
  destruct g; [|discriminate L].
  cbv [String.append] in E. discriminate E.
Qed.

Lemma app_cons_ne {A} (l : list A) (x : A) : l <> l ++ [x].
Proof.
  intros E. apply (f_equal (@length A)) in E. rewrite length_app in E.
  simpl in E. lia.
Qed.

Lemma snoc_inj {A} (l : list A) (x y : A) : l ++ [x] = l ++ [y] -> x = y.
Proof. intros E. apply app_inv_head in E. congruence. Qed.

(** ** What the operations of a run write *)

Lemma os_mkdir_shape (fs fs' : fsys) (p : path) :
  os_mkdir fs p = Ok fs' ->
  exists k, resolve fs p = Ok k /\ k <> [] /\ find_node fs k = None /\
            fs' = set_node fs k (Dir rw).
Proof.
  unfold os_mkdir. destruct (resolve fs p) as [k|e]; [|discriminate].
  destruct (node_at fs k) as [n|] eqn:Hn; [discriminate|].
  destruct (dir_writable fs (removelast k)); [|discriminate].
  intros H; injection H as <-. exists k.
  assert (k <> []) by (intros ->; discriminate).
  rewrite node_at_find in Hn by assumption. auto.
Qed.

Lemma mkdir_parents_rev_unfold (fs : fsys) (rp : list string) :
  mkdir_parents_rev fs rp =
  match os_mkdir fs (rev rp) with
  | Ok fs' => Ok fs'
  | Raise (FileNotFoundError q) =>
      match rp with
      | [] => Raise (FileNotFoundError q)
      | _ :: rp' =>
          match mkdir_parents_rev fs rp' with
          | Ok fs1 => mkdir_exist_ok fs1 (rev rp)
          | Raise e => Raise e
          end
      end
  | Raise e => if is_dir fs (rev rp) then Ok fs else Raise e
  end.
Proof. destruct rp; reflexivity. Qed.

Lemma os_mkdir_resolved (fs : fsys) (p k : path) :
  resolve fs p = Ok k ->
  os_mkdir fs p =
  match node_at fs k with
  | Some _ => Raise (EEXIST p)
  | None => if dir_writable fs (removelast k) then Ok (set_node fs k (Dir rw))
            else Raise (EACCES p)
  end.
Proof. intros H. unfold os_mkdir. rewrite H. reflexivity. Qed.

(** Below an existing directory, [mkdir(parents=True, exist_ok=True)] makes
    at most the directory asked for. *)
Lemma mkdir_parents_resolved (fs fs' : fsys) (p k : path) :
  resolve fs p = Ok k -> mkdir_parents fs p = Ok fs' ->
  (fs' = fs /\ exists md, node_at fs k = Some (Dir md)) \/
  (k <> [] /\ find_node fs k = None /\ fs' = set_node fs k (Dir rw)).
Proof.
  intros Hr. unfold mkdir_parents.
  rewrite mkdir_parents_rev_unfold, rev_involutive, (os_mkdir_resolved _ _ _ Hr).
  destruct (node_at fs k) as [n|] eqn:Hn.
  - unfold EEXIST. destruct (is_dir fs p) eqn:Hd; [|discriminate].
    intros H; injection H as <-. left. split; [reflexivity|].
    apply is_dir_resolve in Hd as (k' & md & Hr' & Hk').
    assert (k' = k) by congruence. subst k'. exists md. congruence.
  - destruct (dir_writable fs (removelast k)).
    + intros H; injection H as <-. right.
      assert (k <> []) by (intros ->; discriminate).
      rewrite node_at_find in Hn by assumption. auto.
    + unfold EACCES. destruct (is_dir fs p) eqn:Hd; [|discriminate].
      apply is_dir_resolve in Hd as (k' & md & Hr' & Hk').
      assert (k' = k) by congruence. subst k'. congruence.
Qed.

Lemma mkdir_parents_existing (fs : fsys) (p : path) :
  is_dir fs p = true -> mkdir_parents fs p = Ok fs.
Proof.
  intros Hd. pose proof Hd as Hd'.
  apply is_dir_resolve in Hd' as (k & md & Hr & Hk).
  unfold mkdir_parents.
  rewrite mkdir_parents_rev_unfold, rev_involutive, (os_mkdir_resolved _ _ _ Hr), Hk.
  unfold EEXIST. rewrite Hd. reflexivity.
Qed.

Lemma os_mkdir_evolve (fs fs' : fsys) (p : path) :
  os_mkdir fs p = Ok fs' -> evolve (fun _ => True) (fun _ => False) fs fs'.
Proof.
  intros H. apply os_mkdir_shape in H as (k & _ & Hne & Hk & ->).
  eapply evolve_create; [apply evolve_refl|exact I|exact Hne|exact Hk].
Qed.

Lemma mkdir_exist_ok_evolve (fs fs' : fsys) (p : path) :
  mkdir_exist_ok fs p = Ok fs' -> evolve (fun _ => True) (fun _ => False) fs fs'.
Proof.
  unfold mkdir_exist_ok. destruct (os_mkdir fs p) as [fs1|e] eqn:Hm.
  - intros H; injection H as <-. eapply os_mkdir_evolve; eauto.
  - destruct e; try discriminate;
      (destruct (is_dir fs p); [|discriminate]);
      intros H; injection H as <-; apply evolve_refl.
Qed.

Lemma mkdir_parents_evolve (fs fs' : fsys) (p : path) :
  mkdir_parents fs p = Ok fs' -> evolve (fun _ => True) (fun _ => False) fs fs'.
Proof.
  unfold mkdir_parents. generalize (rev p). intros rp. revert fs fs'.
  induction rp as [|c rp IH]; intros fs fs'; rewrite mkdir_parents_rev_unfold.
  - destruct (os_mkdir fs (rev [])) as [fs1|e] eqn:Hm.
    + intros H; injection H as <-. eapply os_mkdir_evolve; eauto.
    + destruct e; try discriminate;
        (destruct (is_dir fs (rev [])); [|discriminate]);
        intros H; injection H as <-; apply evolve_refl.
  - destruct (os_mkdir fs (rev (c :: rp))) as [fs1|e] eqn:Hm.
    + intros H; injection H as <-. eapply os_mkdir_evolve; eauto.
    + destruct e;
        try ((destruct (is_dir fs (rev (c :: rp))); [|discriminate]);
             intros H; injection H as <-; apply evolve_refl).
      destruct (mkdir_parents_rev fs rp) as [fs1|e1] eqn:Hp; [|discriminate].
      intros H. eapply evolve_trans; [eapply IH; eauto|].
      eapply mkdir_exist_ok_evolve; eauto.
Qed.

Lemma write_data_file (fs : fsys) (k : path) (f : string -> string)
  (d : string) (md : mode) :
  find_node fs k = Some (File d md) ->
  write_data fs k f = set_node fs k (File (f d) md).
Proof. intros H. unfold write_data. rewrite H. reflexivity. Qed.

(** A copy onto a path where nothing exists: either it fails before the
    target is opened and changes nothing, or it creates one regular file,
    with the bytes and the mode that its outcome left there. *)
Lemma copy2_fresh_shape (faults : option fault) (fs fs' : fsys) (src dst : path)
  (r : res unit) :
  copy2 faults fs src dst = (r, fs') -> exists_ fs dst = false ->
  (fs' = fs /\ exists e, r = Raise e) \/
  exists kt data md data' md',
    stat fs src = Ok (File data md) /\ can_read md = true /\
    resolve fs dst = Ok kt /\ kt <> [] /\ find_node fs kt = None /\
    fs' = set_node fs kt (File data' md') /\
    match faults with
    | None => r = Ok tt /\ data' = data /\ md' = md
    | Some (WriteFails written msg) =>
        r = Raise (OSError msg) /\ data' = substring 0 written data /\ md' = rw
    | Some (StatFails mode_copied msg) =>
        r = Raise (OSError msg) /\ data' = data /\
        md' = if mode_copied then md else rw
    end.
Proof.
  intros H He. unfold copy2 in H.
  assert (Hd : is_dir fs dst = false).
  { destruct (is_dir fs dst) eqn:Hd; [|reflexivity].
    apply is_dir_resolve in Hd as (k & md & Hr & Hk).
    assert (exists_ fs dst = true) by (apply exists_resolve; eauto). congruence. }
  rewrite Hd in H.
  destruct (same_file fs src dst); [injection H as <- <-; eauto|].
  unfold read_file in H.
  destruct (stat fs src) as [[data md|md]|e] eqn:Hs;
    [|injection H as <- <-; eauto|injection H as <- <-; eauto].
  destruct (can_read md) eqn:Hread; [|injection H as <- <-; eauto].
  destruct (open_write true fs dst) as [[k fs1]|e] eqn:Ho;
    [|injection H as <- <-; eauto].
  apply open_write_shape in Ho as (Hr & Hne & [(Hn & _ & ->)|(d0 & md0 & Hf & _ & _)]).
  - right.
    assert (Hw : forall f, write_data (set_node fs k (File "" rw)) k f
                           = set_node fs k (File (f "") rw)).
    { intros f. rewrite (write_data_file _ _ _ "" rw) by apply find_node_set_node_eq.
      apply set_node_set_node. }
    assert (Hc : forall d m, chmod (set_node fs k (File d rw)) k m
                             = set_node fs k (File d m)).
    { intros d m. unfold chmod. rewrite find_node_set_node_eq.
      apply set_node_set_node. }
    rewrite !Hw in H.
    destruct faults as [[written msg|[|] msg]|].
    + injection H as <- <-. exists k, data, md, (substring 0 written data), rw. auto 10.
    + rewrite Hc in H. injection H as <- <-. exists k, data, md, data, md. auto 10.
    + injection H as <- <-. exists k, data, md, data, rw. auto 10.
    + rewrite Hc in H. injection H as <- <-. exists k, data, md, data, md. auto 10.
  - exfalso.
    assert (exists_ fs dst = true).
    { apply exists_resolve. exists k, (File d0 md0). split; [exact Hr|].
      rewrite node_at_find by exact Hne. exact Hf. }
    congruence.
Qed.

Lemma copy2_fresh (faults : option fault) (fs fs' : fsys) (src dst : path)
  (r : res unit) :
  copy2 faults fs src dst = (r, fs') -> exists_ fs dst = false ->
  fs' = fs \/
  exists kt data md,
    resolve fs dst = Ok kt /\ kt <> [] /\ find_node fs kt = None /\
    fs' = set_node fs kt (File data md).
Proof.
  intros H He.
  destruct (copy2_fresh_shape _ _ _ _ _ _ H He)
    as [[-> _]|(kt & data & md & data' & md' & _ & _ & Hr & Hne & Hn & -> & _)];
    [left; reflexivity|right; eauto 10].
Qed.

Lemma copy_fresh (fs fs1 : fsys) (source target : path) (r : res bool) :
  copy_file_with_metadata fs source target = (r, fs1) ->
  exists_ fs target = false ->
  fs1 = fs \/
  exists kt data md data' md',
    stat fs source = Ok (File data md) /\ can_read md = true /\
    resolve fs target = Ok kt /\ kt <> [] /\ find_node fs kt = None /\
    fs1 = set_node fs kt (File data' md').
Proof.
  unfold copy_file_with_metadata. intros H He.
  destruct (copy2 (copy_fault fs source target) fs source target)
    as [r2 fs2] eqn:Hcopy.
  assert (fs1 = fs2).
  { destruct r2 as [u|e]; [|destruct (is_OSError e)]; injection H; auto. }
  subst fs2.
  destruct (copy2_fresh_shape _ _ _ _ _ _ Hcopy He)
    as [[-> _]|(kt & data & md & data' & md' & Hs & Hcr & Hr & Hne & Hn & -> & _)];
    [left; reflexivity|right; eauto 12].
Qed.

Lemma read_file_stat (fs : fsys) (p : path) (data : string) (md : mode) :
  read_file fs p = Ok (data, md) <->
  stat fs p = Ok (File data md) /\ can_read md = true.
Proof.
  unfold read_file. destruct (stat fs p) as [[d m|m]|e].
  - destruct (can_read m) eqn:Hr; split.
    + intros H; injection H as <- <-. auto.
    + intros [H _]; injection H as <- <-. reflexivity.
    + discriminate.
    + intros [H Hc]; injection H as <- <-. congruence.
  - split; [discriminate|intros [H _]; discriminate].
  - split; [discriminate|intros [H _]; discriminate].
Qed.

Lemma read_file_OSError (fs : fsys) (p : path) (e : exn) :
  read_file fs p = Raise e -> is_OSError e = true.
Proof.
  unfold read_file. destruct (stat fs p) as [[d m|m]|e0] eqn:Hs.
  - destruct (can_read m); [discriminate|]. intros H; injection H as <-. reflexivity.
  - intros H; injection H as <-. reflexivity.
  - intros H; injection H as <-. eapply stat_OSError; eauto.
Qed.

Lemma resolve_OSError (fs : fsys) (p : path) (e : exn) :
  resolve fs p = Raise e -> is_OSError e = true.
Proof. intros H. apply walk_OSError in H as [->| ->]; reflexivity. Qed.

Lemma open_write_OSError (truncate : bool) (fs : fsys) (p : path) (e : exn) :
  open_write truncate fs p = Raise e -> is_OSError e = true.
Proof.
  unfold open_write. destruct (resolve fs p) as [k|e0] eqn:Hr.
  - destruct (node_at fs k) as [[d md|md]|].
    + destruct (can_write md); [discriminate|]. intros H; injection H as <-. reflexivity.
    + intros H; injection H as <-. reflexivity.
    + destruct (dir_writable fs (removelast k)); [discriminate|].
      intros H; injection H as <-. reflexivity.
  - intros H; injection H as <-. eapply resolve_OSError; eauto.
Qed.

Lemma copy2_OSError (faults : option fault) (fs fs' : fsys) (src dst : path)
  (e : exn) :
  copy2 faults fs src dst = (Raise e, fs') -> is_OSError e = true.
Proof.
  unfold copy2.
  destruct (same_file fs src _); [intros H; injection H as <- _; reflexivity|].
  destruct (read_file fs src) as [[data md]|e0] eqn:Hr.
  - destruct (open_write true fs _) as [[k fs1]|e1] eqn:Ho.
    + destruct faults as [[written msg|mode_copied msg]|];
        intros H; [injection H as <- _; reflexivity
                  |injection H as <- _; reflexivity|discriminate].
    + intros H; injection H as <- _. eapply open_write_OSError; eauto.
  - intros H; injection H as <- _. eapply read_file_OSError; eauto.
Qed.

Lemma copy_result (fs : fsys) (source target : path) :
  copy_file_with_metadata fs source target =
  match copy2 (copy_fault fs source target) fs source target with
  | (Ok _, fs') => (Ok true, fs')
  | (Raise _, fs') => (Ok false, fs')
  end.
Proof.
  unfold copy_file_with_metadata.
  destruct (copy2 (copy_fault fs source target) fs source target)
    as [[u|e] fs'] eqn:Hc; [reflexivity|].
  rewrite (copy2_OSError _ _ _ _ _ _ Hc). reflexivity.
Qed.

(** A source that cannot be read fails the copy before anything is
    written, whatever would go wrong later. *)
Lemma unreadable_source_raises (faults : option fault) (fs : fsys)
  (src dst : path) (e : exn) :
  read_file fs src = Raise e ->
  exists e', copy2 faults fs src dst = (Raise e', fs).
Proof.
  intros H. unfold copy2.
  destruct (same_file fs src _); [eauto|]. rewrite H. eauto.
Qed.

(** ** file_organizer.py and cli.py: a copy that fails *)

(** What a copy onto a path where nothing is leaves, by its outcome: a
    failure before the target was opened leaves nothing, and otherwise the
    target holds what the transfer of the bytes wrote. *)
Lemma copy_outcome (fs fs1 : fsys) (source target : path) (r : res bool) :
  exists_ fs target = false ->
  copy_file_with_metadata fs source target = (r, fs1) ->
  (fs1 = fs /\ r = Ok false) \/
  exists data md data' md',
    stat fs source = Ok (File data md) /\ can_read md = true /\
    stat fs1 source = Ok (File data md) /\
    stat fs1 target = Ok (File data' md') /\
    match copy_fault fs source target with
    | None => r = Ok true /\ data' = data
    | Some (WriteFails written msg) =>
        r = Ok false /\ data' = substring 0 written data
    | Some (StatFails mode_copied msg) => r = Ok false /\ data' = data
    end.
Proof.
  intros He H. rewrite copy_result in H.
  destruct (copy2 (copy_fault fs source target) fs source target)
    as [r2 fs2] eqn:Hc.
  destruct (copy2_fresh_shape _ _ _ _ _ _ Hc He)
    as [[-> [e ->]]|(kt & data & md & data' & md' & Hs & Hcr & Hr & Hne & Hn & -> & Hf)].
  - injection H as <- <-. left. auto.
  - right. exists data, md, data', md'.
    pose proof Hs as Hs0. apply stat_resolve in Hs0 as (ks & Hrs & Hks).
    assert (Hdiff : ks <> kt).
    { intros ->. rewrite node_at_find in Hks by exact Hne. congruence. }
    assert (Hev : evolve (fun _ => True) (fun _ => True) fs
                         (set_node fs kt (File data' md'))).
    { eapply evolve_create; [apply evolve_refl|exact I|exact Hne|exact Hn]. }
    assert (fs1 = set_node fs kt (File data' md')).
    { destruct r2; injection H; auto. }
    subst fs1.
    split; [exact Hs|]. split; [exact Hcr|]. split.
    { apply stat_resolve. exists ks. split; [eapply evolve_resolve; eauto|].
      rewrite node_at_set_node_ne by congruence. exact Hks. }
    split.
    { apply stat_resolve. exists kt. split; [eapply evolve_resolve; eauto|].
      rewrite node_at_find by exact Hne. apply find_node_set_node_eq. }
    destruct (copy_fault fs source target) as [[written msg|mode_copied msg]|].
    + destruct Hf as (-> & -> & _). injection H as <-. auto.
    + destruct Hf as (-> & -> & _). injection H as <-. auto.
    + destruct Hf as (-> & -> & _). injection H as <-. auto.
Qed.

(** C1, as the program has it.  [main] does not read the answer of
    [copy_file_with_metadata]: after a copy that failed ([shutil.copy2]
    raised a permission or input/output error) it goes on to
    [verify_copy], which does not raise here and alone decides.  When it
    answers [False], the error is logged and the run returns 1 at once:
    the files that follow are not processed.  That is so whenever the
    failure left no target (the source cannot be read, the target cannot
    be created: nothing was written) and when the bytes stopped short.
    When it answers [True], the file counts as copied and the run goes on;
    that happens only after a failure of the metadata step, when all the
    bytes are there. *)
Theorem copy_failure_aborts_run
  (a : args) (group_folder : path) (source_file : SourceFile)
  (rest : list SourceFile) (st : state) (fs1 : fsys) :
  dry_run a = false ->
  exists_ (st_fs st) (target_of group_folder source_file) = false ->
  copy_file_with_metadata (st_fs st) (sf_path source_file)
    (target_of group_folder source_file) = (Ok false, fs1) ->
  (exists b, verify_copy fs1 (sf_path source_file)
               (target_of group_folder source_file) = Ok b) /\
  (verify_copy fs1 (sf_path source_file) (target_of group_folder source_file)
     = Ok false ->
   process_files a group_folder (source_file :: rest) st =
     (Return 1, logs ERROR ("Copy verification failed: " ++ sf_name source_file)
                     (set_fs st fs1))) /\
  (verify_copy fs1 (sf_path source_file) (target_of group_folder source_file)
     = Ok true ->
   delete_originals a = false ->
   process_files a group_folder (source_file :: rest) st =
     process_files a group_folder rest
       (count_copied (logs DEBUG ("Copied: " ++ sf_name source_file)
                           (set_fs st fs1)))) /\
  (copy_fault (st_fs st) (sf_path source_file)
              (target_of group_folder source_file) = None \/
   (exists e, read_file (st_fs st) (sf_path source_file) = Raise e) \/
   exists_ fs1 (target_of group_folder source_file) = false ->
   fs1 = st_fs st /\
   verify_copy fs1 (sf_path source_file) (target_of group_folder source_file)
     = Ok false) /\
  (forall written msg data md,
     copy_fault (st_fs st) (sf_path source_file)
                (target_of group_folder source_file)
       = Some (WriteFails written msg) ->
     stat (st_fs st) (sf_path source_file) = Ok (File data md) ->
     written < String.length data ->
     verify_copy fs1 (sf_path source_file) (target_of group_folder source_file)
       = Ok false) /\
  (forall mode_copied msg,
     copy_fault (st_fs st) (sf_path source_file)
                (target_of group_folder source_file)
       = Some (StatFails mode_copied msg) ->
     exists_ fs1 (target_of group_folder source_file) = true ->
     verify_copy fs1 (sf_path source_file) (target_of group_folder source_file)
       = Ok true).
Proof.
  intros Hdry He Hc.
  assert (Hfalse :
            verify_copy fs1 (sf_path source_file)
              (target_of group_folder source_file) = Ok false ->
            process_file a group_folder source_file st =
              (Return 1,
               logs ERROR ("Copy verification failed: " ++ sf_name source_file)
                    (set_fs st fs1))).
  { intros Hv. unfold process_file.
    fold (target_of group_folder source_file).
    unfold handle_merge. rewrite He, Hdry. cbn [negb]. rewrite Hc, Hv.
    reflexivity. }
  assert (Htrue :
            verify_copy fs1 (sf_path source_file)
              (target_of group_folder source_file) = Ok true ->
            delete_originals a = false ->
            process_file a group_folder source_file st =
              (Next, count_copied (logs DEBUG ("Copied: " ++ sf_name source_file)
                                        (set_fs st fs1)))).
  { intros Hv Hdel. unfold process_file.
    fold (target_of group_folder source_file).
    unfold handle_merge. rewrite He, Hdry. cbn [negb]. rewrite Hc, Hv, Hdel.
    reflexivity. }
  assert (Hnone : verify_copy (st_fs st) (sf_path source_file)
                    (target_of group_folder source_file) = Ok false).
  { unfold verify_copy. rewrite He. reflexivity. }
  split; [|split; [|split]].
  - destruct (copy_outcome _ _ _ _ _ He Hc)
      as [[-> _]|(data & md & data' & md' & _ & _ & Hs1 & Ht1 & _)]; [eauto|].
    unfold verify_copy. rewrite Hs1, Ht1.
    destruct (exists_ fs1 (target_of group_folder source_file)); simpl; eauto.
  - intros Hv. simpl. rewrite (Hfalse Hv). reflexivity.
  - intros Hv Hdel. simpl. rewrite (Htrue Hv Hdel). reflexivity.
  - destruct (copy_outcome _ _ _ _ _ He Hc)
      as [[-> _]|(data & md & data' & md' & Hs & Hcr & Hs1 & Ht1 & Hf)].
    + split; [intros _; split; [reflexivity|exact Hnone]|].
      split; [intros; exact Hnone|].
      intros mode_copied msg _ Hx. congruence.
    + assert (Hex : exists_ fs1 (target_of group_folder source_file) = true)
        by (unfold exists_; rewrite Ht1; reflexivity).
      split; [|split].
      * intros [Hn|[[e Hr]|Hx]].
        -- rewrite Hn in Hf. destruct Hf; discriminate.
        -- unfold read_file in Hr. rewrite Hs, Hcr in Hr. discriminate.
        -- congruence.
      * intros written msg data0 md0 Hw Hs0 Hlt.
        rewrite Hw in Hf. destruct Hf as [_ ->].
        assert (data0 = data) by congruence. subst data0.
        destruct (substring_prefix written data ltac:(lia)) as (post & _ & L).
        unfold verify_copy. rewrite Hex, Hs1, Ht1. simpl. rewrite L.
        f_equal. apply Nat.eqb_neq. lia.
      * intros mode_copied msg Hw _.
        rewrite Hw in Hf. destruct Hf as [_ ->].
        unfold verify_copy. rewrite Hex, Hs1, Ht1. simpl.
        rewrite Nat.eqb_refl. reflexivity.
Qed.

(** ** A run that writes: what it leaves behind *)

Section TwoRuns.

Variable a : args.
Variable ko : path.
Variable lg : logger.
Hypothesis Hdry : dry_run a = false.
Hypothesis Hzip : zip_only a = false.
Hypothesis Hdel : delete_originals a = false.
Hypothesis Hlg : file_handler lg = Some (log_key ko).

Lemma log_key_nonempty : log_key ko <> [].
Proof. unfold log_key. destruct ko; discriminate. Qed.

Lemma base_evolve (F U : path -> Prop) (fs fs' : fsys) :
  evolve F U fs fs' -> base (output a) ko fs -> base (output a) ko fs'.
Proof.
  intros H (Hr & [md Hk] & (d & ml & Hl & Hw)). split; [|split].
  - eapply evolve_resolve; eauto.
  - exists md. eapply evolve_dir; eauto.
  - rewrite <- node_at_find in Hl by apply log_key_nonempty.
    destruct (evolve_file _ _ _ _ _ _ _ H Hl) as (d' & Hd' & _).
    rewrite node_at_find in Hd' by apply log_key_nonempty. eauto.
Qed.

Lemma append_log_evolve (text : string) (fs : fsys) :
  base (output a) ko fs ->
  evolve (fun _ => False) (updates ko []) fs (append_log lg text fs).
Proof.
  intros (_ & _ & (d & md & Hl & _)). unfold append_log. rewrite Hlg.
  rewrite (write_data_file _ _ _ _ _ Hl).
  eapply evolve_update; [apply evolve_refl|left; reflexivity|apply log_key_nonempty|exact Hl].
Qed.

Lemma logs_evolve (l : level) (msg : string) (st : state) :
  st_logger st = lg -> base (output a) ko (st_fs st) ->
  evolve (fun _ => False) (updates ko []) (st_fs st) (st_fs (logs l msg st)).
Proof.
  intros Hl Hb. rewrite logs_fs, Hl. apply append_log_evolve. exact Hb.
Qed.

Lemma logged_evolve (st st' : state) :
  st_logger st = lg -> base (output a) ko (st_fs st) -> logged st st' ->
  evolve (fun _ => False) (updates ko []) (st_fs st) (st_fs st').
Proof.
  intros Hl Hb [_ [text ->]]. rewrite Hl. apply append_log_evolve. exact Hb.
Qed.

Lemma resolve_folder (fs : fsys) (g : string) :
  base (output a) ko fs -> plain g ->
  resolve fs (output a ++ [g]) = Ok (folder_key ko g).
Proof.
  intros (Hr & [md Hk] & _) Hg.
  rewrite (resolve_snoc _ _ g _ _ Hr Hk), step_plain by exact Hg. reflexivity.
Qed.

Lemma resolve_zip (fs : fsys) (g : string) :
  base (output a) ko fs ->
  resolve fs (output a ++ [(g ++ ".zip")%string]) = Ok (zip_key ko g).
Proof.
  intros (Hr & [md Hk] & _).
  rewrite (resolve_snoc _ _ _ _ _ Hr Hk), step_plain by apply plain_zip. reflexivity.
Qed.

Lemma resolve_target (fs : fsys) (g name : string) (md : mode) :
  base (output a) ko fs -> plain g -> plain name ->
  node_at fs (folder_key ko g) = Some (Dir md) ->
  resolve fs ((output a ++ [g]) ++ [name]) = Ok (target_key ko g name).
Proof.
  intros Hb Hg Hn Hd.
  rewrite (resolve_snoc _ _ name _ _ (resolve_folder _ _ Hb Hg) Hd).
  rewrite step_plain by exact Hn.
  unfold folder_key, target_key. rewrite <- app_assoc. reflexivity.
Qed.

Lemma removelast_target (g name : string) :
  removelast (target_key ko g name) = folder_key ko g.
Proof.
  unfold target_key, folder_key.
  change [g; name] with ([g] ++ [name]). rewrite app_assoc. apply removelast_last.
Qed.

Lemma weaken_log_evolve (gs : list string) (fs fs' : fsys) :
  evolve (fun _ => False) (updates ko []) fs fs' ->
  evolve (creates ko gs) (updates ko gs) fs fs'.
Proof.
  apply evolve_mono; [contradiction|].
  intros k [->|(g & [] & _)]. left; reflexivity.
Qed.

Lemma create_folder_first (fs fs' : fsys) (g : string) :
  base (output a) ko fs -> plain g ->
  create_folder fs (join (output a) g) = Ok fs' ->
  evolve (creates ko [g]) (updates ko [g]) fs fs' /\
  exists md, node_at fs' (folder_key ko g) = Some (Dir md).
Proof.
  intros Hb Hg. rewrite join_plain by exact Hg. unfold create_folder. intros H.
  destruct (mkdir_parents_resolved _ _ _ _ (resolve_folder _ _ Hb Hg) H)
    as [(-> & md & Hd)|(Hne & Hn & ->)].
  - split; [apply evolve_refl|eauto].
  - split.
    + eapply evolve_create; [apply evolve_refl| |exact Hne|exact Hn].
      exists g. split; [left; reflexivity|]. left; reflexivity.
    + exists rw. rewrite node_at_find by exact Hne. apply find_node_set_node_eq.
Qed.

Lemma exists_target (fs : fsys) (g name : string) (md : mode) :
  base (output a) ko fs -> plain g -> plain name ->
  node_at fs (folder_key ko g) = Some (Dir md) ->
  exists_ fs ((output a ++ [g]) ++ [name]) = true ->
  exists n, node_at fs (target_key ko g name) = Some n.
Proof.
  intros Hb Hg Hn Hd He. apply exists_resolve in He as (k & n & Hr & Hk).
  rewrite (resolve_target _ _ _ _ Hb Hg Hn Hd) in Hr. injection Hr as <-. eauto.
Qed.

Lemma process_file_first (g : string) (sf : SourceFile) (st st' : state) (md : mode) :
  st_logger st = lg -> base (output a) ko (st_fs st) ->
  plain g -> plain (sf_name sf) ->
  node_at (st_fs st) (folder_key ko g) = Some (Dir md) ->
  process_file a (output a ++ [g]) sf st = (Next, st') ->
  st_logger st' = lg /\
  evolve (creates ko [g]) (updates ko [g]) (st_fs st) (st_fs st') /\
  exists n, node_at (st_fs st') (target_key ko g (sf_name sf)) = Some n.
Proof.
  intros Hl Hb Hg Hn Hd. unfold process_file.
  rewrite join_plain by exact Hn. unfold handle_merge.
  destruct (exists_ (st_fs st) ((output a ++ [g]) ++ [sf_name sf])) eqn:He; simpl.
  - intros H; injection H as <-.
    pose proof (weaken_log_evolve [g] _ _
                  (logs_evolve INFO ("Skipping duplicate: " ++ sf_name sf) st Hl Hb)) as Hev.
    split; [exact Hl|]. split; [exact Hev|].
    destruct (exists_target _ _ _ _ Hb Hg Hn Hd He) as [n Hk].
    eapply evolve_bound; eauto.
  - rewrite Hdry.
    destruct (copy_file_with_metadata (st_fs st) (sf_path sf)
                ((output a ++ [g]) ++ [sf_name sf])) as [[b|e] fs1] eqn:Hc;
      [|discriminate].
    destruct (verify_copy fs1 (sf_path sf) ((output a ++ [g]) ++ [sf_name sf]))
      as [[|]|e] eqn:Hv; try discriminate.
    rewrite Hdel. intros H; injection H as <-.
    assert (Hev1 : evolve (creates ko [g]) (updates ko [g]) (st_fs st) fs1).
    { destruct (copy_fresh _ _ _ _ _ Hc He)
        as [->|(kt & data & mdt & data' & mdt' & _ & _ & Hr & Hne & Hnone & ->)];
        [apply evolve_refl|].
      rewrite (resolve_target _ _ _ _ Hb Hg Hn Hd) in Hr. injection Hr as <-.
      eapply evolve_create; [apply evolve_refl| |exact Hne|exact Hnone].
      exists g. split; [left; reflexivity|]. right; left. apply removelast_target. }
    assert (Hb1 : base (output a) ko fs1) by (eapply base_evolve; eauto).
    assert (Hex : exists_ fs1 ((output a ++ [g]) ++ [sf_name sf]) = true).
    { unfold verify_copy in Hv.
      destruct (exists_ fs1 ((output a ++ [g]) ++ [sf_name sf])); [reflexivity|].
      discriminate. }
    assert (Hd1 : node_at fs1 (folder_key ko g) = Some (Dir md))
      by (eapply evolve_dir; eauto).
    destruct (exists_target _ _ _ _ Hb1 Hg Hn Hd1 Hex) as [n Hk].
    pose proof (weaken_log_evolve [g] _ _
                  (logs_evolve DEBUG ("Copied: " ++ sf_name sf) (set_fs st fs1) Hl Hb1))
      as Hev2.
    split; [exact Hl|]. split.
    + eapply evolve_trans; [exact Hev1|exact Hev2].
    + eapply evolve_bound; [exact Hev2|exact Hk].
Qed.

Lemma process_files_first (g : string) (files : list SourceFile) (st st' : state)
  (md : mode) :
  st_logger st = lg -> base (output a) ko (st_fs st) ->
  plain g -> (forall sf, In sf files -> plain (sf_name sf)) ->
  node_at (st_fs st) (folder_key ko g) = Some (Dir md) ->
  process_files a (output a ++ [g]) files st = (Next, st') ->
  st_logger st' = lg /\
  evolve (creates ko [g]) (updates ko [g]) (st_fs st) (st_fs st') /\
  forall sf, In sf files ->
    exists n, node_at (st_fs st') (target_key ko g (sf_name sf)) = Some n.
Proof.
  intros Hl Hb Hg. revert st Hl Hb.
  induction files as [|sf files IH]; intros st Hl Hb Hn Hd; simpl.
  - intros H; injection H as <-. split; [exact Hl|]. split; [apply evolve_refl|].
    intros sf [].
  - destruct (process_file a (output a ++ [g]) sf st) as [c st1] eqn:Hf.
    destruct c; try discriminate.
    destruct (process_file_first _ _ _ _ _ Hl Hb Hg (Hn sf (or_introl eq_refl)) Hd Hf)
      as (Hl1 & Hev1 & Hk1).
    intros H.
    destruct (IH st1 Hl1 (base_evolve _ _ _ _ Hev1 Hb)
                 (fun s Hs => Hn s (or_intror Hs))
                 (evolve_dir _ _ _ _ _ _ Hev1 Hd) H) as (Hl2 & Hev2 & Hk2).
    split; [exact Hl2|]. split; [eapply evolve_trans; eauto|].
    intros s [<-|Hs]; [|auto].
    destruct Hk1 as [n Hk1]. eapply evolve_bound; eauto.
Qed.

Lemma folder_ne_out (g : string) : ko <> folder_key ko g.
Proof. apply app_cons_ne. Qed.

Lemma removelast_zip (g : string) : removelast (zip_key ko g) = ko.
Proof. apply removelast_last. Qed.

Lemma removelast_folder (g : string) : removelast (folder_key ko g) = ko.
Proof. apply removelast_last. Qed.

Lemma removelast_log : removelast (log_key ko) = ko.
Proof. apply removelast_last. Qed.

Lemma create_zip_first (fs fs' : fsys) (g : string) (md : mode) :
  base (output a) ko fs -> plain g ->
  node_at fs (folder_key ko g) = Some (Dir md) ->
  create_zip fs (output a ++ [g]) (output a ++ [(g ++ ".zip")%string]) = (Ok tt, fs') ->
  evolve (creates ko [g]) (updates ko [g]) fs fs' /\
  exists zf mz,
    find_node fs' (zip_key ko g) = Some (File (zip_encode zf) mz) /\
    can_write mz = true /\
    add_folder_to_zip fs' [] (output a ++ [g]) = (Ok tt, zf).
Proof.
  intros Hb Hg Hd H.
  apply create_zip_result in H as (kz & fs1 & mz & zf & Ho & Hf1 & Ha & ->).
  pose proof (open_write_shape _ _ _ _ _ Ho) as (Hr & Hne & Hshape).
  rewrite (resolve_zip _ g Hb) in Hr. injection Hr as <-.
  assert (Hev1 : evolve (fun k => k = zip_key ko g) (fun k => k = zip_key ko g) fs fs1)
    by (apply (open_write_evolve _ _ _ _ Ho)).
  assert (Hfs1 : fs1 = set_node fs (zip_key ko g) (File "" mz) /\ can_write mz = true /\
                 evolve (creates ko [g]) (updates ko [g]) fs
                        (set_node fs (zip_key ko g) (File (zip_encode zf) mz))).
  { destruct Hshape as [(Hn & _ & E)|(d & m & Hf & Hw & E)]; subst fs1.
    - rewrite find_node_set_node_eq in Hf1. injection Hf1 as <-.
      split; [reflexivity|]. split; [reflexivity|].
      eapply evolve_create; [apply evolve_refl| |exact Hne|exact Hn].
      exists g. split; [left; reflexivity|]. right; right; reflexivity.
    - rewrite find_node_set_node_eq in Hf1. injection Hf1 as <-.
      split; [reflexivity|]. split; [exact Hw|].
      eapply evolve_update; [apply evolve_refl| |exact Hne|exact Hf].
      right. exists g. split; [left; reflexivity|reflexivity]. }
  destruct Hfs1 as (E1 & Hw & Hev).
  split; [exact Hev|].
  exists zf, mz. split; [apply find_node_set_node_eq|]. split; [exact Hw|].
  etransitivity; [|exact Ha].
  assert (Hev2 : evolve (fun _ => False) (fun k => k = zip_key ko g) fs1
                        (set_node fs (zip_key ko g) (File (zip_encode zf) mz))).
  { rewrite <- (set_node_set_node fs (zip_key ko g) (File "" mz)), <- E1.
    eapply evolve_update; [apply evolve_refl|reflexivity|exact Hne|exact Hf1]. }
  eapply (evolve_add_folder_to_zip _ _ _ _ _ _ md _ Hev2).
  - eapply evolve_resolve; [exact Hev1|]. apply resolve_folder; assumption.
  - eapply evolve_dir; [exact Hev1|exact Hd].
  - intros k [[]| ->]. rewrite removelast_zip. apply folder_ne_out.
Qed.

Lemma done_group_stable (F U : path -> Prop) (fs fs' : fsys) (g : FileGroup) :
  evolve F U fs fs' -> base (output a) ko fs -> plain (fg_name g) ->
  (forall k, F k \/ U k -> removelast k <> folder_key ko (fg_name g)) ->
  ~ U (zip_key ko (fg_name g)) ->
  done_group (output a) ko fs g -> done_group (output a) ko fs' g.
Proof.
  intros Hev Hb Hg Hrm Hu ([md Hd] & Hfiles & (zf & mz & Hz & Hw & Ha)).
  split; [|split].
  - exists md. eapply evolve_dir; eauto.
  - intros sf Hsf. destruct (Hfiles sf Hsf) as [n Hn]. eapply evolve_bound; eauto.
  - exists zf, mz.
    assert (Hzne : zip_key ko (fg_name g) <> []) by (unfold zip_key; destruct ko; discriminate).
    rewrite <- node_at_find in Hz by exact Hzne.
    destruct (evolve_file _ _ _ _ _ _ _ Hev Hz) as (d' & Hd' & Hsame).
    rewrite (Hsame Hu) in Hd'. rewrite node_at_find in Hd' by exact Hzne.
    split; [exact Hd'|]. split; [exact Hw|].
    etransitivity; [|exact Ha].
    eapply (evolve_add_folder_to_zip _ _ _ _ _ _ md _ Hev);
      [apply resolve_folder; assumption|exact Hd|exact Hrm].
Qed.

Lemma process_group_first (g : FileGroup) (st st' : state) :
  st_logger st = lg -> base (output a) ko (st_fs st) ->
  plain (fg_name g) -> (forall sf, In sf (fg_files g) -> plain (sf_name sf)) ->
  process_group a (output a) g st = (Next, st') ->
  st_logger st' = lg /\
  evolve (creates ko [fg_name g]) (updates ko [fg_name g]) (st_fs st) (st_fs st') /\
  done_group (output a) ko (st_fs st') g.
Proof.
  intros Hl Hb Hg Hn. unfold process_group. rewrite Hdry. cbn [negb].
  rewrite !join_plain by (first [exact Hg|apply plain_zip]).
  set (st0 := logs INFO _ st).
  assert (Hev0 : evolve (creates ko [fg_name g]) (updates ko [fg_name g])
                        (st_fs st) (st_fs st0))
    by (apply weaken_log_evolve, logs_evolve; assumption).
  assert (Hb0 : base (output a) ko (st_fs st0)) by (eapply base_evolve; eauto).
  assert (Hl0 : st_logger st0 = lg) by exact Hl.
  clearbody st0.
  destruct (create_folder (st_fs st0) (output a ++ [fg_name g])) as [fs1|e] eqn:Hc;
    [|discriminate].
  rewrite <- (join_plain _ _ Hg) in Hc.
  apply create_folder_first in Hc as (Hev1 & [md Hd1]); [|exact Hb0|exact Hg].
  set (st1 := logs DEBUG _ (set_fs st0 fs1)).
  assert (Hb1' : base (output a) ko fs1) by (eapply base_evolve; eauto).
  assert (Hev1' : evolve (creates ko [fg_name g]) (updates ko [fg_name g])
                         fs1 (st_fs st1))
    by (apply weaken_log_evolve, (logs_evolve _ _ (set_fs st0 fs1)); assumption).
  assert (Hb1 : base (output a) ko (st_fs st1)) by (eapply base_evolve; eauto).
  assert (Hl1 : st_logger st1 = lg) by exact Hl0.
  assert (Hd1' : node_at (st_fs st1) (folder_key ko (fg_name g)) = Some (Dir md))
    by (eapply evolve_dir; eauto).
  clearbody st1.
  destruct (process_files a (output a ++ [fg_name g]) (fg_files g) st1)
    as [c st2] eqn:Hf.
  destruct c; try (intros H; discriminate H).
  destruct (process_files_first _ _ _ _ _ Hl1 Hb1 Hg Hn Hd1' Hf) as (Hl2 & Hev2 & Hk2).
  assert (Hb2 : base (output a) ko (st_fs st2)) by (eapply base_evolve; eauto).
  assert (Hd2 : node_at (st_fs st2) (folder_key ko (fg_name g)) = Some (Dir md))
    by (eapply evolve_dir; eauto).
  destruct (create_zip (st_fs st2) (output a ++ [fg_name g])
              (output a ++ [(fg_name g ++ ".zip")%string])) as [[[]|e] fs3] eqn:Hz;
    [|intros H; discriminate H].
  rewrite Hzip. intros H; injection H as <-.
  apply create_zip_first with (md := md) in Hz as (Hev3 & (zf & mz & Hzf & Hw & Ha));
    [|exact Hb2|exact Hg|exact Hd2].
  assert (Hb3 : base (output a) ko fs3) by (eapply base_evolve; eauto).
  set (st3 := logs INFO _ (set_fs st2 fs3)).
  assert (Hev3' : evolve (fun _ => False) (updates ko []) fs3 (st_fs st3))
    by (apply (logs_evolve _ _ (set_fs st2 fs3)); assumption).
  split; [exact Hl2|]. split.
  - eapply evolve_trans; [exact Hev0|].
    eapply evolve_trans; [exact Hev1|].
    eapply evolve_trans; [exact Hev1'|].
    eapply evolve_trans; [exact Hev2|].
    eapply evolve_trans; [exact Hev3|].
    apply weaken_log_evolve. exact Hev3'.
  - eapply (done_group_stable _ _ _ _ _ Hev3' Hb3 Hg).
    + intros k [[]|[->|(x & [] & _)]]. rewrite removelast_log. apply folder_ne_out.
    + intros [E|(x & [] & _)]. unfold zip_key, log_key in E.
      apply snoc_inj in E. exact (zip_name_not_log _ E).
    + split; [|split].
      * exists md. eapply evolve_dir; [exact Hev3|exact Hd2].
      * intros sf Hsf. destruct (Hk2 sf Hsf) as [n Hk].
        eapply evolve_bound; [exact Hev3|exact Hk].
      * eauto.
Qed.

Lemma other_groups_avoid (g : string) (gs : list string) :
  ~ In g gs ->
  (forall k, creates ko gs k \/ updates ko gs k -> removelast k <> folder_key ko g) /\
  ~ updates ko gs (zip_key ko g).
Proof.
  intros Hg. split.
  - intros k [(g' & Hin & [->|[E| ->]])|[->|(g' & Hin & ->)]].
    + rewrite removelast_folder. apply folder_ne_out.
    + rewrite E. intros E'. apply snoc_inj in E'. congruence.
    + rewrite removelast_zip. apply folder_ne_out.
    + rewrite removelast_log. apply folder_ne_out.
    + rewrite removelast_zip. apply folder_ne_out.
  - intros [E|(g' & Hin & E)].
    + apply snoc_inj in E. exact (zip_name_not_log _ E).
    + apply snoc_inj, str_app_inv_tail in E. congruence.
Qed.

Lemma creates_mono (gs gs' : list string) (k : path) :
  (forall g, In g gs -> In g gs') -> creates ko gs k -> creates ko gs' k.
Proof. intros H (g & Hg & Hk). exists g. auto. Qed.

Lemma updates_mono (gs gs' : list string) (k : path) :
  (forall g, In g gs -> In g gs') -> updates ko gs k -> updates ko gs' k.
Proof. intros H [->|(g & Hg & Hk)]; [left; reflexivity|right; eauto]. Qed.

Lemma process_groups_first (groups : list FileGroup) (st st' : state) :
  st_logger st = lg -> base (output a) ko (st_fs st) ->
  plain_names groups -> List.NoDup (map fg_name groups) ->
  process_groups a (output a) groups st = (Next, st') ->
  st_logger st' = lg /\
  evolve (creates ko (map fg_name groups)) (updates ko (map fg_name groups))
         (st_fs st) (st_fs st') /\
  forall g, In g groups -> done_group (output a) ko (st_fs st') g.
Proof.
  revert st. induction groups as [|g groups IH]; intros st Hl Hb Hp Hnd; simpl.
  - intros H; injection H as <-. split; [exact Hl|]. split; [apply evolve_refl|].
    intros g [].
  - destruct (process_group a (output a) g st) as [c st1] eqn:Hg.
    destruct c; try discriminate.
    destruct (Hp g (or_introl eq_refl)) as [Hpg Hpf].
    destruct (process_group_first _ _ _ Hl Hb Hpg Hpf Hg) as (Hl1 & Hev1 & Hd1).
    assert (Hb1 : base (output a) ko (st_fs st1)) by (eapply base_evolve; eauto).
    apply List.NoDup_cons_iff in Hnd as [Hnin Hnd].
    intros H.
    destruct (IH st1 Hl1 Hb1 (fun x Hx => Hp x (or_intror Hx)) Hnd H)
      as (Hl2 & Hev2 & Hd2).
    split; [exact Hl2|]. split.
    + eapply evolve_trans.
      * eapply evolve_mono; [| |exact Hev1]; intros k.
        -- apply creates_mono. intros x [<-|[]]. left; reflexivity.
        -- apply updates_mono. intros x [<-|[]]. left; reflexivity.
      * eapply evolve_mono; [| |exact Hev2]; intros k.
        -- apply creates_mono. intros x Hx. right; exact Hx.
        -- apply updates_mono. intros x Hx. right; exact Hx.
    + intros x [<-|Hx]; [|auto].
      destruct (other_groups_avoid _ _ Hnin) as [Hrm Hu].
      eapply done_group_stable; [exact Hev2|exact Hb1|exact Hpg|exact Hrm|exact Hu|exact Hd1].
Qed.

(** ** The run after: everything is already there *)

Lemma only_logged_logs (fs1 : fsys) (l : level) (msg : string) (st : state) :
  only_logged lg fs1 st -> only_logged lg fs1 (logs l msg st).
Proof.
  intros [Hl [text Ht]]. split; [exact Hl|].
  exists (text ++ record_line l msg)%string.
  rewrite logs_fs, Ht, Hl. apply append_log_app.
Qed.

Lemma only_logged_same (fs1 : fsys) (st st' : state) :
  st_logger st' = st_logger st -> st_fs st' = st_fs st ->
  only_logged lg fs1 st -> only_logged lg fs1 st'.
Proof. intros Hl Hf [Hl0 [text Ht]]. split; [congruence|]. exists text. congruence. Qed.

Lemma only_logged_evolve (fs1 : fsys) (st : state) :
  base (output a) ko fs1 -> only_logged lg fs1 st ->
  evolve (fun _ => False) (updates ko []) fs1 (st_fs st).
Proof. intros Hb [_ [text ->]]. apply append_log_evolve. exact Hb. Qed.

Lemma log_avoids_group (g : string) :
  (forall k, False \/ updates ko [] k -> removelast k <> folder_key ko g) /\
  ~ updates ko [] (zip_key ko g).
Proof.
  split.
  - intros k [[]|[->|(x & [] & _)]]. rewrite removelast_log. apply folder_ne_out.
  - intros [E|(x & [] & _)]. apply snoc_inj in E. exact (zip_name_not_log _ E).
Qed.

Lemma only_logged_done (fs1 : fsys) (st : state) (g : FileGroup) :
  base (output a) ko fs1 -> only_logged lg fs1 st -> plain (fg_name g) ->
  done_group (output a) ko fs1 g -> done_group (output a) ko (st_fs st) g.
Proof.
  intros Hb Hi Hg Hd. destruct (log_avoids_group (fg_name g)) as [Hrm Hu].
  eapply done_group_stable;
    [apply only_logged_evolve; eassumption|exact Hb|exact Hg|exact Hrm|exact Hu|exact Hd].
Qed.

Lemma process_files_second (fs1 : fsys) (g : string) (files : list SourceFile)
  (st : state) (md : mode) :
  base (output a) ko fs1 -> plain g ->
  (forall sf, In sf files -> plain (sf_name sf)) ->
  node_at fs1 (folder_key ko g) = Some (Dir md) ->
  (forall sf, In sf files ->
     exists n, node_at fs1 (target_key ko g (sf_name sf)) = Some n) ->
  only_logged lg fs1 st ->
  exists st',
    process_files a (output a ++ [g]) files st = (Next, st') /\
    only_logged lg fs1 st' /\
    files_skipped st' = files_skipped st + length files /\
    files_copied st' = files_copied st /\
    files_deleted st' = files_deleted st.
Proof.
  intros Hb Hg Hn Hd Hk. revert st.
  induction files as [|sf files IH]; intros st Hi; simpl.
  - exists st. split; [reflexivity|]. split; [exact Hi|].
    split; [lia|]. split; reflexivity.
  - assert (Hev : evolve (fun _ => False) (updates ko []) fs1 (st_fs st))
      by (apply only_logged_evolve; assumption).
    assert (He : exists_ (st_fs st) (target_of (output a ++ [g]) sf) = true).
    { unfold target_of. rewrite join_plain by (apply Hn; left; reflexivity).
      destruct (Hk sf (or_introl eq_refl)) as [n Hkn].
      destruct (evolve_bound _ _ _ _ _ _ Hev Hkn) as [n' Hn'].
      apply exists_resolve. exists (target_key ko g (sf_name sf)), n'.
      split; [|exact Hn'].
      eapply resolve_target;
        [eapply base_evolve; eauto|exact Hg|apply Hn; left; reflexivity|].
      eapply evolve_dir; eauto. }
    rewrite (process_file_skip _ _ _ _ He).
    destruct (IH (fun s Hs => Hn s (or_intror Hs)) (fun s Hs => Hk s (or_intror Hs))
                 (skipped sf st)) as (st' & Hp & Hi' & Hs & Hc & Hdl).
    { unfold skipped.
      eapply only_logged_same; [| |apply only_logged_logs; exact Hi]; reflexivity. }
    exists st'. split; [exact Hp|]. split; [exact Hi'|].
    rewrite Hs, Hc, Hdl. unfold skipped.
    cbn [files_skipped files_copied files_deleted count_skipped logs].
    split; [lia|]. split; reflexivity.
Qed.

Lemma create_zip_second (fs : fsys) (g : FileGroup) :
  base (output a) ko fs -> plain (fg_name g) ->
  done_group (output a) ko fs g ->
  create_zip fs (output a ++ [fg_name g]) (output a ++ [(fg_name g ++ ".zip")%string])
  = (Ok tt, fs).
Proof.
  intros Hb Hg ([md Hd] & _ & (zf & mz & Hz & Hw & Ha)).
  assert (Hzne : zip_key ko (fg_name g) <> []) by (unfold zip_key; destruct ko; discriminate).
  unfold create_zip.
  assert (He : exists_ fs (output a ++ [fg_name g]) = true).
  { apply exists_resolve. exists (folder_key ko (fg_name g)), (Dir md).
    split; [apply resolve_folder; assumption|exact Hd]. }
  rewrite He. cbn [negb].
  unfold open_write. rewrite (resolve_zip _ _ Hb).
  rewrite node_at_find by exact Hzne. rewrite Hz, Hw.
  assert (Hev : evolve (fun _ => False) (fun k => k = zip_key ko (fg_name g)) fs
                       (set_node fs (zip_key ko (fg_name g)) (File "" mz))).
  { eapply evolve_update; [apply evolve_refl|reflexivity|exact Hzne|exact Hz]. }
  rewrite (evolve_add_folder_to_zip _ _ _ _ _ (folder_key ko (fg_name g)) md _ Hev);
    [|apply resolve_folder; assumption|exact Hd|].
  - rewrite Ha. f_equal.
    rewrite (write_data_file _ _ _ "" mz) by apply find_node_set_node_eq.
    rewrite set_node_set_node. apply set_node_same. exact Hz.
  - intros k [[]| ->]. rewrite removelast_zip. apply folder_ne_out.
Qed.

Lemma process_group_second (fs1 : fsys) (g : FileGroup) (st : state) :
  base (output a) ko fs1 ->
  plain (fg_name g) -> (forall sf, In sf (fg_files g) -> plain (sf_name sf)) ->
  done_group (output a) ko fs1 g ->
  only_logged lg fs1 st ->
  exists st',
    process_group a (output a) g st = (Next, st') /\
    only_logged lg fs1 st' /\
    files_skipped st' = files_skipped st + file_count g /\
    files_copied st' = files_copied st /\
    files_deleted st' = files_deleted st.
Proof.
  intros Hb Hg Hn Hdone Hi.
  pose proof Hdone as ([md Hd] & Hk & _).
  unfold process_group. rewrite Hdry. cbn [negb].
  rewrite !join_plain by (first [exact Hg|apply plain_zip]).
  set (st0 := logs INFO _ st).
  assert (Hi0 : only_logged lg fs1 st0) by (apply only_logged_logs; exact Hi).
  assert (Hc0 : files_skipped st0 = files_skipped st /\
                files_copied st0 = files_copied st /\
                files_deleted st0 = files_deleted st) by (repeat split; reflexivity).
  clearbody st0.
  assert (Hev0 : evolve (fun _ => False) (updates ko []) fs1 (st_fs st0))
    by (apply only_logged_evolve; assumption).
  assert (Hdir : is_dir (st_fs st0) (output a ++ [fg_name g]) = true).
  { apply is_dir_resolve. exists (folder_key ko (fg_name g)), md. split.
    - apply resolve_folder; [eapply base_evolve; eauto|exact Hg].
    - eapply evolve_dir; eauto. }
  unfold create_folder. rewrite (mkdir_parents_existing _ _ Hdir).
  set (st1 := logs DEBUG _ (set_fs st0 (st_fs st0))).
  assert (Hi1 : only_logged lg fs1 st1).
  { apply only_logged_logs. eapply only_logged_same; [| |exact Hi0]; reflexivity. }
  assert (Hc1 : files_skipped st1 = files_skipped st0 /\
                files_copied st1 = files_copied st0 /\
                files_deleted st1 = files_deleted st0) by (repeat split; reflexivity).
  clearbody st1.
  destruct (process_files_second fs1 _ (fg_files g) st1 md Hb Hg Hn Hd Hk Hi1)
    as (st2 & Hp & Hi2 & Hs2 & Hc2 & Hd2).
  rewrite Hp.
  assert (Hev2 : evolve (fun _ => False) (updates ko []) fs1 (st_fs st2))
    by (apply only_logged_evolve; assumption).
  rewrite (create_zip_second (st_fs st2) g);
    [|eapply base_evolve; eauto|exact Hg|eapply only_logged_done; eauto].
  rewrite Hzip.
  eexists. split; [reflexivity|]. split.
  - apply only_logged_logs. eapply only_logged_same; [| |exact Hi2]; reflexivity.
  - destruct Hc0 as (? & ? & ?), Hc1 as (? & ? & ?).
    unfold file_count. cbn [files_skipped files_copied files_deleted logs set_fs].
    unfold file_count in Hs2. split; [lia|]. split; congruence.
Qed.

Lemma process_groups_second (fs1 : fsys) (groups : list FileGroup) (st : state) :
  base (output a) ko fs1 -> plain_names groups ->
  (forall g, In g groups -> done_group (output a) ko fs1 g) ->
  only_logged lg fs1 st ->
  exists st',
    process_groups a (output a) groups st = (Next, st') /\
    only_logged lg fs1 st' /\
    files_skipped st' = files_skipped st + total_files groups /\
    files_copied st' = files_copied st /\
    files_deleted st' = files_deleted st.
Proof.
  intros Hb. revert st.
  induction groups as [|g groups IH]; intros st Hp Hdone Hi; simpl.
  - exists st. unfold total_files. simpl.
    split; [reflexivity|]. split; [exact Hi|]. split; [lia|]. split; reflexivity.
  - destruct (Hp g (or_introl eq_refl)) as [Hpg Hpf].
    destruct (process_group_second fs1 g st Hb Hpg Hpf (Hdone g (or_introl eq_refl)) Hi)
      as (st1 & Hg1 & Hi1 & Hs1 & Hc1 & Hd1).
    rewrite Hg1.
    destruct (IH st1 (fun x Hx => Hp x (or_intror Hx))
                 (fun x Hx => Hdone x (or_intror Hx)) Hi1)
      as (st2 & Hg2 & Hi2 & Hs2 & Hc2 & Hd2).
    exists st2. split; [exact Hg2|]. split; [exact Hi2|].
    unfold total_files in *. simpl.
    split; [lia|]. split; congruence.
Qed.

End TwoRuns.

(** ** Two runs in a row *)

Lemma with_fs_same (w : world) : with_fs w (w_fs w) = w.
Proof. destruct w; reflexivity. Qed.

Lemma setup_logging_attached (output_dir : path) (log_level : level) (w : world)
  (k : path) :
  file_handler (fst (setup_logging output_dir log_level w)) = Some k ->
  exists ko,
    k = log_key ko /\
    fst (setup_logging output_dir log_level w) = mkLogger log_level (Some (log_key ko)) /\
    base output_dir ko (w_fs (snd (setup_logging output_dir log_level w))) /\
    evolve (fun _ => True) (fun _ => True) (w_fs w)
           (w_fs (snd (setup_logging output_dir log_level w))).
Proof.
  unfold setup_logging.
  destruct (mkdir_parents (w_fs w) output_dir) as [fs1|e] eqn:Hm; [|discriminate].
  destruct (open_write false fs1 (join output_dir "photozipper.log"))
    as [[kl fs2]|e] eqn:Ho; [|discriminate].
  cbn [fst snd file_handler w_fs with_fs]. intros H; injection H as ->.
  apply mkdir_parents_evolve in Hm.
  pose proof (open_write_shape _ _ _ _ _ Ho) as (Hr & Hne & Hshape).
  rewrite join_plain in Hr by apply plain_log.
  apply resolve_snoc_inv in Hr as (ko & md & Hro & Hko & ->).
  rewrite step_plain by apply plain_log.
  exists ko. split; [reflexivity|]. split; [reflexivity|].
  rewrite step_plain in Hshape, Hne by apply plain_log.
  fold (log_key ko) in Hshape, Hne.
  assert (Hev2 : evolve (fun _ => True) (fun _ => True) fs1 fs2 /\
                 exists d ml, find_node fs2 (log_key ko) = Some (File d ml) /\
                              can_write ml = true).
  { destruct Hshape as [(Hn & _ & ->)|(d & ml & Hf & Hw & ->)].
    - split.
      + eapply evolve_create; [apply evolve_refl|exact I|exact Hne|exact Hn].
      + exists "", rw. split; [apply find_node_set_node_eq|reflexivity].
    - split; [apply evolve_refl|eauto]. }
  destruct Hev2 as [Hev2 Hlog].
  split.
  - split; [eapply evolve_resolve; eauto|]. split; [|exact Hlog].
    exists md. eapply evolve_dir; eauto.
  - eapply evolve_trans; [|exact Hev2].
    eapply evolve_mono; [| |exact Hm]; auto.
Qed.

Lemma setup_logging_again (output_dir ko : path) (log_level : level) (w : world) :
  base output_dir ko (w_fs w) ->
  setup_logging output_dir log_level w = (mkLogger log_level (Some (log_key ko)), w).
Proof.
  intros (Hr & [md Hk] & (d & ml & Hl & Hw)). unfold setup_logging.
  assert (Hd : is_dir (w_fs w) output_dir = true)
    by (apply is_dir_resolve; eauto).
  rewrite (mkdir_parents_existing _ _ Hd).
  unfold open_write. rewrite join_plain by apply plain_log.
  rewrite (resolve_snoc _ _ _ _ _ Hr Hk), step_plain by apply plain_log.
  fold (log_key ko).
  assert (Hne : log_key ko <> []) by (unfold log_key; destruct ko; discriminate).
  rewrite node_at_find by exact Hne. rewrite Hl, Hw, with_fs_same. reflexivity.
Qed.

Lemma validate_pattern_compiles (pattern : string) (b : bool) :
  validate_pattern pattern = Ok b -> exists r, re_compile pattern = Ok r.
Proof.
  unfold validate_pattern. destruct (blank pattern); [discriminate|].
  destruct (re_compile pattern) as [r|e]; [eauto|destruct e; discriminate].
Qed.

(** How a successful run went. *)
Lemma main_success (a : args) (w0 w1 : world) :
  main (Some a) w0 = (0, w1) ->
  validate_arguments a = None /\
  exists_ (w_fs w0) (source a) = true /\
  is_dir (w_fs w0) (source a) = true /\
  (exists r, re_compile (pattern a) = Ok r) /\
  exists st,
    organize a (fst (setup_logging (output a) (log_level a) w0))
               (snd (setup_logging (output a) (log_level a) w0)) = (Return 0, st) /\
    w1 = st_world st.
Proof.
  unfold main.
  destruct (validate_arguments a); [discriminate|].
  destruct (exists_ (w_fs w0) (source a)); [|discriminate].
  destruct (is_dir (w_fs w0) (source a)); [|discriminate]. cbn [negb].
  destruct (validate_pattern (pattern a)) as [b|e] eqn:Hv; [|destruct e; discriminate].
  destruct (setup_logging (output a) (log_level a) w0) as [lg w']. cbn [fst snd].
  destruct (organize a lg w') as [c st] eqn:Ho.
  pose proof (organize_ctl _ _ _ _ _ Ho) as [->|[->|[e ->]]]; try discriminate.
  intros H; injection H as <-.
  split; [reflexivity|]. split; [reflexivity|]. split; [reflexivity|].
  split; [eapply validate_pattern_compiles; eauto|]. eauto.
Qed.

Lemma organize_success (a : args) (lg : logger) (w : world) (st : state) :
  organize a lg w = (Return 0, st) ->
  exists groups,
    scan_and_group (st_fs (started a lg w)) (source a) (pattern a) = Ok groups /\
    ((groups = [] /\ logged (started a lg w) st) \/
     exists st7,
       process_groups a (output a) groups
         (logs INFO ("Found " ++ str_nat (length groups) ++ " group(s)")
               (started a lg w)) = (Next, st7) /\
       logged st7 st).
Proof.
  unfold organize.
  destruct (scan_and_group (st_fs (started a lg w)) (source a) (pattern a))
    as [groups|e]; [|discriminate].
  intros H. exists groups. split; [reflexivity|].
  destruct groups as [|g groups].
  - injection H as <-. left. split; [reflexivity|].
    eapply logged_trans; [apply logged_logs|apply logged_print].
  - destruct (process_groups a (output a) (g :: groups) _) as [c st7] eqn:Hp.
    pose proof (process_groups_ctl _ _ _ _ _ _ Hp) as [->|[->|[e ->]]];
      try discriminate.
    injection H as <-. right. exists st7. split; [reflexivity|].
    eapply logged_trans; [apply logged_print|apply logged_logs].
Qed.

Lemma logged_only_logged (lg : logger) (fs1 : fsys) (st st' : state) :
  only_logged lg fs1 st -> logged st st' -> only_logged lg fs1 st'.
Proof.
  intros [Hl [t Ht]] [Hl' [t' Ht']]. split; [congruence|].
  exists (t ++ t')%string. rewrite Ht', Hl, Ht. apply append_log_app.
Qed.

Lemma started_counters (a : args) (lg : logger) (w : world) :
  st_logger (started a lg w) = lg /\
  files_copied (started a lg w) = 0 /\
  files_skipped (started a lg w) = 0 /\
  files_deleted (started a lg w) = 0.
Proof. repeat split; reflexivity. Qed.

Lemma logged_counters_logs (l : level) (msg : string) (st : state) :
  files_copied (logs l msg st) = files_copied st /\
  files_skipped (logs l msg st) = files_skipped st /\
  files_deleted (logs l msg st) = files_deleted st.
Proof. repeat split; reflexivity. Qed.

(** The second of two runs in a row, from the world [w1] that a successful
    first run on [w0] left. *)
Lemma second_run (a : args) (w0 w1 : world) (groups : list FileGroup) (k : path) :
  dry_run a = false -> zip_only a = false -> delete_originals a = false ->
  main (Some a) w0 = (0, w1) ->
  file_handler (fst (setup_logging (output a) (log_level a) w0)) = Some k ->
  scan_of_run a w0 = Ok groups -> scan_of_run a w1 = Ok groups ->
  plain_names groups ->
  setup_logging (output a) (log_level a) w1 =
    (fst (setup_logging (output a) (log_level a) w0), w1) /\
  exists st,
    organize a (fst (setup_logging (output a) (log_level a) w0)) w1 = (Return 0, st) /\
    only_logged (fst (setup_logging (output a) (log_level a) w0)) (w_fs w1) st /\
    files_copied st = 0 /\ files_skipped st = total_files groups /\
    files_deleted st = 0 /\
    main (Some a) w1 = (0, st_world st).
Proof.
  intros Hdry Hzip Hdel Hmain Hh Hs0 Hs1 Hp.
  destruct (main_success _ _ _ Hmain) as (Hva & Hex & Hdir & [r Hre] & st1 & Ho1 & ->).
  destruct (setup_logging_attached _ _ _ _ Hh) as (ko & -> & Elg & Hb0 & Hev0).
  unfold scan_of_run in Hs0, Hs1.
  set (lg := fst (setup_logging (output a) (log_level a) w0)) in *.
  set (wa := snd (setup_logging (output a) (log_level a) w0)) in *.
  assert (Hlg : file_handler lg = Some (log_key ko)) by exact Hh.
  (* the first run *)
  assert (Hevs : evolve (fun _ => False) (updates ko []) (w_fs wa)
                        (st_fs (started a lg wa)))
    by exact (logged_evolve a ko lg Hlg (mkState wa lg 0 0 0) _ eq_refl Hb0
                (logged_started a lg wa)).
  assert (Hba : base (output a) ko (st_fs (started a lg wa)))
    by exact (base_evolve a ko lg Hlg _ _ _ _ Hevs Hb0).
  assert (Hfirst : base (output a) ko (st_fs st1) /\
                   (forall g, In g groups -> done_group (output a) ko (st_fs st1) g) /\
                   evolve (fun _ => True) (fun _ => True) (st_fs (started a lg wa))
                          (st_fs st1)).
  { destruct (organize_success _ _ _ _ Ho1) as (groups' & Hsc & Hcase).
    rewrite Hs0 in Hsc. injection Hsc as <-.
    destruct Hcase as [[-> Hlog]|(st7 & Hpg & Hlog)].
    - pose proof (logged_evolve a ko lg Hlg _ _ (proj1 (started_counters a lg wa)) Hba Hlog)
        as Hev.
      split; [eapply (base_evolve a ko lg Hlg); eauto|]. split; [intros g []|].
      eapply evolve_mono; [| |exact Hev]; auto.
    - set (st6 := logs INFO _ (started a lg wa)) in Hpg.
      assert (Hev6 : evolve (fun _ => False) (updates ko []) (st_fs (started a lg wa))
                            (st_fs st6))
        by (apply (logs_evolve a ko lg Hlg); [reflexivity|exact Hba]).
      assert (Hb6 : base (output a) ko (st_fs st6)) by (eapply (base_evolve a ko lg Hlg); eauto).
      destruct (process_groups_first a ko lg Hdry Hzip Hdel Hlg groups st6 st7
                  eq_refl Hb6 Hp (scan_and_group_NoDup _ _ _ _ _ Hre Hs0) Hpg)
        as (Hl7 & Hev7 & Hd7).
      assert (Hb7 : base (output a) ko (st_fs st7)) by (eapply (base_evolve a ko lg Hlg); eauto).
      pose proof (logged_evolve a ko lg Hlg _ _ Hl7 Hb7 Hlog) as Hev8.
      split; [eapply (base_evolve a ko lg Hlg); eauto|]. split.
      + intros g Hg. destruct (log_avoids_group ko (fg_name g)) as [Hrm Hu].
        eapply (done_group_stable a ko lg Hlg); [exact Hev8|exact Hb7|apply Hp; exact Hg| | |auto].
        * exact Hrm.
        * exact Hu.
      + eapply evolve_trans; [eapply evolve_mono; [| |exact Hev6]; auto|].
        eapply evolve_trans; [eapply evolve_mono; [| |exact Hev7]; auto|].
        eapply evolve_mono; [| |exact Hev8]; auto. }
  destruct Hfirst as (Hb1 & Hdone & Hev1).
  change (w_fs (st_world st1)) with (st_fs st1) in *.
  (* the second run *)
  assert (Hev01 : evolve (fun _ => True) (fun _ => True) (w_fs w0) (st_fs st1)).
  { eapply evolve_trans; [exact Hev0|]. eapply evolve_trans; [|exact Hev1].
    eapply evolve_mono; [| |exact Hevs]; auto. }
  assert (Hsetup : setup_logging (output a) (log_level a) (st_world st1)
                   = (lg, st_world st1)).
  { rewrite (setup_logging_again _ ko) by exact Hb1. f_equal. symmetry. exact Elg. }
  split; [exact Hsetup|].
  rewrite Hsetup in Hs1. cbn [fst snd] in Hs1.
  assert (Hi5 : only_logged lg (st_fs st1) (started a lg (st_world st1))).
  { eapply logged_only_logged; [|apply logged_started].
    split; [reflexivity|]. exists "". symmetry. apply append_log_nil. }
  assert (Horg : exists st,
    organize a lg (st_world st1) = (Return 0, st) /\
    only_logged lg (st_fs st1) st /\
    files_copied st = 0 /\ files_skipped st = total_files groups /\
    files_deleted st = 0).
  { unfold organize. rewrite Hs1.
    destruct groups as [|g groups'].
    - eexists. split; [reflexivity|]. split.
      + eapply only_logged_same; [| |apply only_logged_logs; exact Hi5]; reflexivity.
      + repeat split; reflexivity.
    - set (groups := g :: groups') in *.
      set (st6 := logs INFO _ (started a lg (st_world st1))).
      assert (Hi6 : only_logged lg (st_fs st1) st6)
        by (apply only_logged_logs; exact Hi5).
      destruct (process_groups_second a ko lg Hdry Hzip Hlg (st_fs st1) groups st6
                  Hb1 Hp Hdone Hi6) as (st7 & Hpg & Hi7 & Hs7 & Hc7 & Hd7).
      change (process_groups a (output a) (g :: groups') st6) with
             (process_groups a (output a) groups st6).
      rewrite Hpg.
      eexists. split; [reflexivity|]. split.
      + apply only_logged_logs.
        eapply only_logged_same; [| |exact Hi7]; reflexivity.
      + cbn [files_copied files_skipped files_deleted logs print_state].
        rewrite Hs7, Hc7, Hd7. repeat split; reflexivity. }
  destruct Horg as (st & Horg & Hi & Hc & Hs & Hd).
  exists st. split; [exact Horg|]. split; [exact Hi|].
  split; [exact Hc|]. split; [exact Hs|]. split; [exact Hd|].
  unfold main. rewrite Hva.
  change (w_fs (st_world st1)) with (st_fs st1).
  rewrite (evolve_exists _ _ _ _ _ Hev01 Hex), (evolve_is_dir _ _ _ _ _ Hev01 Hdir).
  cbn [negb].
  destruct (validate_pattern (pattern a)) as [b|e] eqn:Hv.
  - rewrite Hsetup, Horg. reflexivity.
  - unfold validate_pattern in Hv. rewrite Hre in Hv.
    destruct (blank (pattern a)) eqn:Hbl; [|discriminate].
    unfold main in Hmain. rewrite Hva, Hex, Hdir in Hmain. cbn [negb] in Hmain.
    unfold validate_pattern in Hmain. rewrite Hbl in Hmain. discriminate.
Qed.

(** C4, as the program has it.  Take a run without [--dry-run],
    [--zip-only] and [--delete-originals] that succeeded and had its log file
    open, and let the source be unchanged: a second run finds the same
    groups, whose identifiers and file names are ordinary names.  Then the
    second run succeeds as well, copies nothing, counts every file of every
    group as skipped, and leaves the file system as the first run left it
    but for the log file [photozipper.log], to which it appends its own
    records; every other entry of the destination, the archives included, is
    the same as before. *)
Theorem second_run_changes_only_the_log
  (a : args) (w0 w1 : world) (groups : list FileGroup) (k : path) :
  dry_run a = false -> zip_only a = false -> delete_originals a = false ->
  main (Some a) w0 = (0, w1) ->
  file_handler (fst (setup_logging (output a) (log_level a) w0)) = Some k ->
  scan_of_run a w0 = Ok groups -> scan_of_run a w1 = Ok groups ->
  plain_names groups ->
  exists st text,
    organize a (fst (setup_logging (output a) (log_level a) w1))
               (snd (setup_logging (output a) (log_level a) w1)) = (Return 0, st) /\
    main (Some a) w1 = (0, st_world st) /\
    files_copied st = 0 /\
    files_skipped st = total_files groups /\
    files_deleted st = 0 /\
    st_fs st = write_data (w_fs w1) k (fun data => (data ++ text)%string) /\
    forall p, p <> k -> find_node (st_fs st) p = find_node (w_fs w1) p.
Proof.
  intros Hdry Hzip Hdel Hmain Hh Hs0 Hs1 Hp.
  destruct (second_run a w0 w1 groups k Hdry Hzip Hdel Hmain Hh Hs0 Hs1 Hp)
    as (Hsetup & st & Horg & [Hl [text Ht]] & Hc & Hs & Hd & Hm).
  assert (Hfs : st_fs st = write_data (w_fs w1) k (fun data => (data ++ text)%string))
    by (rewrite Ht; unfold append_log; rewrite Hh; reflexivity).
  exists st, text. rewrite Hsetup. cbn [fst snd].
  split; [exact Horg|]. split; [exact Hm|]. split; [exact Hc|].
  split; [exact Hs|]. split; [exact Hd|]. split; [exact Hfs|].
  intros p Hne. rewrite Hfs. apply write_data_find. congruence.
Qed.

(* ===================================================================== *)
(** * Further properties, module by module                                *)
(* ===================================================================== *)

(** ** pattern_matcher.py: validation *)

Lemma compiled_pattern_searches (filename pattern : string) (r : Re.regex) :
  re_compile pattern = Ok r -> exists o, extract_group filename pattern = Ok o.
Proof.
  intros Hc. unfold extract_group. rewrite Hc.
  destruct (Re.search (list_ascii_of_string filename) r) as [[i j]|]; eauto.
Qed.

(** [validate_pattern] answers [True] exactly for a pattern that is not
    blank and compiles; it never answers [False]; a blank pattern is refused
    before it is compiled; the [re.error] of [re.compile] becomes a
    [ValueError], and any other exception of [re.compile] (an
    [OverflowError]) is passed on as it is: what it raises is a
    [ValueError] or what [re.compile] raised.  After it answered,
    [extract_group] does not raise on any file name. *)
Theorem validate_pattern_accepts_what_compiles (pattern : string) :
  (validate_pattern pattern = Ok true <->
   blank pattern = false /\ exists r, re_compile pattern = Ok r) /\
  validate_pattern pattern <> Ok false /\
  (blank pattern = true ->
   validate_pattern pattern = Raise (ValueError "Pattern cannot be empty")) /\
  (forall msg, blank pattern = false -> re_compile pattern = Raise (ReError msg) ->
   validate_pattern pattern = Raise (ValueError ("Invalid regex pattern: " ++ msg))) /\
  (forall e, blank pattern = false -> re_compile pattern = Raise e ->
   (forall msg, e <> ReError msg) -> validate_pattern pattern = Raise e) /\
  (forall e, validate_pattern pattern = Raise e ->
   (exists msg, e = ValueError msg) \/ re_compile pattern = Raise e) /\
  (validate_pattern pattern = Ok true ->
   forall filename, exists o, extract_group filename pattern = Ok o).
Proof.
  unfold validate_pattern.
  destruct (blank pattern) eqn:Hb; [|destruct (re_compile pattern) as [r|e0] eqn:Hc].
  - split; [split; [discriminate|intros [H _]; discriminate]|].
    split; [discriminate|]. split; [reflexivity|].
    split; [discriminate|]. split; [discriminate|].
    split; [intros e H; injection H as <-; eauto|discriminate].
  - split; [split; eauto|]. split; [discriminate|]. split; [discriminate|].
    split; [discriminate|]. split; [discriminate|]. split; [discriminate|].
    intros _ filename. eapply compiled_pattern_searches; eauto.
  - split; [split; [destruct e0; discriminate|intros [_ [r H]]; discriminate]|].
    split; [destruct e0; discriminate|]. split; [discriminate|].
    split; [intros msg _ H; injection H as ->; reflexivity|].
    split.
    { intros e _ H Hne. injection H as <-.
      destruct e0; try reflexivity. exfalso. eapply Hne; reflexivity. }
    split; [|destruct e0; discriminate].
    intros e H. destruct e0; injection H as <-; eauto.
Qed.

(** ** pattern_matcher.py: when the scan raises *)

Lemma is_file_from_path (fs : fsys) (file_path : path) (group : string) :
  is_file fs file_path = true ->
  exists data md,
    stat fs file_path = Ok (File data md) /\
    from_path fs file_path group
      = Ok (mkSourceFile file_path (basename file_path) (String.length data) group).
Proof.
  unfold is_file, from_path.
  destruct (stat fs file_path) as [[data md|md]|e]; try discriminate.
  intros _. exists data, md. split; reflexivity.
Qed.



(** ** pattern_matcher.py: what the groups hold *)

Lemma basename_snoc (p : path) (name : string) : basename (p ++ [name]) = name.
Proof. unfold basename. apply last_last. Qed.

Lemma matched_elem (fs : fsys) (source_dir : path) (pattern : string)
  (items : list string) (sf : SourceFile) :
  In sf (matched fs source_dir pattern items) ->
  exists name data md,
    In name items /\
    stat fs (source_dir ++ [name]) = Ok (File data md) /\
    extract_group name pattern = Ok (Some (sf_group sf)) /\
    sf = mkSourceFile (source_dir ++ [name]) name (String.length data) (sf_group sf).
Proof.
  induction items as [|name items IH]; simpl; [contradiction|].
  assert (Hrest : In sf (matched fs source_dir pattern items) ->
                  exists name0 data md,
                    (name = name0 \/ In name0 items) /\
                    stat fs (source_dir ++ [name0]) = Ok (File data md) /\
                    extract_group name0 pattern = Ok (Some (sf_group sf)) /\
                    sf = mkSourceFile (source_dir ++ [name0]) name0
                           (String.length data) (sf_group sf)).
  { intros H. destruct (IH H) as (n & d & md & Hin & Hrest). exists n, d, md. auto. }
  destruct (is_file fs (source_dir ++ [name])) eqn:Hf; [|exact Hrest].
  destruct (extract_group name pattern) as [[g|]|e] eqn:He; try exact Hrest.
  destruct (is_file_from_path _ _ g Hf) as (data & md & Hs & ->).
  intros [<-|H]; [|exact (Hrest H)].
  exists name, data, md. rewrite basename_snoc. simpl. auto.
Qed.

Lemma matched_names (fs : fsys) (source_dir : path) (pattern : string)
  (items : list string) :
  map sf_name (matched fs source_dir pattern items)
  = List.filter (matches fs source_dir pattern) items.
Proof.
  induction items as [|name items IH]; simpl; [reflexivity|].
  unfold matches at 1.
  destruct (is_file fs (source_dir ++ [name])) eqn:Hf; simpl; [|exact IH].
  destruct (extract_group name pattern) as [[g|]|e]; try exact IH.
  destruct (is_file_from_path _ _ g Hf) as (data & md & Hs & ->).
  simpl. rewrite basename_snoc, IH. reflexivity.
Qed.

Lemma filter_all {A} (P : A -> Prop) `{forall x, Decision (P x)} (l : list A) :
  (forall x, x ∈ l -> P x) -> filter P l = l.
Proof.
  induction l as [|y l IH]; intros Hl; [reflexivity|].
  rewrite filter_cons_True by (apply Hl; left).
  f_equal. apply IH. intros x Hx. apply Hl. right. exact Hx.
Qed.

Lemma filter_one_more (k : string) (ks : list string) (l : list SourceFile) :
  k ∉ ks ->
  filter (fun sf => sf_group sf = k) l ++ filter (fun sf => sf_group sf ∈ ks) l
  ≡ₚ filter (fun sf => sf_group sf ∈ k :: ks) l.
Proof.
  intros Hk. induction l as [|x l IH]; [reflexivity|].
  destruct (decide (sf_group x = k)) as [E|E].
  - rewrite (filter_cons_True (fun sf => sf_group sf = k)) by exact E.
    rewrite (filter_cons_False (fun sf => sf_group sf ∈ ks)) by (rewrite E; exact Hk).
    rewrite (filter_cons_True (fun sf => sf_group sf ∈ k :: ks)) by (rewrite E; left).
    simpl. constructor. exact IH.
  - rewrite (filter_cons_False (fun sf => sf_group sf = k)) by exact E.
    destruct (decide (sf_group x ∈ ks)) as [Hin|Hin].
    + rewrite (filter_cons_True (fun sf => sf_group sf ∈ ks)) by exact Hin.
      rewrite (filter_cons_True (fun sf => sf_group sf ∈ k :: ks)) by (right; exact Hin).
      rewrite <- Permutation_middle. constructor. exact IH.
    + rewrite (filter_cons_False (fun sf => sf_group sf ∈ ks)) by exact Hin.
      rewrite (filter_cons_False (fun sf => sf_group sf ∈ k :: ks)); [exact IH|].
      intros H. apply elem_of_cons in H as [H|H]; contradiction.
Qed.

Lemma groups_partition (ks : list string) (l : list SourceFile) :
  NoDup ks ->
  concat (map (fun g => filter (fun sf => sf_group sf = g) l) ks)
  ≡ₚ filter (fun sf => sf_group sf ∈ ks) l.
Proof.
  induction 1 as [|k ks Hk Hnd IH]; simpl.
  - rewrite filter_none; [reflexivity|]. intros x _ H. inversion H.
  - rewrite IH. apply filter_one_more. exact Hk.
Qed.

Lemma grouped_files (l : list SourceFile) :
  concat (map fg_files (grouped l)) ≡ₚ l.
Proof.
  unfold grouped. rewrite map_map. simpl.
  rewrite groups_partition by apply first_seen_NoDup.
  rewrite filter_all; [reflexivity|].
  intros x Hx. apply first_seen_elem, elem_of_map. exact Hx.
Qed.

Lemma total_files_concat (groups : list FileGroup) :
  total_files groups = length (concat (map fg_files groups)).
Proof.
  unfold total_files, file_count.
  induction groups as [|g groups IH]; simpl; [reflexivity|].
  rewrite length_app, IH. reflexivity.
Qed.

Lemma scan_ok_listing (fs : fsys) (source_dir : path) (pattern : string)
  (groups : list FileGroup) :
  scan_and_group fs source_dir pattern = Ok groups ->
  exists items, iterdir fs source_dir = Ok items.
Proof.
  unfold scan_and_group. destruct (iterdir fs source_dir) as [items|e]; [eauto|discriminate].
Qed.

(** The groups of a scan: no identifier twice, no group without a file;
    every file of a group carries the identifier of the group, which is
    what the pattern matches in its name, lies directly in the source
    directory, and has the size of the regular file found there. *)
Theorem scan_and_group_groups_are_well_formed (fs : fsys) (source_dir : path)
  (pattern : string) (r : Re.regex) (groups : list FileGroup) :
  re_compile pattern = Ok r ->
  scan_and_group fs source_dir pattern = Ok groups ->
  List.NoDup (map fg_name groups) /\
  forall g, In g groups ->
    fg_files g <> [] /\
    forall sf, In sf (fg_files g) ->
      sf_group sf = fg_name g /\
      extract_group (sf_name sf) pattern = Ok (Some (fg_name g)) /\
      sf_path sf = source_dir ++ [sf_name sf] /\
      exists data md,
        stat fs (sf_path sf) = Ok (File data md) /\ sf_size sf = String.length data.
Proof.
  intros Hc Hs. split; [eapply scan_and_group_NoDup; eauto|].
  destruct (scan_ok_listing _ _ _ _ Hs) as [items Hi].
  rewrite (scan_and_group_grouped _ _ _ _ _ Hc Hi) in Hs. injection Hs as <-.
  intros g Hg. unfold grouped in Hg. apply in_map_iff in Hg as (name & <- & Hname).
  simpl. apply (proj2 (list_elem_of_In _ _)) in Hname.
  apply (proj1 (first_seen_elem _ _)) in Hname.
  apply (proj1 (list_elem_of_In _ _)) in Hname.
  apply in_map_iff in Hname as (sf0 & E0 & Hsf0).
  split.
  - intros Hnil.
    assert (Hin : sf0 ∈ filter (fun sf => sf_group sf = name)
                         (matched fs source_dir pattern items)).
    { apply list_elem_of_filter. split; [exact E0|apply list_elem_of_In; exact Hsf0]. }
    rewrite Hnil in Hin. inversion Hin.
  - intros sf Hsf. apply (proj2 (list_elem_of_In _ _)) in Hsf.
    apply list_elem_of_filter in Hsf as [E Hsf].
    apply (proj1 (list_elem_of_In _ _)) in Hsf.
    apply matched_elem in Hsf as (n & data & md & _ & Hst & Hex & Esf).
    split; [exact E|]. rewrite Esf. simpl. rewrite <- E.
    split; [exact Hex|]. split; [reflexivity|]. eauto.
Qed.

(** Every regular file of the listing whose name matches is in the groups,
    once: the names of the files of all groups are, up to order, the names
    of the listing that match, and the total that [main] computes for its
    progress bar is their number. *)
Theorem scan_and_group_keeps_every_match (fs : fsys) (source_dir : path)
  (pattern : string) (r : Re.regex) (items : list string)
  (groups : list FileGroup) :
  re_compile pattern = Ok r ->
  iterdir fs source_dir = Ok items ->
  scan_and_group fs source_dir pattern = Ok groups ->
  map sf_name (concat (map fg_files groups))
    ≡ₚ List.filter (matches fs source_dir pattern) items /\
  total_files groups = length (List.filter (matches fs source_dir pattern) items).
Proof.
  intros Hc Hi Hs.
  rewrite (scan_and_group_grouped _ _ _ _ _ Hc Hi) in Hs. injection Hs as <-.
  assert (Hp : map sf_name (concat (map fg_files
                 (grouped (matched fs source_dir pattern items))))
               ≡ₚ List.filter (matches fs source_dir pattern) items).
  { rewrite grouped_files. rewrite matched_names. reflexivity. }
  split; [exact Hp|].
  rewrite total_files_concat, <- (length_map sf_name). apply Permutation_length. exact Hp.
Qed.

(** ** What stays when nothing is removed *)

Lemma kept_refl (fs : fsys) : kept fs fs.
Proof. intros k. destruct (node_at fs k) as [[d md|md]|]; eauto. Qed.

Lemma kept_trans (fs1 fs2 fs3 : fsys) : kept fs1 fs2 -> kept fs2 fs3 -> kept fs1 fs3.
Proof.
  intros H12 H23 k. specialize (H12 k). specialize (H23 k).
  destruct (node_at fs1 k) as [[d md|md]|]; [| |exact I].
  - destruct H12 as [d2 H12]. rewrite H12 in H23. exact H23.
  - rewrite H12 in H23. exact H23.
Qed.

Lemma evolve_kept (F U : path -> Prop) (fs fs' : fsys) : evolve F U fs fs' -> kept fs fs'.
Proof.
  intros H k. destruct (node_at fs k) as [[d md|md]|] eqn:Hk; [| |exact I].
  - destruct (evolve_file _ _ _ _ _ _ _ H Hk) as (d' & Hd & _). eauto.
  - eapply evolve_dir; eauto.
Qed.

Lemma write_data_kept (fs : fsys) (k : path) (f : string -> string) :
  kept fs (write_data fs k f).
Proof.
  intros q. destruct q as [|c q]; [reflexivity|].
  change (node_at ?x (c :: q)) with (find_node x (c :: q)).
  destruct (decide (k = c :: q)) as [->|Hne].
  - unfold write_data.
    destruct (find_node fs (c :: q)) as [[d md|md]|] eqn:E; [|exact E|exact I].
    rewrite find_node_set_node_eq. eauto.
  - rewrite write_data_find by exact Hne.
    destruct (find_node fs (c :: q)) as [[d md|md]|]; eauto.
Qed.

Lemma append_log_kept (lg : logger) (text : string) (fs : fsys) :
  kept fs (append_log lg text fs).
Proof.
  unfold append_log. destruct (file_handler lg); [apply write_data_kept|apply kept_refl].
Qed.

Lemma kept_walk (fs fs' : fsys) (o cur : path) (cs : list string) (k : path) :
  kept fs fs' -> walk fs o cur cs = Ok k -> walk fs' o cur cs = Ok k.
Proof.
  intros H. revert cur. induction cs as [|c cs IH]; intros cur; simpl; [auto|].
  pose proof (H cur) as Hc.
  destruct (node_at fs cur) as [[d md|md]|]; try discriminate.
  rewrite Hc. apply IH.
Qed.

Lemma kept_resolve (fs fs' : fsys) (p k : path) :
  kept fs fs' -> resolve fs p = Ok k -> resolve fs' p = Ok k.
Proof. intros H. apply kept_walk. exact H. Qed.

Lemma kept_is_dir (fs fs' : fsys) (p : path) :
  kept fs fs' -> is_dir fs p = true -> is_dir fs' p = true.
Proof.
  intros H Hd. apply is_dir_resolve in Hd as (k & md & Hr & Hk).
  apply is_dir_resolve. exists k, md. split; [eapply kept_resolve; eauto|].
  specialize (H k). rewrite Hk in H. exact H.
Qed.

Lemma is_file_resolve (fs : fsys) (p : path) :
  is_file fs p = true <->
  exists k data md, resolve fs p = Ok k /\ node_at fs k = Some (File data md).
Proof.
  unfold is_file. split.
  - destruct (stat fs p) as [[d md|md]|e] eqn:Hs; try discriminate.
    intros _. apply stat_resolve in Hs as (k & Hr & Hk). eauto.
  - intros (k & d & md & Hr & Hk).
    assert (Hs : stat fs p = Ok (File d md)) by (apply stat_resolve; eauto).
    rewrite Hs. reflexivity.
Qed.

Lemma kept_is_file (fs fs' : fsys) (p : path) :
  kept fs fs' -> is_file fs p = true -> is_file fs' p = true.
Proof.
  intros H Hf. apply is_file_resolve in Hf as (k & d & md & Hr & Hk).
  pose proof (H k) as Hn. rewrite Hk in Hn. destruct Hn as [d' Hn].
  apply is_file_resolve. exists k, d', md.
  split; [exact (kept_resolve _ _ _ _ H Hr)|exact Hn].
Qed.

Lemma kept_exists (fs fs' : fsys) (p : path) :
  kept fs fs' -> exists_ fs p = true -> exists_ fs' p = true.
Proof.
  intros H He. apply exists_resolve in He as (k & n & Hr & Hk).
  apply exists_resolve. exists k.
  pose proof (H k) as Hn. rewrite Hk in Hn.
  destruct n as [d md|md]; [destruct Hn as [d' Hn]|]; eexists;
    (split; [exact (kept_resolve _ _ _ _ H Hr)|exact Hn]).
Qed.

(** ** file_organizer.py: [create_folder] *)

Lemma os_mkdir_is_dir (fs fs' : fsys) (p : path) :
  os_mkdir fs p = Ok fs' -> is_dir fs' p = true.
Proof.
  intros H. pose proof (os_mkdir_evolve _ _ _ H) as Hev.
  apply os_mkdir_shape in H as (k & Hr & Hne & Hn & ->).
  apply is_dir_resolve. exists k, rw. split; [eapply evolve_resolve; eauto|].
  rewrite node_at_find by exact Hne. apply find_node_set_node_eq.
Qed.

Lemma mkdir_exist_ok_is_dir (fs fs' : fsys) (p : path) :
  mkdir_exist_ok fs p = Ok fs' -> is_dir fs' p = true.
Proof.
  unfold mkdir_exist_ok. destruct (os_mkdir fs p) as [fs1|e] eqn:Hm.
  - intros H; injection H as <-. eapply os_mkdir_is_dir; eauto.
  - destruct e; try discriminate;
      (destruct (is_dir fs p) eqn:Hd; [|discriminate]);
      intros H; injection H as <-; exact Hd.
Qed.

Lemma mkdir_parents_is_dir (fs fs' : fsys) (p : path) :
  mkdir_parents fs p = Ok fs' -> is_dir fs' p = true.
Proof.
  unfold mkdir_parents. rewrite mkdir_parents_rev_unfold, rev_involutive.
  destruct (os_mkdir fs p) as [fs1|e] eqn:Hm.
  - intros H; injection H as <-. eapply os_mkdir_is_dir; eauto.
  - destruct e;
      try ((destruct (is_dir fs p) eqn:Hd; [|discriminate]);
           intros H; injection H as <-; exact Hd).
    destruct (rev p) as [|c rp] eqn:Erp; [discriminate|].
    destruct (mkdir_parents_rev fs rp) as [fs1|e1]; [|discriminate].
    apply mkdir_exist_ok_is_dir.
Qed.

(** When [create_folder] returns, the path names a directory, everything
    that was there before is as it was, what is new are directories, and a
    second call changes nothing. *)
Theorem create_folder_makes_a_directory (fs fs' : fsys) (folder_path : path) :
  create_folder fs folder_path = Ok fs' ->
  is_dir fs' folder_path = true /\
  adds_dirs fs fs' /\
  create_folder fs' folder_path = Ok fs'.
Proof.
  unfold create_folder. intros H.
  assert (Hd : is_dir fs' folder_path = true) by (eapply mkdir_parents_is_dir; eauto).
  split; [exact Hd|]. split; [eapply mkdir_parents_adds; eauto|].
  apply mkdir_parents_existing. exact Hd.
Qed.

Lemma mkdir_parents_on_file (fs : fsys) (p : path) :
  is_file fs p = true -> mkdir_parents fs p = Raise (EEXIST p).
Proof.
  intros Hf.
  assert (Hd : is_dir fs p = false).
  { unfold is_file in Hf. unfold is_dir.
    destruct (stat fs p) as [[d md|md]|e]; congruence. }
  apply is_file_resolve in Hf as (k & d & md & Hr & Hk).
  unfold mkdir_parents.
  rewrite mkdir_parents_rev_unfold, rev_involutive, (os_mkdir_resolved _ _ _ Hr), Hk.
  unfold EEXIST. rewrite Hd. reflexivity.
Qed.

Lemma mkdir_parents_through_file (fs : fsys) (p : path) :
  resolve fs p = Raise (ENOTDIR p) -> mkdir_parents fs p = Raise (ENOTDIR p).
Proof.
  intros Hr.
  assert (Hd : is_dir fs p = false).
  { unfold is_dir, stat. rewrite Hr. reflexivity. }
  unfold mkdir_parents. rewrite mkdir_parents_rev_unfold, rev_involutive.
  unfold os_mkdir. rewrite Hr. unfold ENOTDIR. rewrite Hd. reflexivity.
Qed.

(** On a path that exists [create_folder] creates nothing: a directory is
    accepted as it is ([exist_ok]), a regular file makes it raise
    [FileExistsError], and a regular file on the way to the path makes it
    raise [NotADirectoryError]. *)
Theorem create_folder_on_existing_path (fs : fsys) (folder_path : path) :
  (is_dir fs folder_path = true -> create_folder fs folder_path = Ok fs) /\
  (is_file fs folder_path = true ->
   create_folder fs folder_path = Raise (EEXIST folder_path)) /\
  (resolve fs folder_path = Raise (ENOTDIR folder_path) ->
   create_folder fs folder_path = Raise (ENOTDIR folder_path)).
Proof.
  unfold create_folder. split; [apply mkdir_parents_existing|].
  split; [apply mkdir_parents_on_file|apply mkdir_parents_through_file].
Qed.

(** ** file_organizer.py: [copy_file_with_metadata] *)

(** [copy_file_with_metadata] never raises: every error of [shutil.copy2]
    is an [OSError] and comes back as [False].  That is the answer, with
    nothing written, for a source that is missing, is a directory or cannot
    be read. *)
Theorem copy_failure_is_reported_not_raised (fs : fsys) (source target : path) :
  (exists b, fst (copy_file_with_metadata fs source target) = Ok b) /\
  (exists_ fs source = false ->
   copy_file_with_metadata fs source target = (Ok false, fs)) /\
  (is_dir fs source = true ->
   copy_file_with_metadata fs source target = (Ok false, fs)) /\
  (forall data md,
     stat fs source = Ok (File data md) -> can_read md = false ->
     copy_file_with_metadata fs source target = (Ok false, fs)).
Proof.
  rewrite copy_result.
  assert (Hfail : forall e, read_file fs source = Raise e ->
                  match copy2 (copy_fault fs source target) fs source target with
                  | (Ok _, fs') => (Ok true, fs')
                  | (Raise _, fs') => (Ok false, fs')
                  end = (Ok false, fs)).
  { intros e He.
    destruct (unreadable_source_raises (copy_fault fs source target) _ _ target _ He)
      as [e' ->].
    reflexivity. }
  split; [|split; [|split]].
  - destruct (copy2 (copy_fault fs source target) fs source target) as [[u|e] fs'];
      simpl; eauto.
  - intros He. apply not_exists_stat in He as [e He].
    apply (Hfail e). unfold read_file. rewrite He. reflexivity.
  - intros Hd. unfold is_dir in Hd.
    destruct (stat fs source) as [[d md|md]|e] eqn:Hs; try discriminate.
    apply (Hfail (EISDIR source)). unfold read_file. rewrite Hs. reflexivity.
  - intros data md Hs Hr.
    apply (Hfail (EACCES source)). unfold read_file. rewrite Hs, Hr. reflexivity.
Qed.

Lemma copy2_fresh_bytes (faults : option fault) (fs fs' : fsys) (src dst : path) :
  copy2 faults fs src dst = (Ok tt, fs') -> exists_ fs dst = false ->
  exists kt data md,
    read_file fs src = Ok (data, md) /\
    resolve fs dst = Ok kt /\ kt <> [] /\ find_node fs kt = None /\
    fs' = set_node fs kt (File data md).
Proof.
  intros H He.
  destruct (copy2_fresh_shape _ _ _ _ _ _ H He)
    as [[_ [e He']]|(kt & data & md & data' & md' & Hs & Hcr & Hr & Hne & Hn & -> & Hf)];
    [discriminate|].
  exists kt, data, md.
  split; [apply read_file_stat; auto|].
  split; [exact Hr|]. split; [exact Hne|]. split; [exact Hn|].
  destruct faults as [[written msg|mode_copied msg]|].
  - destruct Hf as [Hf _]; discriminate.
  - destruct Hf as [Hf _]; discriminate.
  - destruct Hf as (_ & -> & ->). reflexivity.
Qed.

(** What a copy onto a fresh target leaves, with the keys of both files. *)
Lemma copy_done (fs fs' : fsys) (source target : path) :
  exists_ fs target = false ->
  copy_file_with_metadata fs source target = (Ok true, fs') ->
  exists data md ks kt,
    can_read md = true /\
    resolve fs source = Ok ks /\ node_at fs ks = Some (File data md) /\
    resolve fs target = Ok kt /\ kt <> [] /\ find_node fs kt = None /\ ks <> kt /\
    fs' = set_node fs kt (File data md) /\
    resolve fs' source = Ok ks /\ node_at fs' ks = Some (File data md) /\
    resolve fs' target = Ok kt /\ node_at fs' kt = Some (File data md).
Proof.
  intros He H. rewrite copy_result in H.
  destruct (copy2 (copy_fault fs source target) fs source target)
    as [[[]|e] fs1] eqn:Hc; [|discriminate].
  injection H as ->.
  destruct (copy2_fresh_bytes _ _ _ _ _ Hc He)
    as (kt & data & md & Hread & Hrt & Hne & Hn & ->).
  apply read_file_stat in Hread as [Hs Hcr].
  apply stat_resolve in Hs as (ks & Hrs & Hks).
  assert (Hdiff : ks <> kt).
  { intros ->. rewrite node_at_find in Hks by exact Hne. congruence. }
  assert (Hev : evolve (fun _ => True) (fun _ => True) fs
                       (set_node fs kt (File data md))).
  { eapply evolve_create; [apply evolve_refl|exact I|exact Hne|exact Hn]. }
  exists data, md, ks, kt.
  split; [exact Hcr|]. split; [exact Hrs|]. split; [exact Hks|].
  split; [exact Hrt|]. split; [exact Hne|]. split; [exact Hn|].
  split; [exact Hdiff|]. split; [reflexivity|].
  split; [eapply evolve_resolve; eauto|].
  split; [rewrite node_at_set_node_ne by congruence; exact Hks|].
  split; [eapply evolve_resolve; eauto|].
  rewrite node_at_find by exact Hne. apply find_node_set_node_eq.
Qed.

(** A copy onto a path where nothing is yet: the target is a regular file
    with the bytes and the permission bits of the source, the source is as
    it was, and so is every other path.  [verify_copy] then answers [True],
    and [handle_merge] says skip for this target from now on. *)
Theorem copied_file_has_the_source_bytes (fs fs' : fsys) (source target : path) :
  exists_ fs target = false ->
  copy_file_with_metadata fs source target = (Ok true, fs') ->
  exists data md,
    stat fs source = Ok (File data md) /\ can_read md = true /\
    stat fs' target = Ok (File data md) /\
    stat fs' source = Ok (File data md) /\
    (forall k, resolve fs target <> Ok k -> find_node fs' k = find_node fs k) /\
    verify_copy fs' source target = Ok true /\
    handle_merge fs' target = (false, "skip").
Proof.
  intros He H.
  destruct (copy_done _ _ _ _ He H)
    as (data & md & ks & kt & Hcr & Hrs & Hks & Hrt & Hne & Hn & Hdiff & -> &
        Hrs' & Hks' & Hrt' & Hkt').
  assert (Hs : stat fs source = Ok (File data md)) by (apply stat_resolve; eauto).
  assert (Hs' : stat (set_node fs kt (File data md)) source = Ok (File data md))
    by (apply stat_resolve; eauto).
  assert (Ht' : stat (set_node fs kt (File data md)) target = Ok (File data md))
    by (apply stat_resolve; eauto).
  assert (Hex : exists_ (set_node fs kt (File data md)) target = true)
    by (apply exists_stat; eauto).
  exists data, md.
  split; [exact Hs|]. split; [exact Hcr|]. split; [exact Ht'|]. split; [exact Hs'|].
  split.
  - intros k Hk. apply find_node_set_node_ne. congruence.
  - split.
    + unfold verify_copy. rewrite Hex, Hs', Ht'. simpl. rewrite Nat.eqb_refl. reflexivity.
    + unfold handle_merge. rewrite Hex. reflexivity.
Qed.

(** ** file_organizer.py: [delete_original] *)

Lemma find_node_remove_node (fs : fsys) (k k' : path) :
  find_node (remove_node fs k) k' = if decide (k = k') then None else find_node fs k'.
Proof.
  unfold remove_node, fsys. induction fs as [|[q n] fs IH].
  - destruct (decide (k = k')); reflexivity.
  - destruct (decide (q = k)) as [->|Hq].
    + rewrite filter_cons_False by (simpl; intros H; apply H; reflexivity).
      rewrite IH. simpl. destruct (decide (k = k')); reflexivity.
    + rewrite filter_cons_True by (simpl; exact Hq).
      simpl. rewrite IH.
      destruct (decide (q = k')) as [->|]; [|reflexivity].
      destruct (decide (k = k')); [congruence|reflexivity].
Qed.

Lemma node_at_remove_node_ne (fs : fsys) (k k' : path) :
  k <> k' -> node_at (remove_node fs k) k' = node_at fs k'.
Proof.
  intros H. destruct k' as [|c k']; [reflexivity|].
  change (node_at ?x (c :: k')) with (find_node x (c :: k')).
  rewrite find_node_remove_node. destruct (decide (k = c :: k')); congruence.
Qed.

(** Removing a regular file leaves every path that resolved resolving. *)
Lemma walk_remove_file (fs : fsys) (k : path) (data : string) (md : mode)
  (o cur : path) (cs : list string) (r : path) :
  node_at fs k = Some (File data md) ->
  walk fs o cur cs = Ok r -> walk (remove_node fs k) o cur cs = Ok r.
Proof.
  intros Hk. revert cur. induction cs as [|c cs IH]; intros cur; simpl; [auto|].
  destruct (node_at fs cur) as [[d m|m]|] eqn:Hc; try discriminate.
  rewrite node_at_remove_node_ne by (intros ->; congruence).
  rewrite Hc. apply IH.
Qed.

Lemma unlink_done (fs fs' : fsys) (p : path) :
  unlink fs p = Ok fs' ->
  exists k data md,
    resolve fs p = Ok k /\ k <> [] /\ node_at fs k = Some (File data md) /\
    dir_writable fs (removelast k) = true /\ fs' = remove_node fs k.
Proof.
  unfold unlink. destruct (resolve fs p) as [k|e] eqn:Hr; [|discriminate].
  destruct (node_at fs k) as [[d md|md]|] eqn:Hk; try discriminate.
  destruct (dir_writable fs (removelast k)) eqn:Hw; [|discriminate].
  intros H; injection H as <-. exists k, d, md.
  split; [reflexivity|]. split; [|auto]. intros ->. discriminate.
Qed.

Lemma delete_done (fs fs' : fsys) (file_path : path) :
  delete_original fs file_path = (Ok true, fs') ->
  exists k data md,
    resolve fs file_path = Ok k /\ k <> [] /\ node_at fs k = Some (File data md) /\
    fs' = remove_node fs k /\ resolve fs' file_path = Ok k /\ node_at fs' k = None.
Proof.
  unfold delete_original. destruct (unlink fs file_path) as [fs1|e] eqn:Hu.
  - intros H; injection H as <-.
    apply unlink_done in Hu as (k & d & md & Hr & Hne & Hk & _ & ->).
    exists k, d, md. split; [exact Hr|]. split; [exact Hne|]. split; [exact Hk|].
    split; [reflexivity|]. split.
    + eapply walk_remove_file; eauto.
    + rewrite node_at_find by exact Hne. rewrite find_node_remove_node.
      destruct (decide (k = k)); congruence.
  - destruct e; discriminate.
Qed.

(** When [delete_original] answers [True], the path named a regular file,
    names nothing any more, and every other path is as it was. *)
Theorem delete_original_removes_only_the_file (fs fs' : fsys) (file_path : path) :
  delete_original fs file_path = (Ok true, fs') ->
  is_file fs file_path = true /\
  exists_ fs' file_path = false /\
  forall k, resolve fs file_path <> Ok k -> find_node fs' k = find_node fs k.
Proof.
  intros H.
  destruct (delete_done _ _ _ H) as (k & d & md & Hr & Hne & Hk & -> & Hr' & Hk').
  split; [apply is_file_resolve; eauto|]. split.
  - apply not_exists_stat. unfold stat. rewrite Hr', Hk'. eauto.
  - intros k' Hk''. rewrite find_node_remove_node.
    destruct (decide (k = k')); congruence.
Qed.

(** What [delete_original] does when it cannot delete: a file that is
    missing or lies in a directory that cannot be written is reported as
    [False]; a directory, or a path through a regular file, makes it raise
    ([IsADirectoryError], [NotADirectoryError]: neither is caught).  In all
    these cases nothing is changed. *)
Theorem delete_original_reports_or_raises (fs : fsys) (file_path : path) :
  (forall msg, stat fs file_path = Raise (FileNotFoundError msg) ->
   delete_original fs file_path = (Ok false, fs)) /\
  (forall k, resolve fs file_path = Ok k -> is_file fs file_path = true ->
             dir_writable fs (removelast k) = false ->
   delete_original fs file_path = (Ok false, fs)) /\
  (is_dir fs file_path = true ->
   delete_original fs file_path = (Raise (EISDIR file_path), fs)) /\
  (resolve fs file_path = Raise (ENOTDIR file_path) ->
   delete_original fs file_path = (Raise (ENOTDIR file_path), fs)) /\
  (fst (delete_original fs file_path) <> Ok true ->
   snd (delete_original fs file_path) = fs).
Proof.
  unfold delete_original, unlink. split; [|split; [|split; [|split]]].
  - intros msg. unfold stat.
    destruct (resolve fs file_path) as [k|e].
    + destruct (node_at fs k) as [n|]; [discriminate|]. reflexivity.
    + intros H; injection H as ->. reflexivity.
  - intros k Hr Hf Hw. rewrite Hr.
    apply is_file_resolve in Hf as (k' & d & md & Hr' & Hk).
    assert (k' = k) by congruence. subst k'.
    rewrite Hk, Hw. reflexivity.
  - intros Hd. apply is_dir_resolve in Hd as (k & md & Hr & Hk).
    rewrite Hr, Hk. reflexivity.
  - intros Hr. rewrite Hr. reflexivity.
  - destruct (resolve fs file_path) as [k|e].
    + destruct (node_at fs k) as [[d md|md]|]; try reflexivity.
      destruct (dir_writable fs (removelast k)); simpl; [congruence|reflexivity].
    + destruct e; reflexivity.
Qed.

(** Copy, then delete: when both answer [True] the file has moved.  The
    target holds the bytes and the permission bits the source had, and the
    source path names nothing. *)
Theorem copy_then_delete_moves_the_file (fs fs1 fs2 : fsys) (source target : path) :
  exists_ fs target = false ->
  copy_file_with_metadata fs source target = (Ok true, fs1) ->
  delete_original fs1 source = (Ok true, fs2) ->
  exists data md,
    stat fs source = Ok (File data md) /\
    stat fs2 target = Ok (File data md) /\
    exists_ fs2 source = false.
Proof.
  intros He Hc Hd.
  destruct (copy_done _ _ _ _ He Hc)
    as (data & md & ks & kt & Hcr & Hrs & Hks & Hrt & Hne & Hn & Hdiff & E1 &
        Hrs' & Hks' & Hrt' & Hkt').
  destruct (delete_done _ _ _ Hd) as (k & d & m & Hr & Hkne & Hk & -> & Hr' & Hk').
  assert (k = ks) by congruence. subst k.
  exists data, md. split; [apply stat_resolve; eauto|]. split.
  - apply stat_resolve. exists kt. split.
    + eapply walk_remove_file; eauto.
    + rewrite node_at_remove_node_ne by exact Hdiff. exact Hkt'.
  - apply not_exists_stat. unfold stat. rewrite Hr', Hk'. eauto.
Qed.

(** ** zip_creator.py: [create_zip] on an archive that exists *)

Lemma set_node_evolve (fs : fsys) (k : path) (data data' : string) (md : mode) :
  k <> [] ->
  find_node fs k = None \/ find_node fs k = Some (File data md) ->
  evolve (fun _ => True) (fun _ => True) fs (set_node fs k (File data' md)).
Proof.
  intros Hne [Hn|Hf].
  - eapply evolve_create; [apply evolve_refl|exact I|exact Hne|exact Hn].
  - eapply evolve_update; [apply evolve_refl|exact I|exact Hne|exact Hf].
Qed.



(** ** zip_creator.py: [create_zip] on a path that is not a directory *)

(** [create_zip] checks that the folder path exists, not that it is a
    directory.  On a regular file the archive is opened all the same, the
    listing then raises [NotADirectoryError], and what stays at the archive
    path is an archive without members. *)
Theorem create_zip_of_a_regular_file (fs fs1 : fsys) (folder_path zip_path kz : path) :
  is_file fs folder_path = true ->
  open_write true fs zip_path = Ok (kz, fs1) ->
  exists fs' md,
    create_zip fs folder_path zip_path = (Raise (ENOTDIR folder_path), fs') /\
    stat fs' zip_path = Ok (File (zip_encode []) md) /\
    forall k, k <> kz -> find_node fs' k = find_node fs k.
Proof.
  intros Hf Ho.
  assert (He : exists_ fs folder_path = true).
  { apply is_file_resolve in Hf as (k & d & md & Hr & Hk).
    apply exists_resolve. eauto. }
  pose proof (evolve_kept _ _ _ _ (open_write_evolve _ _ _ _ Ho)) as Hk1.
  pose proof (kept_is_file _ _ _ Hk1 Hf) as Hf1.
  apply is_file_resolve in Hf1 as (kf & d & mdf & Hrf & Hkf).
  pose proof (open_write_shape _ _ _ _ _ Ho) as (Hr & Hne & Hshape).
  assert (Hz : exists md, find_node fs1 kz = Some (File "" md) /\
                          forall k n, k <> kz ->
                            find_node (set_node fs1 kz n) k = find_node fs k).
  { destruct Hshape as [(_ & _ & ->)|(d0 & md0 & _ & _ & ->)]; eexists;
      (split; [apply find_node_set_node_eq|]);
      intros k n Hk; rewrite !find_node_set_node_ne by congruence; reflexivity. }
  destruct Hz as (md & Hz & Hframe).
  exists (write_data fs1 kz (fun _ => zip_encode [])), md.
  split; [|split].
  - unfold create_zip. rewrite He, Ho. simpl.
    unfold add_folder_to_zip, iterdir. rewrite Hrf, Hkf. reflexivity.
  - apply stat_resolve. exists kz. split.
    + eapply kept_resolve; [apply write_data_kept|].
      eapply kept_resolve; [exact Hk1|exact Hr].
    + rewrite node_at_find by exact Hne.
      rewrite (write_data_file _ _ _ _ _ Hz). apply find_node_set_node_eq.
  - intros k Hk. rewrite (write_data_file _ _ _ _ _ Hz). apply Hframe. exact Hk.
Qed.

(** ** logger.py: [setup_logging] *)

Lemma log_stdout (lg : logger) (l : level) (msg : string) (w : world) :
  w_stdout (log lg l msg w) = w_stdout w.
Proof.
  unfold log. destruct (levelno (console_level lg) <=? levelno l);
    destruct (file_handler lg); reflexivity.
Qed.

Lemma log_console_only (log_level l : level) (msg : string) (w : world) :
  w_fs (log (mkLogger log_level None) l msg w) = w_fs w.
Proof. rewrite log_fs. reflexivity. Qed.

(** [setup_logging] keeps everything that exists, the bytes of an older
    log file included (it is opened for appending): what it adds are the
    missing directories on the way to the output directory and, when there
    was none, an empty log file, to which the file handler is attached.  It
    writes nothing to the standard output. *)
Theorem setup_logging_keeps_what_exists
  (output_dir : path) (log_level : level) (w : world) :
  (forall k n,
     find_node (w_fs w) k = Some n ->
     find_node (w_fs (snd (setup_logging output_dir log_level w))) k = Some n) /\
  (forall k n,
     find_node (w_fs w) k = None ->
     find_node (w_fs (snd (setup_logging output_dir log_level w))) k = Some n ->
     n = Dir rw \/
     (n = File "" rw /\
      file_handler (fst (setup_logging output_dir log_level w)) = Some k)) /\
  w_stdout (snd (setup_logging output_dir log_level w)) = w_stdout w.
Proof.
  unfold setup_logging.
  destruct (mkdir_parents (w_fs w) output_dir) as [fs1|e] eqn:Hm.
  - apply mkdir_parents_adds in Hm. destruct Hm as [Hkeep Hnew].
    destruct (open_write false fs1 (join output_dir "photozipper.log"))
      as [[kl fs2]|e] eqn:Ho; cbn [fst snd file_handler w_fs w_stdout with_fs].
    + apply open_write_append in Ho as [->|[Hnone ->]].
      * split; [exact Hkeep|]. split; [|reflexivity].
        intros k n Hk Hk'. left. eapply Hnew; eauto.
      * split; [|split; [|reflexivity]].
        -- intros k n Hk. rewrite find_node_set_node_ne; [auto|].
           intros ->. rewrite (Hkeep _ _ Hk) in Hnone. discriminate.
        -- intros k n Hk. rewrite find_node_set_node.
           destruct (decide (kl = k)) as [->|Hne].
           ++ intros H; injection H as <-. right. split; reflexivity.
           ++ intros Hk'. left. eapply Hnew; eauto.
    + rewrite log_console_only, log_stdout. cbn [w_fs w_stdout with_fs].
      split; [exact Hkeep|]. split; [|reflexivity].
      intros k n Hk Hk'. left. eapply Hnew; eauto.
  - cbn [fst snd]. rewrite log_console_only, log_stdout.
    split; [auto|]. split; [|reflexivity]. intros k n Hk Hk'. congruence.
Qed.

(** Once [setup_logging] has attached the log file, calling it again on
    the world it left gives the same logger and changes nothing; the
    output directory is a directory and the log file a regular file. *)
Theorem setup_logging_twice (output_dir : path) (log_level : level) (w : world)
  (k : path) :
  file_handler (fst (setup_logging output_dir log_level w)) = Some k ->
  setup_logging output_dir log_level (snd (setup_logging output_dir log_level w))
    = setup_logging output_dir log_level w /\
  is_dir (w_fs (snd (setup_logging output_dir log_level w))) output_dir = true /\
  is_file (w_fs (snd (setup_logging output_dir log_level w)))
          (join output_dir "photozipper.log") = true.
Proof.
  intros Hh.
  destruct (setup_logging_attached _ _ _ _ Hh) as (ko & -> & Elg & Hb & _).
  rewrite (setup_logging_again _ ko _ _ Hb).
  split.
  - rewrite <- Elg. destruct (setup_logging output_dir log_level w); reflexivity.
  - destruct Hb as (Hr & [md Hko] & (d & ml & Hl & _)).
    split; [apply is_dir_resolve; eauto|].
    apply is_file_resolve. exists (log_key ko), d, ml. split.
    + rewrite join_plain by apply plain_log.
      rewrite (resolve_snoc _ _ _ _ _ Hr Hko), step_plain by apply plain_log.
      reflexivity.
    + rewrite node_at_find by (unfold log_key; destruct ko; discriminate).
      exact Hl.
Qed.

(** When the output path names a regular file, no log file can be made:
    [setup_logging] does not raise, it warns on the console (from level
    [WARNING] down) and returns a logger without file handler; the file
    system is untouched. *)
Theorem setup_logging_falls_back_to_console
  (output_dir : path) (log_level : level) (w : world) :
  is_file (w_fs w) output_dir = true ->
  setup_logging output_dir log_level w =
    (mkLogger log_level None,
     log (mkLogger log_level None) WARNING
         ("Could not create log file: " ++ exn_str (EEXIST output_dir)) w) /\
  w_fs (snd (setup_logging output_dir log_level w)) = w_fs w /\
  w_stderr (snd (setup_logging output_dir log_level w)) =
    if levelno log_level <=? levelno WARNING
    then w_stderr w ++ [format_record WARNING
                          ("Could not create log file: " ++ exn_str (EEXIST output_dir))]
    else w_stderr w.
Proof.
  intros Hf. unfold setup_logging. rewrite (mkdir_parents_on_file _ _ Hf).
  split; [reflexivity|]. cbn [snd]. split; [apply log_console_only|].
  unfold log. cbn [console_level file_handler].
  destruct (levelno log_level <=? levelno WARNING); reflexivity.
Qed.

(** ** cli.py: the counters of the summary *)

Lemma process_file_counts (a : args) (group_folder : path) (source_file : SourceFile)
  (st st' : state) :
  dry_run a = false ->
  process_file a group_folder source_file st = (Next, st') ->
  (files_skipped st' = files_skipped st + 1 /\
   files_copied st' = files_copied st /\ files_deleted st' = files_deleted st) \/
  (files_skipped st' = files_skipped st /\
   files_copied st' = files_copied st + 1 /\
   files_deleted st' = files_deleted st + (if delete_originals a then 1 else 0)).
Proof.
  intros Hdry. unfold process_file.
  destruct (handle_merge (st_fs st) (join group_folder (sf_name source_file)))
    as [should_copy action].
  destruct should_copy; simpl.
  - rewrite Hdry.
    destruct (copy_file_with_metadata (st_fs st) (sf_path source_file)
                (join group_folder (sf_name source_file))) as [[b|e] fs1];
      [|discriminate].
    destruct (verify_copy fs1 (sf_path source_file)
                (join group_folder (sf_name source_file))) as [[|]|e];
      try discriminate.
    destruct (delete_originals a).
    + destruct (delete_original _ (sf_path source_file)) as [[b'|e] fs3];
        [|discriminate].
      intros H; injection H as <-. right. cbn. auto.
    + intros H; injection H as <-. right. cbn. auto with arith.
  - intros H; injection H as <-. left. cbn. auto.
Qed.

Lemma process_files_counts (a : args) (group_folder : path)
  (files : list SourceFile) (st st' : state) :
  dry_run a = false ->
  process_files a group_folder files st = (Next, st') ->
  files_copied st' + files_skipped st' =
    files_copied st + files_skipped st + length files /\
  files_deleted st' + (if delete_originals a then files_copied st else 0) =
    files_deleted st + (if delete_originals a then files_copied st' else 0).
Proof.
  intros Hdry. revert st. induction files as [|sf files IH]; intros st; simpl.
  - intros H; injection H as <-. lia.
  - destruct (process_file a group_folder sf st) as [c st1] eqn:Hf.
    destruct c; try discriminate.
    intros H. apply IH in H. apply (process_file_counts _ _ _ _ _ Hdry) in Hf.
    destruct (delete_originals a); lia.
Qed.

Lemma process_group_counts (a : args) (output_dir : path) (group : FileGroup)
  (st st' : state) :
  dry_run a = false ->
  process_group a output_dir group st = (Next, st') ->
  files_copied st' + files_skipped st' =
    files_copied st + files_skipped st + file_count group /\
  files_deleted st' + (if delete_originals a then files_copied st else 0) =
    files_deleted st + (if delete_originals a then files_copied st' else 0).
Proof.
  intros Hdry. unfold process_group. rewrite Hdry. cbn [negb].
  destruct (create_folder _ _) as [fs1|e]; [|discriminate].
  destruct (process_files a _ (fg_files group) _) as [c st2] eqn:Hf.
  destruct c; try discriminate.
  apply (process_files_counts _ _ _ _ _ Hdry) in Hf. cbn in Hf.
  destruct (create_zip _ _ _) as [[u|e] fs3]; [|discriminate].
  destruct (zip_only a).
  - destruct (rmtree _ _) as [[u'|e] fs4]; [|discriminate].
    intros H; injection H as <-. cbn. unfold file_count. exact Hf.
  - intros H; injection H as <-. cbn. unfold file_count. exact Hf.
Qed.

Lemma process_groups_counts (a : args) (output_dir : path)
  (groups : list FileGroup) (st st' : state) :
  dry_run a = false ->
  process_groups a output_dir groups st = (Next, st') ->
  files_copied st' + files_skipped st' =
    files_copied st + files_skipped st + total_files groups /\
  files_deleted st' + (if delete_originals a then files_copied st else 0) =
    files_deleted st + (if delete_originals a then files_copied st' else 0).
Proof.
  intros Hdry. revert st. induction groups as [|g groups IH]; intros st; simpl.
  - intros H; injection H as <-. unfold total_files. simpl. lia.
  - destruct (process_group a output_dir g st) as [c st1] eqn:Hg.
    destruct c; try discriminate.
    intros H. apply IH in H. apply (process_group_counts _ _ _ _ _ Hdry) in Hg.
    unfold total_files in *. simpl. destruct (delete_originals a); lia.
Qed.

(** The counters of a run that is not a preview and ends with success:
    every file of every group was either copied or skipped, and with
    [--delete-originals] the number reported as deleted is the number
    copied (without it, zero). *)
Theorem run_counters_add_up (a : args) (lg : logger) (w : world) (st : state)
  (groups : list FileGroup) :
  dry_run a = false ->
  organize a lg w = (Return 0, st) ->
  scan_and_group (st_fs (started a lg w)) (source a) (pattern a) = Ok groups ->
  files_copied st + files_skipped st = total_files groups /\
  files_deleted st = (if delete_originals a then files_copied st else 0).
Proof.
  intros Hdry Ho Hs. unfold organize in Ho. rewrite Hs in Ho.
  destruct groups as [|g groups].
  - injection Ho as <-. cbn. split; [reflexivity|].
    destruct (delete_originals a); reflexivity.
  - destruct (process_groups a (output a) (g :: groups) _) as [c st7] eqn:Hp.
    pose proof (process_groups_ctl _ _ _ _ _ _ Hp) as [->|[->|[e ->]]];
      try discriminate.
    injection Ho as <-.
    apply (process_groups_counts _ _ _ _ _ Hdry) in Hp. cbn in Hp. cbn.
    destruct (delete_originals a); lia.
Qed.

(** ** cli.py: originals that cannot be deleted *)

Lemma delete_original_unwritable (fs : fsys) (file_path k : path) :
  resolve fs file_path = Ok k -> is_file fs file_path = true ->
  dir_writable fs (removelast k) = false ->
  delete_original fs file_path = (Ok false, fs).
Proof.
  intros Hr Hf Hw. unfold delete_original, unlink. rewrite Hr.
  apply is_file_resolve in Hf as (k' & d & md & Hr' & Hk).
  assert (k' = k) by congruence. subst k'.
  rewrite Hk, Hw. reflexivity.
Qed.

Lemma kept_unwritable (fs fs' : fsys) (k : path) (md : mode) :
  kept fs fs' -> node_at fs k = Some (Dir md) ->
  dir_writable fs k = false -> dir_writable fs' k = false.
Proof.
  intros H Hk. unfold dir_writable. pose proof (H k) as Hk'.
  rewrite Hk in *. rewrite Hk'. auto.
Qed.

Lemma logs_kept (l : level) (msg : string) (st : state) :
  kept (st_fs st) (st_fs (logs l msg st)).
Proof. rewrite logs_fs. apply append_log_kept. Qed.

(** With [--delete-originals], a file that is copied and verified is
    counted as deleted whether or not it could be deleted: when its
    directory cannot be written, [delete_original] answers [False], the
    answer is not read, and the original is still there after it was
    counted. *)
Theorem deleted_count_ignores_failed_deletion
  (a : args) (group_folder : path) (source_file : SourceFile) (st st' : state)
  (ks : path) :
  dry_run a = false -> delete_originals a = true ->
  exists_ (st_fs st) (target_of group_folder source_file) = false ->
  resolve (st_fs st) (sf_path source_file) = Ok ks ->
  dir_writable (st_fs st) (removelast ks) = false ->
  process_file a group_folder source_file st = (Next, st') ->
  files_copied st' = files_copied st + 1 /\
  files_deleted st' = files_deleted st + 1 /\
  is_file (st_fs st') (sf_path source_file) = true.
Proof.
  intros Hdry Hdel He Hrs Hw. unfold process_file.
  fold (target_of group_folder source_file).
  unfold handle_merge. rewrite He, Hdry, Hdel. cbn [negb].
  destruct (copy_file_with_metadata (st_fs st) (sf_path source_file)
              (target_of group_folder source_file)) as [[b|e] fs1] eqn:Hc;
    [|discriminate].
  destruct (copy_fresh _ _ _ _ _ Hc He)
    as [->|(kt & data & md & data' & md' & Hs & _ & _ & Hne & Hn & ->)].
  { unfold verify_copy. rewrite He. discriminate. }
  set (fs1 := set_node (st_fs st) kt (File data' md')).
  assert (K1 : kept (st_fs st) fs1).
  { eapply evolve_kept. apply (set_node_evolve _ _ "" _ _ Hne). auto. }
  assert (Hf : is_file (st_fs st) (sf_path source_file) = true)
    by (unfold is_file; rewrite Hs; reflexivity).
  destruct (verify_copy fs1 _ _) as [[|]|e]; try discriminate.
  - set (st2 := count_copied (logs DEBUG _ (set_fs st fs1))).
    assert (K2 : kept (st_fs st) (st_fs st2)).
    { eapply kept_trans; [exact K1|].
      change (st_fs st2) with (st_fs (logs DEBUG ("Copied: " ++ sf_name source_file)
                                           (set_fs st fs1))).
      apply (logs_kept DEBUG _ (set_fs st fs1)). }
    destruct (resolve_parent_dir _ _ _ Hrs) as [mdp Hp].
    rewrite (delete_original_unwritable (st_fs st2) _ ks).
    + intros H; injection H as <-.
      split; [reflexivity|]. split; [reflexivity|].
      change (st_fs (count_deleted ?s)) with (st_fs s).
      eapply kept_is_file; [|exact Hf].
      eapply kept_trans; [exact K2|].
      apply (logs_kept DEBUG _ (set_fs_removed st2 (st_fs st2))).
    + eapply kept_resolve; eauto.
    + eapply kept_is_file; eauto.
    + eapply kept_unwritable; eauto.
Qed.

(** ** cli.py: what a run leaves in place *)

Lemma copy_kept (fs fs1 : fsys) (source target : path) (r : res bool) :
  exists_ fs target = false ->
  copy_file_with_metadata fs source target = (r, fs1) -> kept fs fs1.
Proof.
  intros He H.
  destruct (copy_fresh _ _ _ _ _ H He)
    as [->|(kt & data & md & data' & md' & _ & _ & _ & Hne & Hn & ->)];
    [apply kept_refl|].
  eapply evolve_kept. apply (set_node_evolve _ _ "" _ _ Hne). auto.
Qed.

Lemma process_file_kept (a : args) (group_folder : path) (source_file : SourceFile)
  (st st' : state) (c : ctl) :
  delete_originals a = false ->
  process_file a group_folder source_file st = (c, st') ->
  kept (st_fs st) (st_fs st').
Proof.
  intros Hdel. unfold process_file. unfold handle_merge.
  destruct (exists_ (st_fs st) (join group_folder (sf_name source_file))) eqn:He;
    cbn [negb].
  - intros H; injection H as _ <-.
    change (st_fs (count_skipped ?s)) with (st_fs s). apply logs_kept.
  - destruct (dry_run a).
    + intros H; injection H as _ <-. apply logs_kept.
    + destruct (copy_file_with_metadata (st_fs st) (sf_path source_file) _)
        as [r fs1] eqn:Hc.
      pose proof (copy_kept _ _ _ _ _ He Hc) as K1.
      assert (Klog : forall l msg, kept (st_fs st) (st_fs (logs l msg (set_fs st fs1)))).
      { intros l msg. eapply kept_trans; [exact K1|].
        apply (logs_kept l msg (set_fs st fs1)). }
      destruct r as [b|e]; [|intros H; injection H as _ <-; apply Klog].
      destruct (verify_copy fs1 _ _) as [[|]|e];
        try (intros H; injection H as _ <-; apply Klog).
      rewrite Hdel. intros H; injection H as _ <-.
      change (st_fs (count_copied ?s)) with (st_fs s). apply Klog.
Qed.

Lemma process_files_kept (a : args) (group_folder : path) (files : list SourceFile)
  (st st' : state) (c : ctl) :
  delete_originals a = false ->
  process_files a group_folder files st = (c, st') ->
  kept (st_fs st) (st_fs st').
Proof.
  intros Hdel. revert st. induction files as [|sf files IH]; intros st; simpl.
  - intros H; injection H as _ <-. apply kept_refl.
  - destruct (process_file a group_folder sf st) as [c1 st1] eqn:Hf.
    apply (process_file_kept _ _ _ _ _ _ Hdel) in Hf.
    destruct c1.
    + intros H. eapply kept_trans; [exact Hf|eapply IH; eauto].
    + intros H; injection H as _ <-. exact Hf.
    + intros H; injection H as _ <-. exact Hf.
Qed.

Lemma create_zip_kept (fs fs' : fsys) (folder_path zip_path : path) (r : res unit) :
  create_zip fs folder_path zip_path = (r, fs') -> kept fs fs'.
Proof.
  unfold create_zip. destruct (exists_ fs folder_path); cbn [negb].
  - destruct (open_write true fs zip_path) as [[k fs1]|e] eqn:Ho.
    + destruct (add_folder_to_zip fs1 [] folder_path) as [r1 zf].
      intros H; injection H as _ <-.
      eapply kept_trans; [|apply write_data_kept].
      eapply evolve_kept. eapply open_write_evolve; eauto.
    + intros H; injection H as _ <-. apply kept_refl.
  - intros H; injection H as _ <-. apply kept_refl.
Qed.

Lemma process_group_kept (a : args) (output_dir : path) (group : FileGroup)
  (st st' : state) (c : ctl) :
  delete_originals a = false -> zip_only a = false ->
  process_group a output_dir group st = (c, st') ->
  kept (st_fs st) (st_fs st').
Proof.
  intros Hdel Hzip. unfold process_group. rewrite Hzip.
  set (st0 := logs INFO _ st).
  assert (K0 : kept (st_fs st) (st_fs st0)) by apply logs_kept.
  assert (Hrest : forall st1 c st',
    kept (st_fs st) (st_fs st1) ->
    match process_files a (join output_dir (fg_name group)) (fg_files group) st1 with
    | (Next, st2) =>
        if negb (dry_run a)
        then
          match create_zip (st_fs st2) (join output_dir (fg_name group))
                  (join output_dir (fg_name group ++ ".zip")) with
          | (Raise e, fs3) =>
              (Return 1,
               logs ERROR ("Error creating ZIP for " ++ fg_name group ++ ": "
                             ++ exn_str e) (set_fs st2 fs3))
          | (Ok _, fs3) =>
              (Next, logs INFO ("Created ZIP: "
                                  ++ basename (join output_dir (fg_name group ++ ".zip")))
                          (set_fs st2 fs3))
          end
        else
          (Next, logs INFO ("[DRY RUN] Would create ZIP: "
                              ++ basename (join output_dir (fg_name group ++ ".zip")))
                      st2)
    | stop => stop
    end = (c, st') -> kept (st_fs st) (st_fs st')).
  { intros st1 c1 st1' K1.
    destruct (process_files a _ (fg_files group) st1) as [c2 st2] eqn:Hf.
    apply (process_files_kept _ _ _ _ _ _ Hdel) in Hf.
    assert (K2 : kept (st_fs st) (st_fs st2)) by (eapply kept_trans; eauto).
    destruct c2; try (intros H; injection H as _ <-; exact K2).
    destruct (dry_run a); cbn [negb].
    - intros H; injection H as _ <-.
      eapply kept_trans; [exact K2|apply logs_kept].
    - destruct (create_zip (st_fs st2) _ _) as [r fs3] eqn:Hz.
      apply create_zip_kept in Hz.
      assert (K3 : forall l msg, kept (st_fs st) (st_fs (logs l msg (set_fs st2 fs3)))).
      { intros l msg. eapply kept_trans; [exact K2|].
        eapply kept_trans; [exact Hz|]. apply (logs_kept l msg (set_fs st2 fs3)). }
      destruct r; intros H; injection H as _ <-; apply K3. }
  destruct (dry_run a) eqn:Hdry; cbn [negb] in *.
  - apply Hrest. eapply kept_trans; [exact K0|apply logs_kept].
  - destruct (create_folder (st_fs st0) _) as [fs1|e] eqn:Hc.
    + apply Hrest. eapply kept_trans; [exact K0|].
      eapply kept_trans; [|apply (logs_kept DEBUG _ (set_fs st0 fs1))].
      eapply evolve_kept. eapply mkdir_parents_evolve. exact Hc.
    + intros H; injection H as _ <-. exact K0.
Qed.

Lemma process_groups_kept (a : args) (output_dir : path) (groups : list FileGroup)
  (st st' : state) (c : ctl) :
  delete_originals a = false -> zip_only a = false ->
  process_groups a output_dir groups st = (c, st') ->
  kept (st_fs st) (st_fs st').
Proof.
  intros Hdel Hzip. revert st. induction groups as [|g groups IH]; intros st; simpl.
  - intros H; injection H as _ <-. apply kept_refl.
  - destruct (process_group a output_dir g st) as [c1 st1] eqn:Hg.
    apply (process_group_kept _ _ _ _ _ _ Hdel Hzip) in Hg.
    destruct c1.
    + intros H. eapply kept_trans; [exact Hg|eapply IH; eauto].
    + intros H; injection H as _ <-. exact Hg.
    + intros H; injection H as _ <-. exact Hg.
Qed.

Lemma logged_kept (st st' : state) : logged st st' -> kept (st_fs st) (st_fs st').
Proof. intros [_ [text ->]]. apply append_log_kept. Qed.

Lemma organize_kept (a : args) (lg : logger) (w : world) (c : ctl) (st : state) :
  delete_originals a = false -> zip_only a = false ->
  organize a lg w = (c, st) -> kept (w_fs w) (st_fs st).
Proof.
  intros Hdel Hzip. unfold organize.
  assert (K0 : kept (w_fs w) (st_fs (started a lg w)))
    by (apply (logged_kept (mkState w lg 0 0 0)), logged_started).
  destruct (scan_and_group _ _ _) as [[|g groups]|e].
  - intros H; injection H as _ <-.
    eapply kept_trans; [exact K0|].
    change (st_fs (print_state ?l ?s)) with (st_fs s). apply logs_kept.
  - set (st6 := logs INFO _ (started a lg w)).
    destruct (process_groups a (output a) (g :: groups) st6) as [c1 st7] eqn:Hp.
    apply (process_groups_kept _ _ _ _ _ _ Hdel Hzip) in Hp.
    assert (K7 : kept (w_fs w) (st_fs st7)).
    { eapply kept_trans; [exact K0|].
      eapply kept_trans; [apply logs_kept|exact Hp]. }
    destruct c1; intros H; injection H as _ <-; try exact K7.
    eapply kept_trans; [exact K7|].
    apply (logs_kept INFO _ (print_state _ st7)).
  - intros H; injection H as _ <-. exact K0.
Qed.

Lemma setup_logging_kept (output_dir : path) (log_level : level) (w : world) :
  kept (w_fs w) (w_fs (snd (setup_logging output_dir log_level w))).
Proof.
  unfold setup_logging.
  destruct (mkdir_parents (w_fs w) output_dir) as [fs1|e] eqn:Hm.
  - apply mkdir_parents_evolve, evolve_kept in Hm.
    destruct (open_write false fs1 _) as [[kl fs2]|e] eqn:Ho; cbn [snd].
    + eapply kept_trans; [exact Hm|]. cbn [w_fs with_fs].
      pose proof (open_write_shape _ _ _ _ _ Ho) as (_ & Hne & Hshape).
      destruct Hshape as [(Hn & _ & ->)|(d & md & _ & _ & ->)]; [|apply kept_refl].
      eapply evolve_kept. apply (set_node_evolve _ _ "" _ _ Hne). auto.
    + rewrite log_console_only. exact Hm.
  - cbn [snd]. rewrite log_console_only. apply kept_refl.
Qed.

(** Without [--delete-originals] and [--zip-only] a run removes and
    replaces nothing, however it ends: every directory is still that
    directory, every regular file is still a regular file with its
    permission bits, and every path that named something still does. *)
Theorem run_without_flags_removes_nothing (a : args) (w : world) :
  delete_originals a = false -> zip_only a = false ->
  kept (w_fs w) (w_fs (snd (main (Some a) w))) /\
  (forall p, exists_ (w_fs w) p = true ->
             exists_ (w_fs (snd (main (Some a) w))) p = true) /\
  (forall p, is_file (w_fs w) p = true ->
             is_file (w_fs (snd (main (Some a) w))) p = true) /\
  (forall p, is_dir (w_fs w) p = true ->
             is_dir (w_fs (snd (main (Some a) w))) p = true).
Proof.
  intros Hdel Hzip.
  assert (K : kept (w_fs w) (w_fs (snd (main (Some a) w)))).
  { unfold main.
    destruct (validate_arguments a); [apply kept_refl|].
    destruct (exists_ (w_fs w) (source a)); cbn [negb]; [|apply kept_refl].
    destruct (is_dir (w_fs w) (source a)); cbn [negb]; [|apply kept_refl].
    destruct (validate_pattern (pattern a)) as [b|e]; [|destruct e; apply kept_refl].
    pose proof (setup_logging_kept (output a) (log_level a) w) as K0.
    destruct (setup_logging (output a) (log_level a) w) as [lg w1]. cbn [snd] in K0.
    destruct (organize a lg w1) as [c st] eqn:Ho.
    apply (organize_kept _ _ _ _ _ Hdel Hzip) in Ho.
    assert (K1 : kept (w_fs w) (st_fs st)) by (eapply kept_trans; eauto).
    destruct c; cbn [snd]; try exact K1.
    eapply kept_trans; [exact K1|].
    apply (logs_kept ERROR _ st). }
  split; [exact K|]. split; [|split]; intros p.
  - apply kept_exists. exact K.
  - apply kept_is_file. exact K.
  - apply kept_is_dir. exact K.
Qed.

(** ** cli.py: a scan that finds nothing *)

Lemma logs_stdout (l : level) (msg : string) (st : state) :
  w_stdout (st_world (logs l msg st)) = w_stdout (st_world st).
Proof. apply log_stdout. Qed.

Lemma started_stdout (a : args) (lg : logger) (w : world) :
  w_stdout (st_world (started a lg w)) = w_stdout w.
Proof. unfold started. rewrite !logs_stdout. reflexivity. Qed.

Lemma setup_logging_stdout (output_dir : path) (log_level : level) (w : world) :
  w_stdout (snd (setup_logging output_dir log_level w)) = w_stdout w.
Proof.
  unfold setup_logging. destruct (mkdir_parents (w_fs w) output_dir) as [fs1|e].
  - destruct (open_write false fs1 _) as [[kl fs2]|e]; cbn [snd];
      rewrite ?log_stdout; reflexivity.
  - cbn [snd]. apply log_stdout.
Qed.

(** When the arguments are accepted and the scan finds no group, the run
    is a success: exit code 0, the line [No files matched the pattern] on
    the standard output, and no folder and no archive; the file system is
    the one [setup_logging] left with text appended to the log file. *)
Theorem no_match_is_a_successful_run (a : args) (w : world) :
  ~ invalid_input a (w_fs w) ->
  scan_of_run a w = Ok [] ->
  fst (main (Some a) w) = 0 /\
  w_stdout (snd (main (Some a) w)) = w_stdout w ++ ["No files matched the pattern"] /\
  (exists text,
     w_fs (snd (main (Some a) w)) =
     append_log (fst (setup_logging (output a) (log_level a) w)) text
                (w_fs (snd (setup_logging (output a) (log_level a) w)))) /\
  (forall k,
     file_handler (fst (setup_logging (output a) (log_level a) w)) <> Some k ->
     find_node (w_fs (snd (main (Some a) w))) k = find_node (w_fs w) k \/
     (find_node (w_fs w) k = None /\
      find_node (w_fs (snd (main (Some a) w))) k = Some (Dir rw))).
Proof.
  intros Hv Hs. unfold invalid_input in Hv. unfold scan_of_run in Hs.
  pose proof (setup_logging_stdout (output a) (log_level a) w) as Hout.
  pose proof (setup_logging_frame (output a) (log_level a) w) as Hframe.
  assert (Hmain : main (Some a) w =
    (0, st_world (print_state "No files matched the pattern"
                   (logs WARNING "No files matched the pattern"
                      (started a (fst (setup_logging (output a) (log_level a) w))
                                 (snd (setup_logging (output a) (log_level a) w))))))).
  { unfold main.
    destruct (validate_arguments a) as [m|]; [exfalso; apply Hv; left; discriminate|].
    destruct (exists_ (w_fs w) (source a)); cbn [negb]; [|exfalso; auto].
    destruct (is_dir (w_fs w) (source a)); cbn [negb]; [|exfalso; auto].
    destruct (validate_pattern (pattern a)) as [b|e]; [|exfalso; eauto 6].
    destruct (setup_logging (output a) (log_level a) w) as [lg w1].
    cbn [fst snd] in *. unfold organize. rewrite Hs. reflexivity. }
  rewrite Hmain. cbn [fst snd].
  set (lg := fst (setup_logging (output a) (log_level a) w)) in *.
  set (w1 := snd (setup_logging (output a) (log_level a) w)) in *.
  assert (Hlog : logged (mkState w1 lg 0 0 0)
                        (print_state "No files matched the pattern"
                           (logs WARNING "No files matched the pattern"
                                 (started a lg w1)))).
  { eapply logged_trans; [apply logged_started|].
    eapply logged_trans; [apply logged_logs|apply logged_print]. }
  split; [reflexivity|]. split; [|split].
  - cbn [print_state st_world w_stdout print_stdout].
    rewrite logs_stdout, started_stdout, Hout. reflexivity.
  - destruct Hlog as [_ Ht]. exact Ht.
  - intros k Hk.
    change (w_fs (st_world ?s)) with (st_fs s).
    rewrite (logged_find _ _ k Hlog) by exact Hk.
    apply Hframe. exact Hk.
Qed.

(** ** cli.py: what a successful run leaves in the destination *)

Lemma first_run_done (a : args) (w0 w1 : world) (groups : list FileGroup) (k : path) :
  dry_run a = false -> zip_only a = false -> delete_originals a = false ->
  main (Some a) w0 = (0, w1) ->
  file_handler (fst (setup_logging (output a) (log_level a) w0)) = Some k ->
  scan_of_run a w0 = Ok groups ->
  plain_names groups ->
  exists ko,
    k = log_key ko /\ base (output a) ko (w_fs w1) /\
    forall g, In g groups -> done_group (output a) ko (w_fs w1) g.
Proof.
  intros Hdry Hzip Hdel Hmain Hh Hs0 Hp.
  destruct (main_success _ _ _ Hmain) as (Hva & Hex & Hdir & [r Hre] & st1 & Ho1 & ->).
  destruct (setup_logging_attached _ _ _ _ Hh) as (ko & -> & Elg & Hb0 & Hev0).
  unfold scan_of_run in Hs0.
  set (lg := fst (setup_logging (output a) (log_level a) w0)) in *.
  set (wa := snd (setup_logging (output a) (log_level a) w0)) in *.
  assert (Hlg : file_handler lg = Some (log_key ko)) by exact Hh.
  assert (Hevs : evolve (fun _ => False) (updates ko []) (w_fs wa)
                        (st_fs (started a lg wa)))
    by exact (logged_evolve a ko lg Hlg (mkState wa lg 0 0 0) _ eq_refl Hb0
                (logged_started a lg wa)).
  assert (Hba : base (output a) ko (st_fs (started a lg wa)))
    by exact (base_evolve a ko lg Hlg _ _ _ _ Hevs Hb0).
  exists ko. split; [reflexivity|].
  change (w_fs (st_world st1)) with (st_fs st1).
  destruct (organize_success _ _ _ _ Ho1) as (groups' & Hsc & Hcase).
  rewrite Hs0 in Hsc. injection Hsc as <-.
  destruct Hcase as [[-> Hlog]|(st7 & Hpg & Hlog)].
  - pose proof (logged_evolve a ko lg Hlg _ _ (proj1 (started_counters a lg wa)) Hba Hlog)
      as Hev.
    split; [eapply (base_evolve a ko lg Hlg); eauto|]. intros g [].
  - set (st6 := logs INFO _ (started a lg wa)) in Hpg.
    assert (Hev6 : evolve (fun _ => False) (updates ko []) (st_fs (started a lg wa))
                          (st_fs st6))
      by (apply (logs_evolve a ko lg Hlg); [reflexivity|exact Hba]).
    assert (Hb6 : base (output a) ko (st_fs st6))
      by (eapply (base_evolve a ko lg Hlg); eauto).
    destruct (process_groups_first a ko lg Hdry Hzip Hdel Hlg groups st6 st7
                eq_refl Hb6 Hp (scan_and_group_NoDup _ _ _ _ _ Hre Hs0) Hpg)
      as (Hl7 & Hev7 & Hd7).
    assert (Hb7 : base (output a) ko (st_fs st7))
      by (eapply (base_evolve a ko lg Hlg); eauto).
    pose proof (logged_evolve a ko lg Hlg _ _ Hl7 Hb7 Hlog) as Hev8.
    split; [eapply (base_evolve a ko lg Hlg); eauto|].
    intros g Hg. destruct (log_avoids_group ko (fg_name g)) as [Hrm Hu].
    eapply (done_group_stable a ko lg Hlg);
      [exact Hev8|exact Hb7|apply Hp; exact Hg|exact Hrm|exact Hu|auto].
Qed.

(** After a successful run without flags, with the log file open, on
    groups whose identifiers and file names are ordinary names: every
    group has its folder in the output directory, every file of the group
    is there at its target path, and the archive of the group beside the
    folder holds exactly the regular files that lie directly in the folder. *)
Theorem successful_run_archives_every_group
  (a : args) (w0 w1 : world) (groups : list FileGroup) (k : path) :
  dry_run a = false -> zip_only a = false -> delete_originals a = false ->
  main (Some a) w0 = (0, w1) ->
  file_handler (fst (setup_logging (output a) (log_level a) w0)) = Some k ->
  scan_of_run a w0 = Ok groups ->
  plain_names groups ->
  forall g, In g groups ->
    is_dir (w_fs w1) (join (output a) (fg_name g)) = true /\
    (forall sf, In sf (fg_files g) ->
       exists_ (w_fs w1) (target_of (join (output a) (fg_name g)) sf) = true) /\
    exists md,
      stat (w_fs w1) (join (output a) (fg_name g ++ ".zip"))
      = Ok (File (zip_encode (direct_files (w_fs w1) (join (output a) (fg_name g)))) md).
Proof.
  intros Hdry Hzip Hdel Hmain Hh Hs0 Hp g Hg.
  destruct (first_run_done _ _ _ _ _ Hdry Hzip Hdel Hmain Hh Hs0 Hp)
    as (ko & -> & Hb & Hdone).
  destruct (Hp g Hg) as [Hpg Hpf].
  destruct (Hdone g Hg) as ([md Hfolder] & Hfiles & (zf & mz & Hz & _ & Ha)).
  rewrite (join_plain _ _ Hpg), (join_plain _ _ (plain_zip (fg_name g))).
  split; [|split].
  - apply is_dir_resolve. exists (folder_key ko (fg_name g)), md.
    split; [apply (resolve_folder a ko); assumption|exact Hfolder].
  - intros sf Hsf. unfold target_of. rewrite (join_plain _ _ (Hpf sf Hsf)).
    destruct (Hfiles sf Hsf) as [n Hn].
    apply exists_resolve. exists (target_key ko (fg_name g) (sf_name sf)), n.
    split; [|exact Hn].
    apply (resolve_target a ko _ _ _ md); auto.
  - exists mz. apply add_folder_to_zip_ok in Ha. subst zf.
    apply stat_resolve. exists (zip_key ko (fg_name g)).
    split; [apply (resolve_zip a ko); assumption|].
    rewrite node_at_find by (unfold zip_key; destruct ko; discriminate).
    exact Hz.
Qed.

(** ** cli.py: an output path that is a regular file *)

Lemma logs_no_handler (l : level) (msg : string) (st : state) :
  file_handler (st_logger st) = None -> st_fs (logs l msg st) = st_fs st.
Proof. intros H. rewrite logs_fs. unfold append_log. rewrite H. reflexivity. Qed.

Lemma started_no_handler (a : args) (lg : logger) (w : world) :
  file_handler lg = None ->
  st_fs (started a lg w) = w_fs w /\ st_logger (started a lg w) = lg.
Proof.
  intros H. split; [|reflexivity].
  destruct (logged_started a lg w) as [_ [text ->]].
  unfold append_log. cbn [st_logger]. rewrite H. reflexivity.
Qed.

Lemma create_folder_below_file (fs : fsys) (output_dir : path) (name : string) :
  is_file fs output_dir = true ->
  exists e, create_folder fs (join output_dir name) = Raise e.
Proof.
  intros Hf. unfold create_folder, join.
  destruct (decide (name = "" \/ name = ".")) as [_|_].
  - rewrite (mkdir_parents_on_file _ _ Hf). eauto.
  - apply is_file_resolve in Hf as (k & d & md & Hr & Hk).
    rewrite mkdir_parents_through_file; [eauto|].
    unfold resolve. rewrite walk_snoc.
    rewrite (walk_orig _ _ (output_dir ++ [name]) _ _ _ Hr), Hk. reflexivity.
Qed.

(** When [--output] names a regular file, a run that is not a preview and
    finds a group fails: no log file is opened, the folder of the first
    group cannot be created, the error ends the run with exit code 1, and
    the file system is as it was. *)
Theorem output_that_is_a_file_fails_the_run
  (a : args) (w : world) (g : FileGroup) (groups : list FileGroup) :
  ~ invalid_input a (w_fs w) ->
  dry_run a = false ->
  is_file (w_fs w) (output a) = true ->
  scan_of_run a w = Ok (g :: groups) ->
  fst (main (Some a) w) = 1 /\
  w_fs (snd (main (Some a) w)) = w_fs w /\
  file_handler (fst (setup_logging (output a) (log_level a) w)) = None.
Proof.
  intros Hv Hdry Hf Hs. unfold invalid_input in Hv. unfold scan_of_run in Hs.
  assert (Hsetup : setup_logging (output a) (log_level a) w =
            (mkLogger (log_level a) None,
             log (mkLogger (log_level a) None) WARNING
                 ("Could not create log file: " ++ exn_str (EEXIST (output a))) w)).
  { unfold setup_logging. rewrite (mkdir_parents_on_file _ _ Hf). reflexivity. }
  rewrite Hsetup in *. cbn [fst snd] in *.
  set (lg := mkLogger (log_level a) None) in *.
  set (w1 := log lg WARNING _ w) in *.
  assert (Hw1 : w_fs w1 = w_fs w) by apply log_console_only.
  destruct (started_no_handler a lg w1 eq_refl) as [Hfs0 Hlg0].
  set (st6 := logs INFO ("Found " ++ str_nat (length (g :: groups)) ++ " group(s)")
                   (started a lg w1)).
  set (st0 := logs INFO ("Processing group '" ++ fg_name g ++ "' ("
                           ++ str_nat (file_count g) ++ " file(s))") st6).
  assert (Hfs : st_fs st0 = w_fs w).
  { unfold st0, st6. rewrite !logs_no_handler by reflexivity. congruence. }
  assert (Hgroup : exists e, process_group a (output a) g st6 = (Raised e, st0)).
  { unfold process_group. fold st0. rewrite Hdry. cbn [negb].
    destruct (create_folder_below_file (st_fs st0) (output a) (fg_name g)) as [e He].
    { rewrite Hfs. exact Hf. }
    rewrite He. eauto. }
  destruct Hgroup as [e Hgroup].
  assert (Hmain : main (Some a) w =
    (1, print_stderr
          (st_world (logs ERROR ("Unexpected error: " ++ exn_str e) st0))
          ("Error: " ++ exn_str e))).
  { unfold main.
    destruct (validate_arguments a) as [m|]; [exfalso; apply Hv; left; discriminate|].
    destruct (exists_ (w_fs w) (source a)); cbn [negb]; [|exfalso; auto].
    destruct (is_dir (w_fs w) (source a)); cbn [negb]; [|exfalso; auto].
    destruct (validate_pattern (pattern a)) as [b|e0]; [|exfalso; eauto 6].
    rewrite Hsetup. unfold organize. fold lg w1. rewrite Hs. fold st6.
    cbn [process_groups]. rewrite Hgroup. reflexivity. }
  rewrite Hmain. cbn [fst snd]. split; [reflexivity|]. split; [|reflexivity].
  change (w_fs (print_stderr ?x ?y)) with (w_fs x).
  change (w_fs (st_world ?s)) with (st_fs s).
  rewrite logs_no_handler by reflexivity. exact Hfs.
Qed.

(** ** cli.py: [--zip-only] *)

Lemma rmtree_at_gone (fuel : nat) (fs fs' : fsys) (p k : path) :
  rmtree_at fuel fs p k = (Ok tt, fs') -> k <> [] /\ find_node fs' k = None.
Proof.
  destruct fuel as [|fuel]; simpl; [discriminate|].
  destruct (node_at fs k) as [[d md|md]|]; try discriminate.
  destruct (can_read md); [|discriminate].
  match goal with
  | |- context [?go (children fs k) fs] =>
      destruct (go (children fs k) fs) as [[u|e0] fs1]
  end; [|discriminate].
  destruct k as [|c k]; [discriminate|].
  destruct (dir_writable fs1 (removelast (c :: k))); [|discriminate].
  intros H; injection H as <-. split; [discriminate|].
  rewrite find_node_remove_node.
  destruct (decide _); [reflexivity|congruence].
Qed.

Lemma rmtree_at_frame (fuel : nat) :
  forall (fs fs' : fsys) (p k : path) (r : res unit),
    rmtree_at fuel fs p k = (r, fs') ->
    forall q, (forall rest, q <> k ++ rest) -> find_node fs' q = find_node fs q.
Proof.
  induction fuel as [|fuel IH]; intros fs fs' p k r; simpl.
  - intros H; injection H as _ <-. reflexivity.
  - destruct (node_at fs k) as [[d md|md]|];
      try (intros H; injection H as _ <-; reflexivity).
    destruct (can_read md); [|intros H; injection H as _ <-; reflexivity].
    match goal with
    | |- context [?e (children fs k) fs] => set (go := e)
    end.
    assert (Hgo : forall cs fs0 r0 fs0',
              (forall q, (forall rest, q <> k ++ rest) -> find_node fs0 q = find_node fs q) ->
              go cs fs0 = (r0, fs0') ->
              forall q, (forall rest, q <> k ++ rest) -> find_node fs0' q = find_node fs q).
    { induction cs as [|[name n] cs IHcs]; intros fs0 r0 fs0' Hfs0.
      - simpl. intros H; injection H as _ <-. exact Hfs0.
      - intros H. unfold go in H. simpl in H. fold go in H.
        assert (Hchild : forall q, (forall rest, q <> k ++ rest) ->
                                   forall rest, q <> (k ++ [name]) ++ rest).
        { intros q Hq rest. rewrite <- app_assoc. apply Hq. }
        destruct n as [d0 m0|m0].
        + destruct (can_write md); [|injection H as _ <-; exact Hfs0].
          eapply IHcs; [|exact H].
          intros q Hq. rewrite find_node_remove_node.
          destruct (decide _) as [E|_]; [|apply Hfs0; exact Hq].
          exfalso. apply (Hq [name]). symmetry. exact E.
        + destruct (rmtree_at fuel fs0 (p ++ [name]) (k ++ [name])) as [r1 fs1] eqn:Hr.
          assert (Hfs1 : forall q, (forall rest, q <> k ++ rest) ->
                                   find_node fs1 q = find_node fs q).
          { intros q Hq. rewrite (IH _ _ _ _ _ Hr q (Hchild q Hq)). apply Hfs0. exact Hq. }
          destruct r1 as [u|e1]; [|injection H as _ <-; exact Hfs1].
          eapply IHcs; [exact Hfs1|exact H]. }
    destruct (go (children fs k) fs) as [r1 fs1] eqn:Hempt.
    pose proof (Hgo _ _ _ _ (fun q _ => eq_refl) Hempt) as Hfs1.
    destruct r1 as [u|e1]; [|intros H; injection H as _ <-; exact Hfs1].
    destruct k as [|c k]; [intros H; injection H as _ <-; exact Hfs1|].
    destruct (dir_writable fs1 (removelast (c :: k)));
      [|intros H; injection H as _ <-; exact Hfs1].
    intros H; injection H as _ <-. intros q Hq.
    rewrite find_node_remove_node.
    destruct (decide _) as [E|_]; [|apply Hfs1; exact Hq].
    exfalso. apply (Hq []). rewrite app_nil_r. symmetry. exact E.
Qed.

Lemma rmtree_done (fs fs' : fsys) (p : path) :
  rmtree fs p = (Ok tt, fs') ->
  exists k,
    resolve fs p = Ok k /\ k <> [] /\ find_node fs' k = None /\
    forall q, (forall rest, q <> k ++ rest) -> find_node fs' q = find_node fs q.
Proof.
  unfold rmtree. destruct (resolve fs p) as [k|e]; [|discriminate].
  intros H. exists k. split; [reflexivity|].
  destruct (rmtree_at_gone _ _ _ _ _ H) as [Hne Hn].
  split; [exact Hne|]. split; [exact Hn|].
  eapply rmtree_at_frame; eauto.
Qed.

Lemma walk_same_key (fs fs' : fsys) (o o' cur : path) (cs : list string) (k k' : path) :
  walk fs o cur cs = Ok k -> walk fs' o' cur cs = Ok k' -> k = k'.
Proof.
  revert cur. induction cs as [|c cs IH]; intros cur; simpl.
  - congruence.
  - destruct (node_at fs cur) as [[d md|md]|]; try discriminate.
    destruct (node_at fs' cur) as [[d' md'|md']|]; try discriminate.
    apply IH.
Qed.

Lemma walk_plain (fs : fsys) (o cur : path) (cs : list string) (k : path) :
  Forall plain cs -> walk fs o cur cs = Ok k -> k = cur ++ cs.
Proof.
  intros Hp. revert cur. induction Hp as [|c cs Hc Hcs IH]; intros cur; simpl.
  - intros H; injection H as <-. rewrite app_nil_r. reflexivity.
  - destruct (node_at fs cur) as [[d md|md]|]; try discriminate.
    rewrite (step_plain _ _ Hc). intros H. apply IH in H.
    rewrite <- app_assoc in H. exact H.
Qed.

(** Resolution reads only the nodes above the path resolved. *)
Lemma walk_short_frame (fs fs' : fsys) (n : nat) (o cur : path)
  (cs : list string) (k : path) :
  (forall q, length q <= n -> node_at fs' q = node_at fs q) ->
  Forall plain cs -> length cur + length cs <= S n ->
  walk fs o cur cs = Ok k -> walk fs' o cur cs = Ok k.
Proof.
  intros Hsame Hp. revert cur. induction Hp as [|c cs Hc Hcs IH]; intros cur Hlen; simpl.
  - auto.
  - simpl in Hlen. rewrite Hsame by lia.
    destruct (node_at fs cur) as [[d md|md]|]; try discriminate.
    rewrite (step_plain _ _ Hc). apply IH. rewrite length_app. simpl. lia.
Qed.

Lemma append_log_resolve (lg : logger) (text : string) (fs : fsys) (p : path) :
  resolve (append_log lg text fs) p = resolve fs p.
Proof.
  unfold append_log. destruct (file_handler lg); [|reflexivity].
  unfold resolve. apply write_data_walk.
Qed.

Lemma append_log_absent (lg : logger) (text : string) (fs : fsys) (k : path) :
  find_node fs k = None -> find_node (append_log lg text fs) k = None.
Proof.
  intros Hk. unfold append_log. destruct (file_handler lg) as [kl|]; [|exact Hk].
  destruct (decide (kl = k)) as [->|Hne].
  - unfold write_data. rewrite Hk. exact Hk.
  - rewrite write_data_find by exact Hne. exact Hk.
Qed.

Lemma not_under_shorter (k q : path) :
  length q < length k -> forall rest, q <> k ++ rest.
Proof. intros H rest ->. rewrite length_app in H. lia. Qed.

Lemma not_under_sibling (d : path) (x y : string) :
  x <> y -> forall rest, d ++ [y] <> (d ++ [x]) ++ rest.
Proof.
  intros Hxy rest E. rewrite <- app_assoc in E. apply app_inv_head in E.
  destruct rest; simpl in E; [|destruct rest; discriminate].
  injection E as E. congruence.
Qed.

Lemma zip_name_not_folder (g : string) : g <> (g ++ ".zip")%string.
Proof.
  intros E. apply (f_equal String.length) in E.
  rewrite str_length_app in E. simpl in E. lia.
Qed.

(** With [--zip-only], when a group is done its folder is gone with the
    copies in it, and the archive of the group and the log file are still
    there.  (The output path is written with ordinary names only.) *)
Theorem zip_only_removes_the_folder
  (a : args) (ko : path) (g : FileGroup) (st st' : state) :
  dry_run a = false -> zip_only a = true -> delete_originals a = false ->
  Forall plain (output a) ->
  file_handler (st_logger st) = Some (log_key ko) ->
  base (output a) ko (st_fs st) ->
  plain (fg_name g) -> (forall sf, In sf (fg_files g) -> plain (sf_name sf)) ->
  process_group a (output a) g st = (Next, st') ->
  exists_ (st_fs st') (join (output a) (fg_name g)) = false /\
  (forall sf, In sf (fg_files g) ->
     exists_ (st_fs st') (target_of (join (output a) (fg_name g)) sf) = false) /\
  is_file (st_fs st') (join (output a) (fg_name g ++ ".zip")) = true /\
  is_file (st_fs st') (join (output a) "photozipper.log") = true.
Proof.
  intros Hdry Hzip Hdel Hout Hlg Hb Hpg Hpf.
  set (lg := st_logger st) in *.
  assert (Eko : ko = output a).
  { destruct Hb as (Hr & _). apply (walk_plain _ _ _ _ _ Hout) in Hr. exact Hr. }
  unfold process_group. rewrite Hdry, Hzip. cbn [negb].
  rewrite (join_plain _ _ Hpg), (join_plain _ _ (plain_zip (fg_name g))),
    (join_plain _ _ plain_log).
  set (st0 := logs INFO _ st).
  assert (Hb0 : base (output a) ko (st_fs st0)).
  { eapply (base_evolve a ko lg Hlg); [|exact Hb].
    apply (logs_evolve a ko lg Hlg); [reflexivity|exact Hb]. }
  destruct (create_folder (st_fs st0) (output a ++ [fg_name g])) as [fs1|e] eqn:Hc;
    [|discriminate].
  rewrite <- (join_plain _ _ Hpg) in Hc.
  destruct (create_folder_first a ko _ _ _ Hb0 Hpg Hc) as (Hev1 & md1 & Hf1).
  assert (Hb1 : base (output a) ko fs1) by (eapply (base_evolve a ko lg Hlg); eauto).
  set (st1 := logs DEBUG _ (set_fs st0 fs1)).
  assert (Hev1' : evolve (fun _ => False) (updates ko []) fs1 (st_fs st1))
    by (apply (logs_evolve a ko lg Hlg DEBUG _ (set_fs st0 fs1)); [reflexivity|exact Hb1]).
  assert (Hb1' : base (output a) ko (st_fs st1))
    by (eapply (base_evolve a ko lg Hlg); eauto).
  assert (Hf1' : node_at (st_fs st1) (folder_key ko (fg_name g)) = Some (Dir md1))
    by (eapply evolve_dir; eauto).
  destruct (process_files a (output a ++ [fg_name g]) (fg_files g) st1)
    as [c2 st2] eqn:Hfiles.
  destruct c2; try discriminate.
  destruct (process_files_first a ko lg Hdry Hdel Hlg (fg_name g) (fg_files g) st1 st2
              md1 eq_refl Hb1' Hpg Hpf Hf1' Hfiles) as (Hl2 & Hev2 & _).
  assert (Hb2 : base (output a) ko (st_fs st2))
    by (eapply (base_evolve a ko lg Hlg); eauto).
  assert (Hf2 : node_at (st_fs st2) (folder_key ko (fg_name g)) = Some (Dir md1))
    by (eapply evolve_dir; eauto).
  destruct (create_zip (st_fs st2) _ _) as [[u|e] fs3] eqn:Hz; [|discriminate].
  destruct u.
  destruct (create_zip_first a ko _ _ _ md1 Hb2 Hpg Hf2 Hz)
    as (Hev3 & zf & mz & Hzip3 & _ & _).
  assert (Hb3 : base (output a) ko fs3) by (eapply (base_evolve a ko lg Hlg); eauto).
  set (st3 := logs INFO _ (set_fs st2 fs3)).
  assert (Hev3' : evolve (fun _ => False) (updates ko []) fs3 (st_fs st3))
    by (apply (logs_evolve a ko lg Hlg INFO _ (set_fs st2 fs3)); [exact Hl2|exact Hb3]).
  assert (Hb3' : base (output a) ko (st_fs st3))
    by (eapply (base_evolve a ko lg Hlg); eauto).
  assert (Hf3 : node_at (st_fs st3) (folder_key ko (fg_name g)) = Some (Dir md1)).
  { eapply evolve_dir; [exact Hev3'|]. eapply evolve_dir; eauto. }
  assert (Hzip3' : exists d, find_node (st_fs st3) (zip_key ko (fg_name g))
                             = Some (File d mz)).
  { assert (Hne : zip_key ko (fg_name g) <> [])
      by (unfold zip_key; destruct ko; discriminate).
    rewrite <- (node_at_find _ _ Hne) in Hzip3.
    destruct (evolve_file _ _ _ _ _ _ _ Hev3' Hzip3) as (d & Hd & _).
    rewrite (node_at_find _ _ Hne) in Hd. eauto. }
  destruct Hzip3' as [dz Hzip3'].
  destruct (rmtree (st_fs st3) (output a ++ [fg_name g])) as [[u|e] fs4] eqn:Hrm;
    [|discriminate].
  destruct u.
  destruct (rmtree_done _ _ _ Hrm) as (k & Hrk & Hkne & Hgone & Hframe).
  pose proof (resolve_folder a ko _ _ Hb3' Hpg) as Hrk'.
  assert (k = folder_key ko (fg_name g)) by congruence. subst k.
  intros H; injection H as <-.
  rewrite logs_fs. cbn [st_fs set_fs_removed st_world with_fs w_fs st_logger].
  set (lg' := refresh _ fs4). set (text := record_line INFO _).
  destruct Hb3' as (Hro & [mdo Hko] & (dl & ml & Hlog & _)).
  assert (Hnotlog : fg_name g <> "photozipper.log").
  { intros E. unfold folder_key in Hf3. unfold log_key in Hlog. rewrite E in Hf3.
    rewrite node_at_find in Hf3 by (destruct ko; discriminate). congruence. }
  assert (Hshort : forall q, length q <= length ko -> node_at fs4 q = node_at (st_fs st3) q).
  { intros q Hq. destruct q as [|c q]; [reflexivity|].
    apply Hframe. apply not_under_shorter.
    unfold folder_key. rewrite length_app. simpl. simpl in Hq. lia. }
  assert (Hchild : forall name, plain name ->
            resolve (append_log lg' text fs4) (output a ++ [name]) = Ok (ko ++ [name])).
  { intros name Hname. rewrite append_log_resolve. unfold resolve.
    apply (walk_short_frame (st_fs st3) fs4 (length ko)).
    - exact Hshort.
    - apply Forall_app. split; [exact Hout|]. constructor; [exact Hname|constructor].
    - rewrite length_app, Eko. simpl. lia.
    - fold (resolve (st_fs st3) (output a ++ [name])).
      rewrite (resolve_snoc _ _ _ _ _ Hro Hko), (step_plain _ _ Hname). reflexivity. }
  assert (Hfile : forall name d md,
            plain name -> name <> fg_name g ->
            find_node (st_fs st3) (ko ++ [name]) = Some (File d md) ->
            is_file (append_log lg' text fs4) (output a ++ [name]) = true).
  { intros name d md Hname Hne Hn.
    assert (Hn4 : node_at fs4 (ko ++ [name]) = Some (File d md)).
    { rewrite node_at_find by (destruct ko; discriminate).
      rewrite Hframe; [exact Hn|].
      apply not_under_sibling. congruence. }
    pose proof (append_log_kept lg' text fs4 (ko ++ [name])) as Hk.
    rewrite Hn4 in Hk. destruct Hk as [d' Hk].
    apply is_file_resolve. exists (ko ++ [name]), d', md.
    split; [apply Hchild; exact Hname|exact Hk]. }
  assert (Hnofolder : forall k2 n,
            resolve (append_log lg' text fs4) (output a ++ [fg_name g]) = Ok k2 ->
            node_at (append_log lg' text fs4) k2 = Some n -> False).
  { intros k2 n Hr2 Hn2.
    rewrite append_log_resolve in Hr2.
    assert (k2 = folder_key ko (fg_name g))
      by (symmetry; eapply (walk_same_key (st_fs st3) fs4); eauto).
    subst k2. rewrite node_at_find in Hn2 by exact Hkne.
    rewrite (append_log_absent _ _ _ _ Hgone) in Hn2. discriminate. }
  split; [|split; [|split]].
  - destruct (exists_ _ (output a ++ [fg_name g])) eqn:He; [|reflexivity].
    exfalso. apply exists_resolve in He as (k2 & n & Hr2 & Hn2). eauto.
  - intros sf Hsf. unfold target_of. rewrite (join_plain _ _ (Hpf sf Hsf)).
    destruct (exists_ _ _) eqn:He; [|reflexivity].
    exfalso. apply exists_resolve in He as (k3 & n & Hr3 & _).
    apply resolve_snoc_inv in Hr3 as (k2 & md & Hr2 & Hn2 & _). eauto.
  - apply (Hfile _ dz mz (plain_zip _)); [|exact Hzip3'].
    intros E. exact (zip_name_not_folder _ (eq_sym E)).
  - apply (Hfile _ dl ml plain_log); [congruence|exact Hlog].
Qed.
End Program.

(* ===================================================================== *)
(** ** The theorems at work on the sample runs                            *)
(* ===================================================================== *)

(** C9 on a truncated copy and on a complete one. *)
Lemma verify_copy_true_iff_same_size_witness :
  verify_copy fs_truncated ["src"; "a.jpg"] ["out"; "short.jpg"] = Ok false /\
  verify_copy fs_truncated ["src"; "a.jpg"] ["out"; "whole.jpg"] = Ok true.
Proof.
  split.
  - apply (proj2 (verify_copy_true_iff_same_size
                    fs_truncated ["src"; "a.jpg"] ["out"; "short.jpg"])
             "abcdef" rw "abc" rw); [reflexivity|reflexivity|simpl; lia].
  - apply (proj1 (verify_copy_true_iff_same_size
                    fs_truncated ["src"; "a.jpg"] ["out"; "whole.jpg"])).
    split; [reflexivity|].
    exists (File "abcdef" rw), (File "ABCDEF" rw).
    split; [reflexivity|]. split; reflexivity.
Defined.

(** C10 with the source gone and the target there. *)
Lemma verify_copy_raises_on_missing_source_witness :
  exists_ fs_truncated ["out"; "whole.jpg"] = true /\
  exists_ fs_truncated ["src"; "gone.jpg"] = false /\
  (exists e,
     stat fs_truncated ["src"; "gone.jpg"] = Raise e /\ is_OSError e = true /\
     verify_copy fs_truncated ["src"; "gone.jpg"] ["out"; "whole.jpg"] = Raise e) /\
  verify_copy fs_truncated ["src"; "a.jpg"] ["out"; "absent.jpg"] = Ok false.
Proof.
  split; [reflexivity|]. split; [reflexivity|]. split.
  - apply (proj1 (verify_copy_raises_on_missing_source
                    fs_truncated ["src"; "gone.jpg"] ["out"; "whole.jpg"]));
      reflexivity.
  - apply (proj2 (verify_copy_raises_on_missing_source
                    fs_truncated ["src"; "a.jpg"] ["out"; "absent.jpg"])).
    reflexivity.
Defined.

(** C5 on the merge scenario: the stored file keeps its byte, the source
    file with other bytes is counted as skipped. *)
Lemma existing_target_is_skipped_witness :
  exists_ (st_fs state_merge) (target_of ["out"; "merge"] source_merge) = true /\
  process_file no_fault args_merge ["out"; "merge"] source_merge state_merge
    = (Next, skipped source_merge state_merge) /\
  files_skipped (skipped source_merge state_merge) = 1 /\
  stat (st_fs (skipped source_merge state_merge)) (target_of ["out"; "merge"] source_merge)
    = Ok (File "1" rw).
Proof.
  pose proof (existing_target_is_skipped no_fault args_merge ["out"; "merge"] source_merge
                state_merge eq_refl) as (_ & Hp & Hs & _ & _ & Hf).
  split; [reflexivity|]. split; [exact Hp|]. split; [exact Hs|].
  rewrite (Hf ["out"; "merge"; "merge_a.jpg"]); [reflexivity|reflexivity|discriminate].
Defined.

(** C5 fails when the file at the target path is the open log file: the
    record of the skip is appended to it. *)
Lemma skip_appends_to_existing_log_file :
  extract_group ReSyntax.compile "photozipper.log" (pattern args_log) = Ok (Some "") /\
  join (output args_log) "" = ["out"] /\
  exists_ (st_fs state_log) (target_of ["out"] source_log) = true /\
  read_file (st_fs state_log) (target_of ["out"] source_log) = Ok ("old", rw) /\
  process_file no_fault args_log ["out"] source_log state_log
    = (Next, skipped source_log state_log) /\
  read_file (st_fs (skipped source_log state_log)) (target_of ["out"] source_log)
    = Ok (("old" ++ record_line INFO "Skipping duplicate: photozipper.log")%string, rw) /\
  read_file (st_fs (skipped source_log state_log)) (target_of ["out"] source_log)
    <> read_file (st_fs state_log) (target_of ["out"] source_log).
Proof.
  repeat split; try reflexivity. vm_compute. discriminate.
Qed.

(** C1 on three copies that fail: of a picture that cannot be read, on a
    disk that is full after one byte, and where the metadata cannot be
    set.  The first two end the run; after the third the picture counts as
    copied. *)
Lemma copy_failure_aborts_run_witness :
  process_files no_fault args_locked ["out"; "a"] [locked_1; locked_2] state_locked =
    (Return 1, logs ERROR "Copy verification failed: a_1.jpg" state_locked) /\
  copy_file_with_metadata disk_full (st_fs state_locked) (sf_path locked_2)
    (target_of ["out"; "a"] locked_2) = (Ok false, fs_cut_short) /\
  process_files disk_full args_locked ["out"; "a"] [locked_2; locked_1] state_locked =
    (Return 1, logs ERROR "Copy verification failed: a_2.jpg"
                    (set_fs state_locked fs_cut_short)) /\
  copy_file_with_metadata no_utime (st_fs state_locked) (sf_path locked_2)
    (target_of ["out"; "a"] locked_2) = (Ok false, fs_unstamped) /\
  process_files no_utime args_locked ["out"; "a"] [locked_2] state_locked =
    (Next, count_copied (logs DEBUG "Copied: a_2.jpg"
                              (set_fs state_locked fs_unstamped))).
Proof.
  pose proof (copy_failure_aborts_run no_fault args_locked ["out"; "a"] locked_1
                [locked_2] state_locked (st_fs state_locked)
                eq_refl eq_refl eq_refl) as (_ & Hstop & _ & Hnothing & _).
  pose proof (copy_failure_aborts_run disk_full args_locked ["out"; "a"] locked_2
                [locked_1] state_locked fs_cut_short
                eq_refl eq_refl eq_refl) as (_ & Hstop' & _ & _ & Hshort & _).
  pose proof (copy_failure_aborts_run no_utime args_locked ["out"; "a"] locked_2
                [] state_locked fs_unstamped
                eq_refl eq_refl eq_refl) as (_ & _ & Hgo & _ & _ & Hwhole).
  split; [|split; [reflexivity|split; [|split; [reflexivity|]]]].
  - exact (Hstop (proj2 (Hnothing (or_introl eq_refl)))).
  - apply Hstop'.
    apply (Hshort 1 "[Errno 28] No space left on device" "two" rw);
      [reflexivity|reflexivity|simpl; lia].
  - apply Hgo; [|reflexivity].
    apply (Hwhole false "[Errno 1] Operation not permitted"); reflexivity.
Defined.

(** C1 fails: the copy of the first picture fails with a permission error,
    and the run ends there with exit code 1; the second picture, which
    could be copied, is never processed. *)
Lemma copy_failure_stops_the_run :
  copy2 None (st_fs state_locked) ["src"; "a_1.jpg"] ["out"; "a"; "a_1.jpg"]
    = (Raise (PermissionError "[Errno 13] Permission denied: 'src/a_1.jpg'"),
       st_fs state_locked) /\
  fst (copy_file_with_metadata no_fault (st_fs state_locked) ["src"; "a_1.jpg"]
         ["out"; "a"; "a_1.jpg"]) = Ok false /\
  fst (process_files no_fault args_locked ["out"; "a"] [locked_1; locked_2] state_locked)
    = Return 1 /\
  fst (main ReSyntax.compile zip_store no_fault takes_all (Some args_locked) world_locked) = 1 /\
  exists_ (w_fs (snd (main ReSyntax.compile zip_store no_fault takes_all
                        (Some args_locked) world_locked)))
          ["out"; "a"; "a_2.jpg"] = false /\
  fst (copy_file_with_metadata no_fault (st_fs state_locked) ["src"; "a_2.jpg"]
         ["out"; "a"; "a_2.jpg"]) = Ok true.
Proof.
  repeat split; vm_compute; reflexivity.
Qed.

(** C2 on a pattern that does not compile. *)
Lemma validation_errors_exit_like_fatal_errors_witness :
  invalid_input ReSyntax.compile args_bad (w_fs world_vacation) /\
  exists msg,
    main ReSyntax.compile zip_store no_fault takes_all (Some args_bad) world_vacation
      = (1, print_stderr world_vacation msg).
Proof.
  assert (H : invalid_input ReSyntax.compile args_bad (w_fs world_vacation)).
  { right; right; right. eexists. vm_compute. reflexivity. }
  split; [exact H|].
  exact (proj1 (validation_errors_exit_like_fatal_errors
                  ReSyntax.compile zip_store no_fault takes_all
                  args_bad world_vacation) H).
Defined.

(** C2 fails: a pattern that does not compile and a copy that cannot be
    verified end the run with the same exit code, each with one line on
    the error stream. *)
Lemma validation_and_fatal_error_exit_alike :
  validate_pattern ReSyntax.compile (pattern args_bad)
    = Raise (ValueError "Invalid regex pattern: unterminated character set") /\
  fst (main ReSyntax.compile zip_store no_fault takes_all (Some args_bad) world_vacation) = 1 /\
  w_stderr (snd (main ReSyntax.compile zip_store no_fault takes_all (Some args_bad) world_vacation))
    = ["Error: Invalid regex pattern: unterminated character set"] /\
  fst (main ReSyntax.compile zip_store no_fault takes_all (Some args_locked) world_locked) = 1 /\
  w_stderr (snd (main ReSyntax.compile zip_store no_fault takes_all
                      (Some args_locked) world_locked))
    = ["photozipper - ERROR - Copy verification failed: a_1.jpg"].
Proof.
  repeat split; vm_compute; reflexivity.
Qed.

(** C3 on the preview of the holiday run. *)
Lemma dry_run_writes_only_the_log_witness :
  dry_run args_dry = true /\
  (forall k,
      k <> ["out"; "photozipper.log"] ->
      find_node (w_fs (snd (main ReSyntax.compile zip_store no_fault takes_all (Some args_dry)
                              world_vacation))) k
        = find_node fs_vacation k \/
      (find_node fs_vacation k = None /\
       find_node (w_fs (snd (main ReSyntax.compile zip_store no_fault takes_all (Some args_dry)
                               world_vacation))) k = Some (Dir rw))).
Proof.
  split; [reflexivity|].
  intros k Hk.
  apply (proj2 (dry_run_writes_only_the_log ReSyntax.compile zip_store no_fault takes_all
                  args_dry world_vacation eq_refl) k).
  vm_compute. congruence.
Defined.

(** C3 fails: the preview creates the output directory and writes the log
    file in it. *)
Lemma dry_run_creates_output_and_log :
  dry_run args_dry = true /\
  exists_ fs_vacation ["out"] = false /\
  main ReSyntax.compile zip_store no_fault takes_all (Some args_dry) world_vacation
    = (0, mkWorld (fs_vacation ++
                     [ (["out"], Dir rw);
                       (["out"; "photozipper.log"], File log_dry_run rw) ])%list
                  [("[DRY RUN] Would process 2 files in 1 groups"
                      ++ String Re.newline "" ++ "Groups: vacation")%string]
                  []) /\
  w_fs (snd (main ReSyntax.compile zip_store no_fault takes_all (Some args_dry) world_vacation))
    <> w_fs world_vacation.
Proof.
  repeat split; try (vm_compute; reflexivity). vm_compute. discriminate.
Qed.

Lemma plain_names_vacation : plain_names groups_vacation.
Proof.
  intros g [<-|[]]. split; [repeat split; discriminate|].
  intros sf [<-|[<-|[]]]; repeat split; discriminate.
Qed.

(** C4 on two holiday runs in a row. *)
Lemma second_run_changes_only_the_log_witness :
  main ReSyntax.compile zip_store no_fault takes_all (Some args_vacation) world_vacation
    = (0, world_vacation_done) /\
  scan_of_run ReSyntax.compile args_vacation world_vacation = Ok groups_vacation /\
  scan_of_run ReSyntax.compile args_vacation world_vacation_done = Ok groups_vacation /\
  plain_names groups_vacation /\
  exists st text,
    main ReSyntax.compile zip_store no_fault takes_all (Some args_vacation) world_vacation_done
      = (0, st_world st) /\
    files_copied st = 0 /\ files_skipped st = 2 /\
    st_fs st = write_data (w_fs world_vacation_done) ["out"; "photozipper.log"]
                 (fun data => (data ++ text)%string).
Proof.
  assert (H1 : main ReSyntax.compile zip_store no_fault takes_all
                 (Some args_vacation) world_vacation
               = (0, world_vacation_done)) by (vm_compute; reflexivity).
  assert (H2 : scan_of_run ReSyntax.compile args_vacation world_vacation
               = Ok groups_vacation) by (vm_compute; reflexivity).
  assert (H3 : scan_of_run ReSyntax.compile args_vacation world_vacation_done
               = Ok groups_vacation) by (vm_compute; reflexivity).
  split; [exact H1|]. split; [exact H2|]. split; [exact H3|].
  split; [exact plain_names_vacation|].
  destruct (second_run_changes_only_the_log ReSyntax.compile zip_store no_fault takes_all
              args_vacation world_vacation world_vacation_done groups_vacation
              ["out"; "photozipper.log"] eq_refl eq_refl eq_refl H1 eq_refl H2 H3
              plain_names_vacation)
    as (st & text & _ & Hm & Hc & Hs & _ & Hf & _).
  exists st, text. split; [exact Hm|]. split; [exact Hc|]. split; [exact Hs|exact Hf].
Defined.

(** C4 fails: the second run leaves the destination as the first run left
    it except for the log file, which has grown by the records of the
    second run. *)
Lemma second_run_appends_to_the_log :
  main ReSyntax.compile zip_store no_fault takes_all (Some args_vacation) world_vacation
    = (0, world_vacation_done) /\
  fst (main ReSyntax.compile zip_store no_fault takes_all
         (Some args_vacation) world_vacation_done) = 0 /\
  w_fs (snd (main ReSyntax.compile zip_store no_fault takes_all
                  (Some args_vacation) world_vacation_done))
    = fs_vacation_done (log_first_run ++ log_second_run) /\
  w_fs world_vacation_done = fs_vacation_done log_first_run /\
  find_node (fs_vacation_done (log_first_run ++ log_second_run)) ["out"; "photozipper.log"]
    <> find_node (fs_vacation_done log_first_run) ["out"; "photozipper.log"].
Proof.
  repeat split; try (vm_compute; reflexivity). vm_compute. discriminate.
Qed.

(** C6 on the first trip. *)
Lemma extract_group_is_leftmost_match_witness :
  ReSyntax.compile "trip\d{4}" = Ok re_trip /\
  extract_group ReSyntax.compile "my_trip2004_trip2005.jpg" "trip\d{4}"
    = Ok (Some "trip2004") /\
  (exists i j pre post,
     Re.span (list_ascii_of_string "my_trip2004_trip2005.jpg") re_trip i j /\
     (forall i' j',
        Re.span (list_ascii_of_string "my_trip2004_trip2005.jpg") re_trip i' j' ->
        i <= i') /\
     "trip2004" = substring i (j - i) "my_trip2004_trip2005.jpg" /\
     "my_trip2004_trip2005.jpg" = (pre ++ "trip2004" ++ post)%string /\
     String.length pre = i /\ String.length "trip2004" = j - i) /\
  (extract_group ReSyntax.compile "notes.txt" "trip\d{4}" = Ok None <->
   forall i j, ~ Re.span (list_ascii_of_string "notes.txt") re_trip i j).
Proof.
  assert (Hc : ReSyntax.compile "trip\d{4}" = Ok re_trip) by (vm_compute; reflexivity).
  assert (He : extract_group ReSyntax.compile "my_trip2004_trip2005.jpg" "trip\d{4}"
               = Ok (Some "trip2004")) by (vm_compute; reflexivity).
  split; [exact Hc|]. split; [exact He|]. split.
  - exact (proj1 (proj2 (extract_group_is_leftmost_match ReSyntax.compile
                           "my_trip2004_trip2005.jpg" "trip\d{4}" re_trip Hc))
             "trip2004" He).
  - exact (proj2 (proj2 (extract_group_is_leftmost_match ReSyntax.compile
                           "notes.txt" "trip\d{4}" re_trip Hc))).
Defined.

(** C7 on the three trips: the group of 2005 comes first, as its picture
    does in the listing; the text file and the directory are in no group. *)
Lemma scan_and_group_is_grouped_witness :
  ReSyntax.compile "trip\d{4}" = Ok re_trip /\
  iterdir fs_trips ["src"]
    = Ok ["trip2005_01.jpg"; "trip2004_01.jpg"; "notes.txt"; "trip2003";
          "trip2004_02.jpg"] /\
  scan_and_group ReSyntax.compile fs_trips ["src"] "trip\d{4}"
    = Ok (grouped (matched ReSyntax.compile fs_trips ["src"] "trip\d{4}"
                     ["trip2005_01.jpg"; "trip2004_01.jpg"; "notes.txt"; "trip2003";
                      "trip2004_02.jpg"])) /\
  grouped (matched ReSyntax.compile fs_trips ["src"] "trip\d{4}"
             ["trip2005_01.jpg"; "trip2004_01.jpg"; "notes.txt"; "trip2003";
              "trip2004_02.jpg"])
    = [ mkFileGroup "trip2005"
          [ mkSourceFile ["src"; "trip2005_01.jpg"] "trip2005_01.jpg" 1 "trip2005" ];
        mkFileGroup "trip2004"
          [ mkSourceFile ["src"; "trip2004_01.jpg"] "trip2004_01.jpg" 1 "trip2004";
            mkSourceFile ["src"; "trip2004_02.jpg"] "trip2004_02.jpg" 2 "trip2004" ] ].
Proof.
  assert (Hc : ReSyntax.compile "trip\d{4}" = Ok re_trip) by (vm_compute; reflexivity).
  split; [exact Hc|]. split; [reflexivity|]. split.
  - exact (scan_and_group_is_grouped ReSyntax.compile fs_trips ["src"] "trip\d{4}"
             re_trip _ Hc eq_refl).
  - vm_compute. reflexivity.
Defined.

(** C8 on a folder that is missing and on the folder of the holiday run. *)
Lemma create_zip_archives_direct_files_witness :
  create_zip zip_store takes_all fs_vacation ["out"; "vacation"] ["out"; "vacation.zip"]
    = (Raise (FileNotFoundError "Folder not found: out/vacation"), fs_vacation) /\
  (exists fs',
     create_zip zip_store takes_all (fs_vacation_done "") ["out"; "vacation"] ["out"; "again.zip"]
       = (Ok tt, fs') /\
     exists kz fs1 md,
       open_write true (fs_vacation_done "") ["out"; "again.zip"] = Ok (kz, fs1) /\
       fs' = set_node (fs_vacation_done "") kz
               (File (zip_store (direct_files fs1 ["out"; "vacation"])) md)) /\
  direct_files (fs_vacation_done "") ["out"; "vacation"]
    = [("vacation_beach.jpg", "beach"); ("vacation_sunset.jpg", "sunset!")].
Proof.
  pose proof (create_zip_archives_direct_files zip_store takes_all fs_vacation
                ["out"; "vacation"] ["out"; "vacation.zip"]) as (Hmissing & _).
  pose proof (create_zip_archives_direct_files zip_store takes_all (fs_vacation_done "")
                ["out"; "vacation"] ["out"; "again.zip"]) as (_ & Hshape & _ & Hruns).
  split; [exact (Hmissing eq_refl)|]. split; [|reflexivity].
  destruct (Hruns ["out"; "again.zip"]
              (set_node (fs_vacation_done "") ["out"; "again.zip"] (File "" rw))
              ["vacation_beach.jpg"; "vacation_sunset.jpg"]
              eq_refl eq_refl eq_refl) as [fs' Hfs'].
  { intros names name data md Hi Hn Hs. vm_compute in Hi. injection Hi as <-.
    destruct Hn as [<-|[<-|[]]]; vm_compute in Hs; injection Hs as <- <-; reflexivity. }
  { intros name _. reflexivity. }
  exists fs'. split; [exact Hfs'|].
  destruct (Hshape fs' Hfs') as (kz & fs1 & md & Ho & Hf & _).
  exists kz, fs1, md. split; [exact Ho|exact Hf].
Defined.

(* ===================================================================== *)
(** ** The further properties at work on the sample runs                  *)
(* ===================================================================== *)

(** The groups of the three trips are well formed. *)
Lemma scan_and_group_groups_are_well_formed_witness :
  ReSyntax.compile "trip\d{4}" = Ok re_trip /\
  (exists groups,
     scan_and_group ReSyntax.compile fs_trips ["src"] "trip\d{4}" = Ok groups /\
     List.NoDup (map fg_name groups) /\
     forall g, In g groups ->
       fg_files g <> [] /\
       forall sf, In sf (fg_files g) ->
         sf_group sf = fg_name g /\
         extract_group ReSyntax.compile (sf_name sf) "trip\d{4}" = Ok (Some (fg_name g)) /\
         sf_path sf = ["src"] ++ [sf_name sf] /\
         exists data md,
           stat fs_trips (sf_path sf) = Ok (File data md) /\
           sf_size sf = String.length data).
Proof.
  assert (Hc : ReSyntax.compile "trip\d{4}" = Ok re_trip) by (vm_compute; reflexivity).
  split; [exact Hc|].
  eexists. split; [vm_compute; reflexivity|].
  apply (scan_and_group_groups_are_well_formed ReSyntax.compile fs_trips ["src"]
           "trip\d{4}" re_trip _ Hc).
  vm_compute. reflexivity.
Defined.

(** The three trip pictures are in the groups, the text file and the
    directory are not. *)
Lemma scan_and_group_keeps_every_match_witness :
  ReSyntax.compile "trip\d{4}" = Ok re_trip /\
  iterdir fs_trips ["src"]
    = Ok ["trip2005_01.jpg"; "trip2004_01.jpg"; "notes.txt"; "trip2003";
          "trip2004_02.jpg"] /\
  List.filter (matches ReSyntax.compile fs_trips ["src"] "trip\d{4}")
              ["trip2005_01.jpg"; "trip2004_01.jpg"; "notes.txt"; "trip2003";
               "trip2004_02.jpg"]
    = ["trip2005_01.jpg"; "trip2004_01.jpg"; "trip2004_02.jpg"] /\
  exists groups,
    scan_and_group ReSyntax.compile fs_trips ["src"] "trip\d{4}" = Ok groups /\
    map sf_name (concat (map fg_files groups))
      ≡ₚ List.filter (matches ReSyntax.compile fs_trips ["src"] "trip\d{4}")
           ["trip2005_01.jpg"; "trip2004_01.jpg"; "notes.txt"; "trip2003";
            "trip2004_02.jpg"] /\
    total_files groups
      = length (List.filter (matches ReSyntax.compile fs_trips ["src"] "trip\d{4}")
                  ["trip2005_01.jpg"; "trip2004_01.jpg"; "notes.txt"; "trip2003";
                   "trip2004_02.jpg"]).
Proof.
  assert (Hc : ReSyntax.compile "trip\d{4}" = Ok re_trip) by (vm_compute; reflexivity).
  split; [exact Hc|]. split; [reflexivity|]. split; [vm_compute; reflexivity|].
  eexists. split; [vm_compute; reflexivity|].
  apply (scan_and_group_keeps_every_match ReSyntax.compile fs_trips ["src"]
           "trip\d{4}" re_trip _ _ Hc eq_refl).
  vm_compute. reflexivity.
Defined.

(** A pattern that is accepted, two blank ones (spaces, a no-break space),
    one that does not compile and one whose repetition number is too large. *)
Lemma validate_pattern_accepts_what_compiles_witness :
  validate_pattern ReSyntax.compile "trip\d{4}" = Ok true /\
  (forall filename, exists o,
     extract_group ReSyntax.compile filename "trip\d{4}" = Ok o) /\
  validate_pattern ReSyntax.compile "   "
    = Raise (ValueError "Pattern cannot be empty") /\
  validate_pattern ReSyntax.compile (String "160"%char "")
    = Raise (ValueError "Pattern cannot be empty") /\
  validate_pattern ReSyntax.compile "trip["
    = Raise (ValueError "Invalid regex pattern: unterminated character set") /\
  validate_pattern ReSyntax.compile "a{4294967296}"
    = Raise (OverflowError "the repetition number is too large").
Proof.
  pose proof (validate_pattern_accepts_what_compiles ReSyntax.compile "trip\d{4}")
    as (Hyes & _ & _ & _ & _ & _ & Hsearch).
  pose proof (validate_pattern_accepts_what_compiles ReSyntax.compile "   ")
    as (_ & _ & Hblank & _).
  pose proof (validate_pattern_accepts_what_compiles ReSyntax.compile
                (String "160"%char ""))
    as (_ & _ & Hnbsp & _).
  pose proof (validate_pattern_accepts_what_compiles ReSyntax.compile "trip[")
    as (_ & _ & _ & Hbad & _).
  pose proof (validate_pattern_accepts_what_compiles ReSyntax.compile "a{4294967296}")
    as (_ & _ & _ & _ & Hpass & _).
  assert (Hv : validate_pattern ReSyntax.compile "trip\d{4}" = Ok true).
  { apply Hyes. split; [reflexivity|]. eexists. vm_compute. reflexivity. }
  split; [exact Hv|]. split; [exact (Hsearch Hv)|].
  split; [apply Hblank; reflexivity|].
  split; [apply Hnbsp; reflexivity|].
  split.
  - apply Hbad; vm_compute; reflexivity.
  - apply Hpass; [reflexivity|vm_compute; reflexivity|discriminate].
Defined.


(** A folder two levels below a directory that is not there yet. *)
Lemma create_folder_makes_a_directory_witness :
  create_folder fs_vacation ["out"; "2004"; "trips"]
    = Ok (fs_vacation ++ [ (["out"], Dir rw); (["out"; "2004"], Dir rw);
                           (["out"; "2004"; "trips"], Dir rw) ]) /\
  is_dir (fs_vacation ++ [ (["out"], Dir rw); (["out"; "2004"], Dir rw);
                           (["out"; "2004"; "trips"], Dir rw) ])
         ["out"; "2004"; "trips"] = true /\
  create_folder (fs_vacation ++ [ (["out"], Dir rw); (["out"; "2004"], Dir rw);
                                  (["out"; "2004"; "trips"], Dir rw) ])
                ["out"; "2004"; "trips"]
    = Ok (fs_vacation ++ [ (["out"], Dir rw); (["out"; "2004"], Dir rw);
                           (["out"; "2004"; "trips"], Dir rw) ]).
Proof.
  assert (H : create_folder fs_vacation ["out"; "2004"; "trips"]
              = Ok (fs_vacation ++ [ (["out"], Dir rw); (["out"; "2004"], Dir rw);
                                     (["out"; "2004"; "trips"], Dir rw) ]))
    by (vm_compute; reflexivity).
  destruct (create_folder_makes_a_directory _ _ _ H) as (Hd & _ & Hagain).
  split; [exact H|]. split; [exact Hd|exact Hagain].
Defined.

(** A directory that exists, a regular file, and a path through a regular
    file. *)
Lemma create_folder_on_existing_path_witness :
  create_folder fs_vacation ["src"; "sub"] = Ok fs_vacation /\
  create_folder fs_vacation ["src"; "work_meeting.jpg"]
    = Raise (FileExistsError "[Errno 17] File exists: 'src/work_meeting.jpg'") /\
  create_folder fs_vacation ["src"; "work_meeting.jpg"; "sub"]
    = Raise (NotADirectoryError
               "[Errno 20] Not a directory: 'src/work_meeting.jpg/sub'").
Proof.
  split; [|split].
  - apply (proj1 (create_folder_on_existing_path fs_vacation ["src"; "sub"])).
    reflexivity.
  - apply (proj1 (proj2 (create_folder_on_existing_path fs_vacation
                           ["src"; "work_meeting.jpg"]))).
    reflexivity.
  - apply (proj2 (proj2 (create_folder_on_existing_path fs_vacation
                           ["src"; "work_meeting.jpg"; "sub"]))).
    reflexivity.
Defined.

(** Three copies that cannot work: from a missing file, from a directory,
    from a file that cannot be read. *)
Lemma copy_failure_is_reported_not_raised_witness :
  copy_file_with_metadata no_fault fs_locked ["src"; "gone.jpg"] ["copy.jpg"]
    = (Ok false, fs_locked) /\
  copy_file_with_metadata no_fault fs_locked ["src"] ["copy.jpg"] = (Ok false, fs_locked) /\
  copy_file_with_metadata no_fault fs_locked ["src"; "a_1.jpg"] ["copy.jpg"]
    = (Ok false, fs_locked).
Proof.
  split; [|split].
  - apply (proj1 (proj2 (copy_failure_is_reported_not_raised no_fault fs_locked
                           ["src"; "gone.jpg"] ["copy.jpg"]))).
    reflexivity.
  - apply (proj1 (proj2 (proj2 (copy_failure_is_reported_not_raised no_fault fs_locked
                                  ["src"] ["copy.jpg"])))).
    reflexivity.
  - apply (proj2 (proj2 (proj2 (copy_failure_is_reported_not_raised no_fault fs_locked
                                  ["src"; "a_1.jpg"] ["copy.jpg"])))
             "one" (Mode false true)); reflexivity.
Defined.

(** The copy of one picture into the folder of its group. *)
Lemma copied_file_has_the_source_bytes_witness :
  exists_ fs_readonly ["out"; "a"; "a_1.jpg"] = false /\
  copy_file_with_metadata no_fault fs_readonly ["src"; "a_1.jpg"] ["out"; "a"; "a_1.jpg"]
    = (Ok true, fs_readonly ++ [(["out"; "a"; "a_1.jpg"], File "one" rw)]) /\
  stat (fs_readonly ++ [(["out"; "a"; "a_1.jpg"], File "one" rw)])
       ["out"; "a"; "a_1.jpg"] = Ok (File "one" rw) /\
  verify_copy (fs_readonly ++ [(["out"; "a"; "a_1.jpg"], File "one" rw)])
              ["src"; "a_1.jpg"] ["out"; "a"; "a_1.jpg"] = Ok true /\
  handle_merge (fs_readonly ++ [(["out"; "a"; "a_1.jpg"], File "one" rw)])
               ["out"; "a"; "a_1.jpg"] = (false, "skip").
Proof.
  assert (H : copy_file_with_metadata no_fault fs_readonly ["src"; "a_1.jpg"]
                ["out"; "a"; "a_1.jpg"]
              = (Ok true, fs_readonly ++ [(["out"; "a"; "a_1.jpg"], File "one" rw)]))
    by (vm_compute; reflexivity).
  destruct (copied_file_has_the_source_bytes no_fault fs_readonly _ ["src"; "a_1.jpg"]
              ["out"; "a"; "a_1.jpg"] eq_refl H)
    as (data & md & Hs & _ & Ht & _ & _ & Hv & Hm).
  vm_compute in Hs. injection Hs as <- <-.
  split; [reflexivity|]. split; [exact H|]. split; [exact Ht|]. split; [exact Hv|exact Hm].
Defined.

(** Deleting one picture leaves the others. *)
Lemma delete_original_removes_only_the_file_witness :
  delete_original fs_vacation ["src"; "work_meeting.jpg"]
    = (Ok true, remove_node fs_vacation ["src"; "work_meeting.jpg"]) /\
  is_file fs_vacation ["src"; "work_meeting.jpg"] = true /\
  exists_ (remove_node fs_vacation ["src"; "work_meeting.jpg"])
          ["src"; "work_meeting.jpg"] = false /\
  find_node (remove_node fs_vacation ["src"; "work_meeting.jpg"])
            ["src"; "vacation_beach.jpg"] = Some (File "beach" rw).
Proof.
  assert (H : delete_original fs_vacation ["src"; "work_meeting.jpg"]
              = (Ok true, remove_node fs_vacation ["src"; "work_meeting.jpg"]))
    by (vm_compute; reflexivity).
  destruct (delete_original_removes_only_the_file _ _ _ H) as (Hf & He & Hframe).
  split; [exact H|]. split; [exact Hf|]. split; [exact He|].
  rewrite Hframe; [reflexivity|]. vm_compute. discriminate.
Defined.

(** A missing file and a file in a read-only directory are reported; a
    directory and a path through a file raise. *)
Lemma delete_original_reports_or_raises_witness :
  delete_original fs_readonly ["src"; "gone.jpg"] = (Ok false, fs_readonly) /\
  delete_original fs_readonly ["src"; "a_1.jpg"] = (Ok false, fs_readonly) /\
  delete_original fs_readonly ["out"; "a"]
    = (Raise (IsADirectoryError "[Errno 21] Is a directory: 'out/a'"), fs_readonly) /\
  delete_original fs_readonly ["src"; "a_1.jpg"; "x"]
    = (Raise (NotADirectoryError "[Errno 20] Not a directory: 'src/a_1.jpg/x'"),
       fs_readonly).
Proof.
  pose proof (delete_original_reports_or_raises fs_readonly ["src"; "gone.jpg"])
    as (H1 & _).
  pose proof (delete_original_reports_or_raises fs_readonly ["src"; "a_1.jpg"])
    as (_ & H2 & _).
  pose proof (delete_original_reports_or_raises fs_readonly ["out"; "a"])
    as (_ & _ & H3 & _).
  pose proof (delete_original_reports_or_raises fs_readonly ["src"; "a_1.jpg"; "x"])
    as (_ & _ & _ & H4 & _).
  split; [|split; [|split]].
  - apply (H1 "[Errno 2] No such file or directory: 'src/gone.jpg'"). reflexivity.
  - apply (H2 ["src"; "a_1.jpg"]); reflexivity.
  - apply H3. reflexivity.
  - apply H4. reflexivity.
Defined.

(** A picture moved into the subdirectory. *)
Lemma copy_then_delete_moves_the_file_witness :
  exists_ fs_vacation ["src"; "sub"; "moved.jpg"] = false /\
  (exists fs1 fs2,
     copy_file_with_metadata no_fault fs_vacation ["src"; "work_meeting.jpg"]
       ["src"; "sub"; "moved.jpg"] = (Ok true, fs1) /\
     delete_original fs1 ["src"; "work_meeting.jpg"] = (Ok true, fs2) /\
     stat fs2 ["src"; "sub"; "moved.jpg"] = Ok (File "work" rw) /\
     exists_ fs2 ["src"; "work_meeting.jpg"] = false).
Proof.
  split; [reflexivity|].
  eexists. eexists.
  split; [vm_compute; reflexivity|]. split; [vm_compute; reflexivity|].
  match goal with
  | |- stat ?fs2 _ = _ /\ _ =>
      destruct (copy_then_delete_moves_the_file no_fault fs_vacation
                  (fs_vacation ++ [(["src"; "sub"; "moved.jpg"], File "work" rw)])
                  fs2 ["src"; "work_meeting.jpg"] ["src"; "sub"; "moved.jpg"]
                  eq_refl eq_refl eq_refl)
        as (data & md & Hs & Ht & He)
  end.
  vm_compute in Hs. injection Hs as <- <-. split; [exact Ht|exact He].
Defined.


(** An archive asked of a picture instead of a folder. *)
Lemma create_zip_of_a_regular_file_witness :
  is_file fs_vacation ["src"; "work_meeting.jpg"] = true /\
  exists fs' md,
    create_zip zip_store takes_all fs_vacation ["src"; "work_meeting.jpg"] ["work.zip"]
      = (Raise (NotADirectoryError
                  "[Errno 20] Not a directory: 'src/work_meeting.jpg'"), fs') /\
    stat fs' ["work.zip"] = Ok (File (zip_store []) md).
Proof.
  split; [reflexivity|].
  destruct (create_zip_of_a_regular_file zip_store takes_all fs_vacation
              (set_node fs_vacation ["work.zip"] (File "" rw))
              ["src"; "work_meeting.jpg"] ["work.zip"] ["work.zip"]
              eq_refl eq_refl) as (fs' & md & Hc & Hs & _).
  exists fs', md. split; [exact Hc|exact Hs].
Defined.

(** An older log file keeps its bytes when logging is set up again. *)
Lemma setup_logging_keeps_what_exists_witness :
  find_node fs_log ["out"; "photozipper.log"] = Some (File "old" rw) /\
  find_node (w_fs (snd (setup_logging ["out"] INFO (mkWorld fs_log [] []))))
            ["out"; "photozipper.log"] = Some (File "old" rw) /\
  file_handler (fst (setup_logging ["out"] INFO (mkWorld fs_log [] [])))
    = Some ["out"; "photozipper.log"].
Proof.
  split; [reflexivity|]. split; [|reflexivity].
  apply (proj1 (setup_logging_keeps_what_exists ["out"] INFO (mkWorld fs_log [] []))).
  reflexivity.
Defined.

(** Logging set up twice in a directory that has to be created. *)
Lemma setup_logging_twice_witness :
  setup_logging ["out"; "logs"] INFO world_vacation
    = (mkLogger INFO (Some ["out"; "logs"; "photozipper.log"]),
       mkWorld (fs_vacation ++ [ (["out"], Dir rw); (["out"; "logs"], Dir rw);
                                 (["out"; "logs"; "photozipper.log"], File "" rw) ])
               [] []) /\
  setup_logging ["out"; "logs"] INFO
    (snd (setup_logging ["out"; "logs"] INFO world_vacation))
    = setup_logging ["out"; "logs"] INFO world_vacation.
Proof.
  split; [vm_compute; reflexivity|].
  apply (proj1 (setup_logging_twice  ["out"; "logs"] INFO world_vacation
                  ["out"; "logs"; "photozipper.log"] eq_refl)).
Defined.

(** The output path is a regular file: the warning is shown at level
    [INFO], not at level [ERROR]. *)
Lemma setup_logging_falls_back_to_console_witness :
  is_file fs_output_file ["out"] = true /\
  setup_logging ["out"] INFO world_output_file
    = (mkLogger INFO None,
       mkWorld fs_output_file []
         ["photozipper - WARNING - Could not create log file: [Errno 17] File exists: 'out'"]) /\
  w_stderr (snd (setup_logging ["out"] ERROR world_output_file)) = [].
Proof.
  split; [reflexivity|].
  destruct (setup_logging_falls_back_to_console ["out"] INFO world_output_file eq_refl)
    as (H & _).
  destruct (setup_logging_falls_back_to_console ["out"] ERROR world_output_file eq_refl)
    as (_ & _ & H').
  split; [rewrite H; vm_compute; reflexivity|exact H'].
Defined.

(** The second holiday run: nothing copied, two files skipped. *)
Lemma run_counters_add_up_witness :
  organize ReSyntax.compile zip_store no_fault takes_all args_vacation
    (mkLogger WARNING (Some ["out"; "photozipper.log"]))
    (mkWorld (fs_vacation_done "") [] [])
  = (Return 0,
     mkState (mkWorld (fs_vacation_done log_second_run)
                      [("Successfully organized 0 files into 1 groups (2 skipped)"
                          ++ String Re.newline "" ++ "Groups: vacation")%string]
                      [])
             (mkLogger WARNING (Some ["out"; "photozipper.log"])) 0 2 0) /\
  0 + 2 = total_files groups_vacation /\ 0 = 0.
Proof.
  assert (H : organize ReSyntax.compile zip_store no_fault takes_all args_vacation
                (mkLogger WARNING (Some ["out"; "photozipper.log"]))
                (mkWorld (fs_vacation_done "") [] [])
              = (Return 0,
                 mkState (mkWorld (fs_vacation_done log_second_run)
                            [("Successfully organized 0 files into 1 groups (2 skipped)"
                                ++ String Re.newline "" ++ "Groups: vacation")%string]
                            [])
                         (mkLogger WARNING (Some ["out"; "photozipper.log"])) 0 2 0))
    by (vm_compute; reflexivity).
  split; [exact H|].
  apply (run_counters_add_up ReSyntax.compile zip_store no_fault takes_all args_vacation _ _ _
           groups_vacation eq_refl H).
  vm_compute. reflexivity.
Defined.

(** A picture in a read-only directory is counted as deleted and is still
    there. *)
Lemma deleted_count_ignores_failed_deletion_witness :
  dir_writable fs_readonly ["src"] = false /\
  fst (process_file no_fault args_delete ["out"; "a"] readonly_1 state_readonly) = Next /\
  files_deleted (snd (process_file no_fault args_delete ["out"; "a"] readonly_1 state_readonly))
    = 1 /\
  is_file (st_fs (snd (process_file no_fault args_delete ["out"; "a"] readonly_1 state_readonly)))
          ["src"; "a_1.jpg"] = true.
Proof.
  split; [reflexivity|]. split; [vm_compute; reflexivity|].
  destruct (deleted_count_ignores_failed_deletion no_fault args_delete ["out"; "a"] readonly_1
              state_readonly
              (snd (process_file no_fault args_delete ["out"; "a"] readonly_1 state_readonly))
              ["src"; "a_1.jpg"] eq_refl eq_refl
              ltac:(vm_compute; reflexivity) ltac:(vm_compute; reflexivity)
              ltac:(vm_compute; reflexivity))
    as (_ & Hd & Hf).
  - vm_compute. reflexivity.
  - split; [exact Hd|exact Hf].
Defined.

(** The run that fails on the unreadable picture keeps every file. *)
Lemma run_without_flags_removes_nothing_witness :
  delete_originals args_locked = false /\ zip_only args_locked = false /\
  fst (main ReSyntax.compile zip_store no_fault takes_all (Some args_locked) world_locked) = 1 /\
  (forall p, is_file fs_locked p = true ->
     is_file (w_fs (snd (main ReSyntax.compile zip_store no_fault takes_all (Some args_locked)
                           world_locked))) p = true).
Proof.
  split; [reflexivity|]. split; [reflexivity|]. split; [vm_compute; reflexivity|].
  exact (proj1 (proj2 (proj2 (run_without_flags_removes_nothing
                                ReSyntax.compile zip_store no_fault takes_all
                                args_locked world_locked eq_refl eq_refl)))).
Defined.

Lemma valid_no_match : ~ invalid_input ReSyntax.compile args_no_match fs_vacation.
Proof.
  intros [H|[H|[H|[e H]]]]; vm_compute in H; try discriminate. apply H. reflexivity.
Qed.

(** The holiday directory searched for [zzz]. *)
Lemma no_match_is_a_successful_run_witness :
  scan_of_run ReSyntax.compile args_no_match world_vacation = Ok [] /\
  fst (main ReSyntax.compile zip_store no_fault takes_all
         (Some args_no_match) world_vacation) = 0 /\
  w_stdout (snd (main ReSyntax.compile zip_store no_fault takes_all
                      (Some args_no_match) world_vacation))
    = ["No files matched the pattern"] /\
  exists_ (w_fs (snd (main ReSyntax.compile zip_store no_fault takes_all (Some args_no_match)
                        world_vacation))) ["out"; "zzz"] = false.
Proof.
  assert (Hs : scan_of_run ReSyntax.compile args_no_match world_vacation = Ok [])
    by (vm_compute; reflexivity).
  destruct (no_match_is_a_successful_run ReSyntax.compile zip_store no_fault takes_all args_no_match
              world_vacation valid_no_match Hs) as (H0 & Hout & _).
  split; [exact Hs|]. split; [exact H0|]. split; [exact Hout|].
  vm_compute. reflexivity.
Defined.

(** The first holiday run. *)
Lemma successful_run_archives_every_group_witness :
  main ReSyntax.compile zip_store no_fault takes_all (Some args_vacation) world_vacation
    = (0, world_vacation_done) /\
  is_dir (w_fs world_vacation_done) ["out"; "vacation"] = true /\
  (forall sf, In sf (fg_files group_vacation) ->
     exists_ (w_fs world_vacation_done) (target_of ["out"; "vacation"] sf) = true) /\
  exists md,
    stat (w_fs world_vacation_done) ["out"; "vacation.zip"]
    = Ok (File (zip_store (direct_files (w_fs world_vacation_done) ["out"; "vacation"]))
               md).
Proof.
  assert (H1 : main ReSyntax.compile zip_store no_fault takes_all
                 (Some args_vacation) world_vacation
               = (0, world_vacation_done)) by (vm_compute; reflexivity).
  split; [exact H1|].
  assert (Hs : scan_of_run ReSyntax.compile args_vacation world_vacation
               = Ok groups_vacation) by (vm_compute; reflexivity).
  exact (successful_run_archives_every_group ReSyntax.compile zip_store no_fault takes_all
           args_vacation world_vacation world_vacation_done groups_vacation
           ["out"; "photozipper.log"] eq_refl eq_refl eq_refl H1
           ltac:(vm_compute; reflexivity) Hs
           plain_names_vacation group_vacation (or_introl eq_refl)).
Defined.

Lemma valid_output_file : ~ invalid_input ReSyntax.compile args_locked fs_output_file.
Proof.
  intros [H|[H|[H|[e H]]]]; vm_compute in H; try discriminate. apply H. reflexivity.
Qed.

(** The run whose output path is a regular file. *)
Lemma output_that_is_a_file_fails_the_run_witness :
  is_file fs_output_file (output args_locked) = true /\
  main ReSyntax.compile zip_store no_fault takes_all (Some args_locked) world_output_file
    = (1, mkWorld fs_output_file []
            ["photozipper - WARNING - Could not create log file: [Errno 17] File exists: 'out'";
             "photozipper - ERROR - Unexpected error: [Errno 20] Not a directory: 'out/a'";
             "Error: [Errno 20] Not a directory: 'out/a'"]) /\
  w_fs (snd (main ReSyntax.compile zip_store no_fault takes_all
                  (Some args_locked) world_output_file))
    = fs_output_file.
Proof.
  split; [reflexivity|]. split; [vm_compute; reflexivity|].
  refine (proj1 (proj2 (output_that_is_a_file_fails_the_run
                          ReSyntax.compile zip_store no_fault takes_all
                          args_locked world_output_file
                          (mkFileGroup "a" [mkSourceFile ["src"; "a_1.jpg"] "a_1.jpg" 3 "a"])
                          [] valid_output_file eq_refl
                          ltac:(vm_compute; reflexivity) _))).
  vm_compute. reflexivity.
Defined.

Lemma base_vacation : base ["out"] ["out"] (st_fs state_vacation).
Proof.
  split; [reflexivity|]. split; [exists rw; reflexivity|].
  exists "", rw. split; reflexivity.
Qed.

(** The holiday group processed with [--zip-only]. *)
Lemma zip_only_removes_the_folder_witness :
  fst (process_group zip_store no_fault takes_all args_zip_only ["out"] group_vacation
         state_vacation) = Next /\
  exists_ (st_fs (snd (process_group zip_store no_fault takes_all args_zip_only ["out"]
                         group_vacation state_vacation))) ["out"; "vacation"] = false /\
  is_file (st_fs (snd (process_group zip_store no_fault takes_all args_zip_only ["out"]
                         group_vacation state_vacation))) ["out"; "vacation.zip"] = true /\
  is_file (st_fs (snd (process_group zip_store no_fault takes_all args_zip_only ["out"]
                         group_vacation state_vacation))) ["out"; "photozipper.log"] = true.
Proof.
  split; [vm_compute; reflexivity|].
  destruct (zip_only_removes_the_folder zip_store no_fault takes_all args_zip_only ["out"]
              group_vacation state_vacation
              (snd (process_group zip_store no_fault takes_all args_zip_only ["out"]
                      group_vacation state_vacation))
              eq_refl eq_refl eq_refl) as (Hf & _ & Hz & Hl).
  - repeat constructor; discriminate.
  - reflexivity.
  - exact base_vacation.
  - repeat split; discriminate.
  - intros sf [<-|[<-|[]]]; repeat split; discriminate.
  - vm_compute. reflexivity.
  - split; [exact Hf|]. split; [exact Hz|exact Hl].
Defined.
